(** * Multi-port memories of transactron: a shallow embedding

    Source: [src/transactron/utils/amaranth_ext/memory.py].

    The file embeds the two memory generators [MultiReadMemory] and
    [MultiportXORMemory] together with the port classes [ReadPort] and
    [WritePort].  Python objects become records, the mutable registry
    ([_read_ports], [_write_ports], [_frozen]) is threaded explicitly, raised
    exceptions become the [Raise] branch of [result], and the Amaranth module
    built by [elaborate] becomes a record of sub-modules and combinational
    assignments over symbolic signals. *)

From Stdlib Require Import ZArith Lia Bool String.
From stdpp Require Import base decidable list.

(** ** Exceptions and the error monad *)

Inductive exn : Type :=
| AlreadyElaborated   (* amaranth.hdl.AlreadyElaborated *)
| MultipleWritePorts  (* memory.py, line 15 *)
| ValueError
| IndexError.

Inductive result (A : Type) : Type :=
| Ok (a : A)
| Raise (e : exn).
Arguments Ok {A} a.
Arguments Raise {A} e.

Definition bind {A B} (c : result A) (k : A -> result B) : result B :=
  match c with
  | Ok a => k a
  | Raise e => Raise e
  end.

Declare Scope py_scope.
Delimit Scope py_scope with py.
Notation "'let*' x ':=' c 'in' k" := (bind c (fun x => k))
  (at level 10, x pattern, c at level 100, k at level 200) : py_scope.
Local Open Scope py_scope.

(** Python [l[i]] on a list: [IndexError] when [i] is out of range. *)
Definition getitem {A} (l : list A) (i : nat) : result A :=
  match l !! i with
  | Some x => Ok x
  | None => Raise IndexError
  end.

(** Python [l[i] = x] on a list: [IndexError] when [i] is out of range. *)
Definition setitem {A} (l : list A) (i : nat) (x : A) : result (list A) :=
  if decide (i < length l)%nat then Ok (<[i := x]> l) else Raise IndexError.

(** ** amaranth.utils

    [bits_for] is imported from the Amaranth library ([from amaranth.utils
    import *], memory.py line 2).  Its definition there is

      def ceil_log2(n):  0 if n == 0 else (n - 1).bit_length()     (n >= 0)
      def bits_for(n, require_sign_bit=False):
          if n > 0: r = ceil_log2(n + 1)
          else:     require_sign_bit = True; r = ceil_log2(-n)
          if require_sign_bit: r += 1
          return r                                                          *)

Definition bit_length (n : Z) : Z :=
  if (n =? 0)%Z then 0%Z else (Z.log2 (Z.abs n) + 1)%Z.

Definition ceil_log2 (n : Z) : Z :=
  if (n =? 0)%Z then 0%Z else bit_length (n - 1).

Definition bits_for (n : Z) : Z :=
  if (0 <? n)%Z then ceil_log2 (n + 1) else (ceil_log2 (- n) + 1)%Z.

(** ** Signals and values

    Every [Signal(...)] of the source is a distinct Python object.  A signal
    is named here by the object that owns it. *)

(** Identity of a memory generator object: the one the client holds, or the
    [read_block] that [MultiportXORMemory.elaborate] creates for writer
    [index] (memory.py line 320). *)
Inductive obj_id : Type :=
| Top
| ReadBlock (index : nat).

(** Identity of a primitive [amaranth.lib.memory.Memory]: the [k]-th bank
    created by [MultiReadMemory.elaborate] of [owner] (line 132), or the bank
    named [memory_{index}_{i}] by [MultiportXORMemory.elaborate] (line 302). *)
Inductive bank_id : Type :=
| Replica (owner : obj_id) (k : nat)
| Relay (index i : nat).

Inductive dir : Type := Rd | Wr.
Inductive field : Type := En | Addr | Data.

(** The four lists of anonymous signals of [MultiportXORMemory.elaborate],
    lines 287-292. *)
Inductive local_list : Type :=
| WriteXors | ReadXors | WriteRegsAddr | WriteRegsData.

Inductive signal : Type :=
| PortSig (owner : obj_id) (d : dir) (k : nat) (f : field)
    (* [en]/[addr]/[data] of the [k]-th ReadPort or WritePort of [owner] *)
| PhysSig (b : bank_id) (d : dir) (f : field)
    (* [en]/[addr]/[data] of the read or write port of a primitive bank *)
| LocalSig (l : local_list) (n : nat).
    (* the [n]-th [Signal(...)] of one of the comprehension lists *)

Global Instance obj_id_eq_dec : EqDecision obj_id.
Proof. solve_decision. Defined.
Global Instance bank_id_eq_dec : EqDecision bank_id.
Proof. solve_decision. Defined.
Global Instance dir_eq_dec : EqDecision dir.
Proof. solve_decision. Defined.
Global Instance field_eq_dec : EqDecision field.
Proof. solve_decision. Defined.
Global Instance local_list_eq_dec : EqDecision local_list.
Proof. solve_decision. Defined.
Global Instance signal_eq_dec : EqDecision signal.
Proof. solve_decision. Defined.

(** Amaranth value expressions, as far as memory.py builds them: a signal, the
    constant of [.eq(1)], and the [^] operator. *)
Inductive Value : Type :=
| VSig (s : signal)
| VConst (c : Z)
| VXor (a b : Value).

(** [lhs.eq(rhs)] *)
Record Assign : Type := mkAssign { lhs : signal; rhs : Value }.

Definition ShapeLike : Type := Z.
Definition Attrs : Type := option (list (string * string)).
(** [transparent_for: Iterable[Any]]: opaque handles supplied by the client. *)
Definition Any : Type := nat.

(** ** ReadPort and WritePort (memory.py lines 146-175)

    [__init__] ends with [memory._read_ports.append(self)]; the registry list
    of the owner is passed in and the extended list is returned with the new
    port.  [get_src_loc] (from [transactron.utils], not in this excerpt) only
    resolves a frame count to a source position for diagnostics; the field
    keeps the frame count. *)

Module ReadPort.
Record t : Type := mk {
  src_loc : Z;
  depth : Z;
  width : ShapeLike;
  init : list Z;
  transparent_for : list Any;
  addr_width : Z;
  en : signal;
  addr : signal;
  data : signal;
  _memory : obj_id
}.

Definition __init__ (memory : obj_id) (registry : list t)
    (width : ShapeLike) (depth : Z) (init : list Z)
    (transparent_for : list Any) (src_loc : Z) : t * list t :=
  let k := length registry in
  let self :=
    {| src_loc := src_loc;
       depth := depth;
       width := width;
       init := init;
       transparent_for := transparent_for;
       addr_width := bits_for (depth - 1);
       en := PortSig memory Rd k En;
       addr := PortSig memory Rd k Addr;
       data := PortSig memory Rd k Data;
       _memory := memory |} in
  (self, registry ++ [self]).
End ReadPort.

Module WritePort.
Record t : Type := mk {
  src_loc : Z;
  depth : Z;
  width : ShapeLike;
  init : list Z;
  addr_width : Z;
  en : signal;
  addr : signal;
  data : signal;
  _memory : obj_id
}.

Definition __init__ (memory : obj_id) (registry : list t)
    (width : ShapeLike) (depth : Z) (init : list Z)
    (granularity : option Z) (src_loc : Z) : t * list t :=
  let k := length registry in
  let self :=
    {| src_loc := src_loc;
       depth := depth;
       width := width;
       init := init;
       addr_width := bits_for (depth - 1);
       en := PortSig memory Wr k En;
       addr := PortSig memory Wr k Addr;
       data := PortSig memory Wr k Data;
       _memory := memory |} in
  (self, registry ++ [self]).
End WritePort.

(** ** The Amaranth objects that [elaborate] builds *)

(** A primitive bank, [amaranth.lib.memory.Memory(shape, depth, init, attrs,
    src_loc_at)], with the one read port and the one write port that
    memory.py requests from it right after construction.  The ports' signals
    are [PhysSig bank _ _]; [read_transparent_for] is the argument of
    [mem.read_port]. *)
Record Memory : Type := mkMemory {
  bank : bank_id;
  mem_shape : ShapeLike;
  mem_depth : Z;
  mem_init : list Z;
  mem_attrs : Attrs;
  mem_src_loc_at : Z;
  read_transparent_for : list Any
}.

(** [m.submodules += mem] is anonymous; [m.submodules[name] = mem] uses the
    f-strings of lines 303 and 321. *)
Inductive sub_name : Type :=
| Anonymous
| memory_ (index i : nat)
| read_block_ (index : nat).

(** [Module()]: sub-modules in insertion order and the statements added to
    [m.d.comb], in order. *)
Record HdlModule (E : Type) : Type := mkModule {
  submodules : list (sub_name * E);
  comb : list Assign
}.
Arguments mkModule {E} _ _.
Arguments submodules {E} _.
Arguments comb {E} _.

Definition add_submodule {E} (m : HdlModule E) (n : sub_name) (e : E) : HdlModule E :=
  {| submodules := submodules m ++ [(n, e)]; comb := comb m |}.

Definition add_comb {E} (m : HdlModule E) (stmts : list Assign) : HdlModule E :=
  {| submodules := submodules m; comb := comb m ++ stmts |}.

(** What happened during elaboration, in program order.  [EvMemory] is one
    call of the [memory.Memory] constructor; it records the registry of the
    elaborating object as it is at that call: its [_frozen] flag and the
    lengths of [read_ports] and [write_ports]. *)
Inductive event : Type :=
| EvFreeze (o : obj_id)
| EvMemory (b : bank_id) (o : obj_id) (frozen : bool) (n_read n_write : nat).

(** ** MultiReadMemory (memory.py lines 18-143) *)

Module MultiReadMemory.
Record t : Type := mk {
  oid : obj_id;
  _shape : ShapeLike;
  _depth : Z;
  _init : list Z;
  _attrs : Attrs;
  src_loc : Z;
  _read_ports : list ReadPort.t;
  _write_ports : list WritePort.t;
  _frozen : bool
}.

Definition __init__ (oid : obj_id) (shape : ShapeLike) (depth : Z)
    (init : list Z) (attrs : Attrs) (src_loc_at : Z) : t :=
  {| oid := oid;
     _shape := shape;
     _depth := depth;
     _init := init;
     _attrs := attrs;
     src_loc := src_loc_at;
     _read_ports := [];
     _write_ports := [];
     _frozen := false |}.

Definition shape (self : t) := _shape self.
Definition depth (self : t) := _depth self.
Definition init (self : t) := _init self.
Definition attrs (self : t) := _attrs self.
Definition read_ports (self : t) := _read_ports self.
Definition write_ports (self : t) := _write_ports self.

Definition set_read_ports (self : t) (l : list ReadPort.t) : t :=
  mk (oid self) (_shape self) (_depth self) (_init self) (_attrs self)
     (src_loc self) l (_write_ports self) (_frozen self).
Definition set_write_ports (self : t) (l : list WritePort.t) : t :=
  mk (oid self) (_shape self) (_depth self) (_init self) (_attrs self)
     (src_loc self) (_read_ports self) l (_frozen self).
Definition set_frozen (self : t) (b : bool) : t :=
  mk (oid self) (_shape self) (_depth self) (_init self) (_attrs self)
     (src_loc self) (_read_ports self) (_write_ports self) b.

(** The [domain] argument is accepted and ignored by the source. *)
Definition read_port (self : t) (transparent_for : list Any)
    (src_loc_at : Z) : result (ReadPort.t * t) :=
  if _frozen self then Raise AlreadyElaborated
  else
    let '(p, reg) :=
      ReadPort.__init__ (oid self) (_read_ports self) (shape self)
        (depth self) (init self) transparent_for (1 + src_loc_at) in
    Ok (p, set_read_ports self reg).

Definition write_port (self : t) (granularity : option Z)
    (src_loc_at : Z) : result (WritePort.t * t) :=
  if _frozen self then Raise AlreadyElaborated
  else
    match write_ports self with
    | _ :: _ => Raise MultipleWritePorts
    | [] =>
      let '(p, reg) :=
        WritePort.__init__ (oid self) (_write_ports self) (shape self)
          (depth self) (init self) granularity (1 + src_loc_at) in
      Ok (p, set_write_ports self reg)
    end.

(** Body of [for port in self.read_ports] (lines 128-141).  A registry
    list holds port objects only ([ReadPort.__init__] is the one place that
    appends), so the [port is None] test of line 129 never fires and has no
    counterpart.  The bank made in one iteration is the next anonymous
    sub-module of [m].

    Line 134 hands the [transparent_for] of the logical read port to
    [mem.read_port] of the new bank, whose only write port is created one
    line later.  Amaranth accepts there only write ports of that same bank,
    so the call returns for the empty set (the default of [read_port], and
    what every replicator of [MultiportXORMemory] uses) and raises for any
    other.  This definition is the body for the first case: it records the
    set on the bank and does not model the raise.  What is proved about the
    banks' cycles of an engine with client-declared read ports is stated for
    [plain_read_ports] only. *)
Definition elaborate_port (self : t) (write_port : WritePort.t)
    (port : ReadPort.t) (st : HdlModule Memory * list event)
    : HdlModule Memory * list event :=
  let '(m, log) := st in
  let b := Replica (oid self) (length (submodules m)) in
  let mem :=
    {| bank := b;
       mem_shape := ReadPort.width port;
       mem_depth := depth self;
       mem_init := init self;
       mem_attrs := attrs self;
       mem_src_loc_at := src_loc self;
       read_transparent_for := ReadPort.transparent_for port |} in
  let log :=
    log ++ [EvMemory b (oid self) (_frozen self)
              (length (read_ports self)) (length (write_ports self))] in
  let m := add_submodule m Anonymous mem in
  let m := add_comb m
    [ mkAssign (PhysSig b Rd Addr) (VSig (ReadPort.addr port));
      mkAssign (ReadPort.data port) (VSig (PhysSig b Rd Data));
      mkAssign (PhysSig b Rd En) (VSig (ReadPort.en port));
      mkAssign (PhysSig b Wr Addr) (VSig (WritePort.addr write_port));
      mkAssign (PhysSig b Wr Data) (VSig (WritePort.data write_port));
      mkAssign (PhysSig b Wr En) (VSig (WritePort.en write_port)) ] in
  (m, log).

Fixpoint elaborate_ports (self : t) (write_port : WritePort.t)
    (ports : list ReadPort.t) (st : HdlModule Memory * list event)
    : HdlModule Memory * list event :=
  match ports with
  | [] => st
  | port :: rest =>
    elaborate_ports self write_port rest
      (elaborate_port self write_port port st)
  end.

(** [elaborate] returns the object after the call, the module [m] and the
    events of the call. *)
Definition elaborate (self : t) : t * HdlModule Memory * list event :=
  let m := mkModule [] [] in
  let self := set_frozen self true in
  let log := [EvFreeze (oid self)] in
  match write_ports self with
  | write_port :: _ =>
    let '(m, log) :=
      elaborate_ports self write_port (read_ports self) (m, log) in
    (self, m, log)
  | [] => (self, m, log)
  end.
End MultiReadMemory.

(** ** MultiportXORMemory (memory.py lines 178-338) *)

(** What [MultiportXORMemory.elaborate] puts into [m.submodules]: primitive
    banks and [MultiReadMemory] objects. *)
Inductive Elaboratable : Type :=
| EMemory (mem : Memory)
| EMultiRead (blk : MultiReadMemory.t).

Module MultiportXORMemory.
Record t : Type := mk {
  oid : obj_id;
  _shape : ShapeLike;
  _depth : Z;
  _init : list Z;
  _attrs : Attrs;
  src_loc : Z;
  _read_ports : list ReadPort.t;
  _write_ports : list WritePort.t;
  _frozen : bool
}.

Definition __init__ (oid : obj_id) (shape : ShapeLike) (depth : Z)
    (init : list Z) (attrs : Attrs) (src_loc_at : Z) : t :=
  {| oid := oid;
     _shape := shape;
     _depth := depth;
     _init := init;
     _attrs := attrs;
     src_loc := src_loc_at;
     _read_ports := [];
     _write_ports := [];
     _frozen := false |}.

Definition shape (self : t) := _shape self.
Definition depth (self : t) := _depth self.
Definition init (self : t) := _init self.
Definition attrs (self : t) := _attrs self.
Definition read_ports (self : t) := _read_ports self.
Definition write_ports (self : t) := _write_ports self.

Definition set_read_ports (self : t) (l : list ReadPort.t) : t :=
  mk (oid self) (_shape self) (_depth self) (_init self) (_attrs self)
     (src_loc self) l (_write_ports self) (_frozen self).
Definition set_write_ports (self : t) (l : list WritePort.t) : t :=
  mk (oid self) (_shape self) (_depth self) (_init self) (_attrs self)
     (src_loc self) (_read_ports self) l (_frozen self).
Definition set_frozen (self : t) (b : bool) : t :=
  mk (oid self) (_shape self) (_depth self) (_init self) (_attrs self)
     (src_loc self) (_read_ports self) (_write_ports self) b.

Definition read_port (self : t) (transparent_for : list Any)
    (src_loc_at : Z) : result (ReadPort.t * t) :=
  if _frozen self then Raise AlreadyElaborated
  else
    let '(p, reg) :=
      ReadPort.__init__ (oid self) (_read_ports self) (shape self)
        (depth self) (init self) transparent_for (1 + src_loc_at) in
    Ok (p, set_read_ports self reg).

Definition write_port (self : t) (granularity : option Z)
    (src_loc_at : Z) : result (WritePort.t * t) :=
  if _frozen self then Raise AlreadyElaborated
  else
    let '(p, reg) :=
      WritePort.__init__ (oid self) (_write_ports self) (shape self)
        (depth self) (init self) granularity (1 + src_loc_at) in
    Ok (p, set_write_ports self reg).

(** The variables that the loops of [elaborate] update: the module [m], the
    lists [write_xors] and [read_xors] (rebound element by element), and the
    events so far.  [write_regs_addr] and [write_regs_data] (lines 290-292)
    are created and never used. *)
Record locals : Type := mkLocals {
  m : HdlModule Elaboratable;
  write_xors : list Value;
  read_xors : list Value;
  log : list event
}.

(** Body of [for i in range(len(self.write_ports) - 1)], lines 302-318;
    [index_passed_by] is carried along with the locals. *)
Definition relay_body (self : t) (index : nat) (write_port : WritePort.t)
    (i : nat) (st : bool * locals) : result (bool * locals) :=
  let '(index_passed_by, s) := st in
  let b := Relay index i in
  let mem :=
    {| bank := b;
       mem_shape := shape self;
       mem_depth := depth self;
       mem_init := init self;
       mem_attrs := attrs self;
       mem_src_loc_at := src_loc self;
       read_transparent_for := [] |} in
  let log :=
    log s ++ [EvMemory b (oid self) (_frozen self)
                (length (read_ports self)) (length (write_ports self))] in
  let m := add_submodule (m s) (memory_ index i) (EMemory mem) in
  let index_passed_by :=
    if decide (i = index) then true else index_passed_by in
  let idx := if index_passed_by then (i + 1)%nat else i in
  let* old := getitem (write_xors s) idx in
  let* write_xors :=
    setitem (write_xors s) idx (VXor (VSig (PhysSig b Rd Data)) old) in
  let* committed := getitem write_xors index in
  let* other := getitem (write_ports self) idx in
  let m := add_comb m
    [ mkAssign (PhysSig b Wr Addr) (VSig (WritePort.addr write_port));
      mkAssign (PhysSig b Wr Data) committed;
      mkAssign (PhysSig b Wr En) (VSig (WritePort.en write_port));
      mkAssign (PhysSig b Rd En) (VConst 1);
      mkAssign (PhysSig b Rd Addr) (VSig (WritePort.addr other)) ] in
  Ok (index_passed_by, mkLocals m write_xors (read_xors s) log).

Fixpoint relay_loop (self : t) (index : nat) (write_port : WritePort.t)
    (range : list nat) (st : bool * locals) : result (bool * locals) :=
  match range with
  | [] => Ok st
  | i :: rest =>
    let* st := relay_body self index write_port i st in
    relay_loop self index write_port rest st
  end.

(** [[read_block.read_port() for _ in self.read_ports]], line 324. *)
Fixpoint declare_read_ports {A} (for_each : list A)
    (read_block : MultiReadMemory.t)
    : result (list ReadPort.t * MultiReadMemory.t) :=
  match for_each with
  | [] => Ok ([], read_block)
  | _ :: rest =>
    let* (p, read_block) := MultiReadMemory.read_port read_block [] 0 in
    let* (ps, read_block) := declare_read_ports rest read_block in
    Ok (p :: ps, read_block)
  end.

(** [for idx, port in enumerate(r_read_ports)], lines 330-333. *)
Fixpoint fan_out_loop (self : t) (idx : nat) (r_read_ports : list ReadPort.t)
    (s : locals) : result locals :=
  match r_read_ports with
  | [] => Ok s
  | port :: rest =>
    let* old := getitem (read_xors s) idx in
    let* read_xors :=
      setitem (read_xors s) idx (VXor old (VSig (ReadPort.data port))) in
    let* logical := getitem (read_ports self) idx in
    let m := add_comb (m s)
      [ mkAssign (ReadPort.addr port) (VSig (ReadPort.addr logical));
        mkAssign (ReadPort.en port) (VConst 1) ] in
    fan_out_loop self (S idx) rest
      (mkLocals m (write_xors s) read_xors (log s))
  end.

(** Body of [for index, write_port in enumerate(self.write_ports)], lines
    295-333.  [write_port is None] cannot happen for a registry list.  The
    [read_block] object is shared between [m.submodules] and the local
    variable, so the sub-module is the object as the port declarations of
    lines 323-326 leave it. *)
Definition writer_body (self : t) (index : nat) (write_port : WritePort.t)
    (s : locals) : result locals :=
  let index_passed_by := false in
  let* old := getitem (write_xors s) index in
  let* seeded :=
    setitem (write_xors s) index (VXor (VSig (WritePort.data write_port)) old) in
  let s := mkLocals (m s) seeded (read_xors s) (log s) in
  let* (_, s) :=
    relay_loop self index write_port
      (seq 0 (length (write_ports self) - 1)) (index_passed_by, s) in
  let read_block :=
    MultiReadMemory.__init__ (ReadBlock index) (shape self) (depth self)
      (init self) (attrs self) (src_loc self) in
  let* (r_write_port, read_block) :=
    MultiReadMemory.write_port read_block None 0 in
  let* (r_read_ports, read_block) :=
    declare_read_ports (read_ports self) read_block in
  let m := add_submodule (m s) (read_block_ index) (EMultiRead read_block) in
  let* committed := getitem (write_xors s) index in
  let m := add_comb m
    [ mkAssign (WritePort.addr r_write_port) (VSig (WritePort.addr write_port));
      mkAssign (WritePort.data r_write_port) committed;
      mkAssign (WritePort.en r_write_port) (VSig (WritePort.en write_port)) ] in
  fan_out_loop self 0 r_read_ports
    (mkLocals m (write_xors s) (read_xors s) (log s)).

Fixpoint writers_loop (self : t) (index : nat) (todo : list WritePort.t)
    (s : locals) : result locals :=
  match todo with
  | [] => Ok s
  | write_port :: rest =>
    let* s := writer_body self index write_port s in
    writers_loop self (S index) rest s
  end.

(** [for index, port in enumerate(self.read_ports)], lines 335-336. *)
Fixpoint drive_read_ports (index : nat) (todo : list ReadPort.t)
    (s : locals) : result locals :=
  match todo with
  | [] => Ok s
  | port :: rest =>
    let* combined := getitem (read_xors s) index in
    let m := add_comb (m s) [ mkAssign (ReadPort.data port) combined ] in
    drive_read_ports (S index) rest
      (mkLocals m (write_xors s) (read_xors s) (log s))
  end.

Definition fresh_signals {A} (l : local_list) (for_each : list A) : list Value :=
  imap (fun n _ => VSig (LocalSig l n)) for_each.

Definition elaborate (self : t)
    : result (t * HdlModule Elaboratable * list event) :=
  let m := mkModule [] [] in
  let self := set_frozen self true in
  let log := [EvFreeze (oid self)] in
  let addr_width := bits_for (depth self - 1) in
  let write_xors := fresh_signals WriteXors (write_ports self) in
  let read_xors := fresh_signals ReadXors (read_ports self) in
  let write_regs_addr := fresh_signals WriteRegsAddr (write_ports self) in
  let write_regs_data := fresh_signals WriteRegsData (write_ports self) in
  let* s :=
    writers_loop self 0 (write_ports self)
      (mkLocals m write_xors read_xors log) in
  let* s := drive_read_ports 0 (read_ports self) s in
  Ok (self, MultiportXORMemory.m s, MultiportXORMemory.log s).
End MultiportXORMemory.

(** ** The elaborated hierarchy

    Amaranth elaborates the module returned by [elaborate] and then, in
    order, every sub-module that is itself an [Elaboratable] (here the
    [read_block]s).  A [Design] is the outcome: all primitive banks, all
    combinational assignments, and the events in program order. *)

Record Design : Type := mkDesign {
  banks : list Memory;
  wiring : list Assign;
  trace : list event
}.

Definition MultiReadMemory_design (self : MultiReadMemory.t) : Design :=
  let '(_, m, log) := MultiReadMemory.elaborate self in
  {| banks := map snd (submodules m); wiring := comb m; trace := log |}.

Definition sub_design (e : Elaboratable) : Design :=
  match e with
  | EMemory mem => {| banks := [mem]; wiring := []; trace := [] |}
  | EMultiRead blk => MultiReadMemory_design blk
  end.

Definition MultiportXORMemory_design (self : MultiportXORMemory.t)
    : result Design :=
  let* (_, m, log) := MultiportXORMemory.elaborate self in
  let subs := map (fun ne => sub_design (snd ne)) (submodules m) in
  Ok {| banks := concat (map banks subs);
        wiring := comb m ++ concat (map wiring subs);
        trace := log ++ concat (map trace subs) |}.

(** ** Client calls

    The construction API of an engine as a client drives it.  A call that
    raises leaves the object as it was: both checks precede the only
    mutation, the [append] in the port constructor. *)

Inductive call : Type :=
| CallReadPort (transparent_for : list Any) (src_loc_at : Z)
| CallWritePort (granularity : option Z) (src_loc_at : Z)
| CallElaborate.

(** What a call hands back: the signals of the new port, or nothing for
    [elaborate] (the module is studied separately). *)
Inductive handle : Type :=
| HRead (p : ReadPort.t)
| HWrite (p : WritePort.t)
| HModule.

Definition MultiReadMemory_call (self : MultiReadMemory.t) (c : call)
    : result handle * MultiReadMemory.t :=
  match c with
  | CallReadPort tf loc =>
    match MultiReadMemory.read_port self tf loc with
    | Ok (p, self') => (Ok (HRead p), self')
    | Raise e => (Raise e, self)
    end
  | CallWritePort g loc =>
    match MultiReadMemory.write_port self g loc with
    | Ok (p, self') => (Ok (HWrite p), self')
    | Raise e => (Raise e, self)
    end
  | CallElaborate =>
    let '(self', _, _) := MultiReadMemory.elaborate self in (Ok HModule, self')
  end.

(** [elaborate] sets [_frozen] on its first line, so the flag stays set also
    when the call raises further down. *)
Definition MultiportXORMemory_call (self : MultiportXORMemory.t) (c : call)
    : result handle * MultiportXORMemory.t :=
  match c with
  | CallReadPort tf loc =>
    match MultiportXORMemory.read_port self tf loc with
    | Ok (p, self') => (Ok (HRead p), self')
    | Raise e => (Raise e, self)
    end
  | CallWritePort g loc =>
    match MultiportXORMemory.write_port self g loc with
    | Ok (p, self') => (Ok (HWrite p), self')
    | Raise e => (Raise e, self)
    end
  | CallElaborate =>
    match MultiportXORMemory.elaborate self with
    | Ok (self', _, _) => (Ok HModule, self')
    | Raise e => (Raise e, MultiportXORMemory.set_frozen self true)
    end
  end.

(** A session: the calls in order, their outcomes, and the final object. *)
Fixpoint MultiReadMemory_session (self : MultiReadMemory.t) (cs : list call)
    : list (result handle) * MultiReadMemory.t :=
  match cs with
  | [] => ([], self)
  | c :: rest =>
    let '(r, self) := MultiReadMemory_call self c in
    let '(rs, self) := MultiReadMemory_session self rest in
    (r :: rs, self)
  end.

Fixpoint MultiportXORMemory_session (self : MultiportXORMemory.t)
    (cs : list call) : list (result handle) * MultiportXORMemory.t :=
  match cs with
  | [] => ([], self)
  | c :: rest =>
    let '(r, self) := MultiportXORMemory_call self c in
    let '(rs, self) := MultiportXORMemory_session self rest in
    (r :: rs, self)
  end.

(** The calls that declare a port, and the ports handed out in a session. *)
Definition declares (c : call) : Prop :=
  match c with
  | CallElaborate => False
  | _ => True
  end.

Definition read_handles (outs : list (result handle)) : list ReadPort.t :=
  omap (fun r => match r with Ok (HRead p) => Some p | _ => None end) outs.

Definition write_handles (outs : list (result handle)) : list WritePort.t :=
  omap (fun r => match r with Ok (HWrite p) => Some p | _ => None end) outs.

(** ** Meaning of a design *)

Fixpoint eval (env : signal -> Z) (v : Value) : Z :=
  match v with
  | VSig s => env s
  | VConst c => c
  | VXor a b => Z.lxor (eval env a) (eval env b)
  end.

(** The statement of [m.d.comb] that drives a signal, if any. *)
Definition driver (stmts : list Assign) (s : signal) : option Value :=
  rhs <$> find (fun a => bool_decide (lhs a = s)) stmts.

(** Value of a signal within one cycle: a driven signal takes the value of
    its right-hand side, an undriven one what [undriven] says. *)
Fixpoint settle (fuel : nat) (stmts : list Assign) (undriven : signal -> Z)
    (s : signal) : Z :=
  match driver stmts s with
  | None => undriven s
  | Some v =>
    match fuel with
    | O => 0%Z
    | S fuel => eval (settle fuel stmts undriven) v
    end
  end.

Record bank_state : Type := mkBank { contents : list Z; rdata : Z }.

Definition enabled (v : Z) : bool := negb (v =? 0)%Z.

Definition load (rows : list Z) (a : Z) : Z :=
  if (a <? 0)%Z then 0%Z else default 0%Z (rows !! Z.to_nat a).

Definition store (rows : list Z) (a v : Z) : list Z :=
  if (a <? 0)%Z then rows else <[Z.to_nat a := v]> rows.

(** Modelled from the spec: the primitive bank [amaranth.lib.memory.Memory]
    is an external collaborator (spec section 4.4): [depth] rows, the first
    ones taken from [init] and the others zero. *)
Definition bank_reset (mem : Memory) : bank_state :=
  let n := Z.to_nat (mem_depth mem) in
  {| contents := take n (mem_init mem ++ replicate n 0%Z); rdata := 0%Z |}.

(** Modelled from the spec: the per-cycle behaviour of a primitive bank (spec
    section 4.4).  An enabled write commits [data] at [addr]; an enabled read
    returns the content at [addr].  The read is of the pre-write state, which
    is the behaviour of a read port with an empty [transparent_for]: the
    relay banks and the replicators' banks are built with the default (lines
    305, 325), and for the banks of an engine with client-declared read
    ports the theorems about cycles assume it ([plain_read_ports]).  The
    read port is clocked (default [domain]): the value read in a cycle is on
    [data] from the next cycle. *)
Definition bank_step (mem : Memory) (v : signal -> Z) (bs : bank_state)
    : bank_state :=
  let b := bank mem in
  {| contents :=
       if enabled (v (PhysSig b Wr En))
       then store (contents bs) (v (PhysSig b Wr Addr)) (v (PhysSig b Wr Data))
       else contents bs;
     rdata :=
       if enabled (v (PhysSig b Rd En))
       then load (contents bs) (v (PhysSig b Rd Addr))
       else rdata bs |}.

Definition find_bank (d : Design) (b : bank_id) : option Memory :=
  find (fun mem => bool_decide (bank mem = b)) (banks d).

(** Signals that no statement drives: a bank's read data is its register;
    the client (test bench [tb]) drives the inputs of the ports it declared,
    that is everything but the [data] of a read port; any other signal keeps
    its reset value 0. *)
Definition undriven (tb : signal -> Z) (st : bank_id -> bank_state)
    (s : signal) : Z :=
  match s with
  | PhysSig b Rd Data => rdata (st b)
  | PortSig Top Rd _ Data => 0%Z
  | PortSig Top _ _ _ => tb s
  | _ => 0%Z
  end.

Definition cycle_value (d : Design) (tb : signal -> Z)
    (st : bank_id -> bank_state) (s : signal) : Z :=
  settle (S (length (wiring d))) (wiring d) (undriven tb st) s.

Definition reset (d : Design) : bank_id -> bank_state :=
  fun b =>
    match find_bank d b with
    | Some mem => bank_reset mem
    | None => mkBank [] 0%Z
    end.

Definition step (d : Design) (tb : signal -> Z) (st : bank_id -> bank_state)
    : bank_id -> bank_state :=
  fun b =>
    match find_bank d b with
    | Some mem => bank_step mem (cycle_value d tb st) (st b)
    | None => st b
    end.

(** State at the start of cycle [n], the client driving [tb t] in cycle [t]. *)
Fixpoint run (d : Design) (tb : nat -> signal -> Z) (n : nat)
    : bank_id -> bank_state :=
  match n with
  | O => reset d
  | S n => step d (tb n) (run d tb n)
  end.

(** Value of signal [s] in cycle [n]. *)
Definition observe (d : Design) (tb : nat -> signal -> Z) (n : nat)
    (s : signal) : Z :=
  cycle_value d (tb n) (run d tb n) s.

(** ** The pieces of an elaborated MultiReadMemory, by position

    What one iteration of the loop of [MultiReadMemory.elaborate] adds for
    the [k]-th read port: the bank, its six assignments and its event. *)

Definition replica_memory (self : MultiReadMemory.t) (k : nat)
    (port : ReadPort.t) : Memory :=
  {| bank := Replica (MultiReadMemory.oid self) k;
     mem_shape := ReadPort.width port;
     mem_depth := MultiReadMemory.depth self;
     mem_init := MultiReadMemory.init self;
     mem_attrs := MultiReadMemory.attrs self;
     mem_src_loc_at := MultiReadMemory.src_loc self;
     read_transparent_for := ReadPort.transparent_for port |}.

Definition replica_wiring (self : MultiReadMemory.t)
    (write_port : WritePort.t) (k : nat) (port : ReadPort.t) : list Assign :=
  let b := Replica (MultiReadMemory.oid self) k in
  [ mkAssign (PhysSig b Rd Addr) (VSig (ReadPort.addr port));
    mkAssign (ReadPort.data port) (VSig (PhysSig b Rd Data));
    mkAssign (PhysSig b Rd En) (VSig (ReadPort.en port));
    mkAssign (PhysSig b Wr Addr) (VSig (WritePort.addr write_port));
    mkAssign (PhysSig b Wr Data) (VSig (WritePort.data write_port));
    mkAssign (PhysSig b Wr En) (VSig (WritePort.en write_port)) ].

Definition replica_event (self : MultiReadMemory.t) (k : nat) : event :=
  EvMemory (Replica (MultiReadMemory.oid self) k) (MultiReadMemory.oid self)
    (MultiReadMemory._frozen self)
    (length (MultiReadMemory.read_ports self))
    (length (MultiReadMemory.write_ports self)).

(** The signals of the ports in a registry of object [o] are the ones the
    port constructors hand out: position [k] holds the [k]-th port. *)
Definition read_ports_of (o : obj_id) (ports : list ReadPort.t) : Prop :=
  forall k p, ports !! k = Some p ->
    ReadPort.en p = PortSig o Rd k En /\
    ReadPort.addr p = PortSig o Rd k Addr /\
    ReadPort.data p = PortSig o Rd k Data.

Definition write_ports_of (o : obj_id) (ports : list WritePort.t) : Prop :=
  forall k p, ports !! k = Some p ->
    WritePort.en p = PortSig o Wr k En /\
    WritePort.addr p = PortSig o Wr k Addr /\
    WritePort.data p = PortSig o Wr k Data.

Definition single_wf (o : obj_id) (self : MultiReadMemory.t) : Prop :=
  MultiReadMemory.oid self = o /\
  read_ports_of o (MultiReadMemory.read_ports self) /\
  write_ports_of o (MultiReadMemory.write_ports self).

Definition xor_wf (o : obj_id) (self : MultiportXORMemory.t) : Prop :=
  MultiportXORMemory.oid self = o /\
  read_ports_of o (MultiportXORMemory.read_ports self) /\
  write_ports_of o (MultiportXORMemory.write_ports self).

(** ** Scenario A of the specification (section 8)

    Depth 4, width 8, two read ports and one write port.  The client writes
    0x11 at address 2 in cycle 0 and has both read ports sample address 2 in
    cycle 1. *)

Definition scenario_A_calls : list call :=
  [CallReadPort [] 0%Z; CallReadPort [] 0%Z; CallWritePort None 0%Z].

Definition scenario_A : MultiReadMemory.t :=
  snd (MultiReadMemory_session
         (MultiReadMemory.__init__ Top 8%Z 4%Z [] None 0%Z) scenario_A_calls).

Definition scenario_A_tb (t : nat) (s : signal) : Z :=
  match t, s with
  | O, PortSig Top Wr O En => 1%Z
  | O, PortSig Top Wr O Addr => 2%Z
  | O, PortSig Top Wr O Data => 17%Z
  | S O, PortSig Top Rd _ En => 1%Z
  | S O, PortSig Top Rd _ Addr => 2%Z
  | _, _ => 0%Z
  end.

(** Three read ports and no write port, on a memory with initial content. *)
Definition scenario_no_writer : MultiReadMemory.t :=
  snd (MultiReadMemory_session
         (MultiReadMemory.__init__ Top 8%Z 4%Z [7%Z; 7%Z; 7%Z; 7%Z] None 0%Z)
         [CallReadPort [] 0%Z; CallReadPort [] 0%Z; CallReadPort [] 0%Z]).

(** ** The pieces of an elaborated MultiportXORMemory, by position *)

(** The relay bank [memory_{index}_{i}] and the event of its construction. *)
Definition relay_memory (self : MultiportXORMemory.t) (index i : nat) : Memory :=
  {| bank := Relay index i;
     mem_shape := MultiportXORMemory.shape self;
     mem_depth := MultiportXORMemory.depth self;
     mem_init := MultiportXORMemory.init self;
     mem_attrs := MultiportXORMemory.attrs self;
     mem_src_loc_at := MultiportXORMemory.src_loc self;
     read_transparent_for := [] |}.

Definition relay_event (self : MultiportXORMemory.t) (index i : nat) : event :=
  EvMemory (Relay index i) (MultiportXORMemory.oid self)
    (MultiportXORMemory._frozen self)
    (length (MultiportXORMemory.read_ports self))
    (length (MultiportXORMemory.write_ports self)).

(** The [read_block] of writer [index] once lines 320-326 have run: a fresh
    single-writer engine on which one write port and then one read port per
    logical read port were declared. *)
Definition built_read_block (self : MultiportXORMemory.t) (index : nat)
    : MultiReadMemory.t :=
  snd (MultiReadMemory_session
         (MultiReadMemory.__init__ (ReadBlock index)
            (MultiportXORMemory.shape self) (MultiportXORMemory.depth self)
            (MultiportXORMemory.init self) (MultiportXORMemory.attrs self)
            (MultiportXORMemory.src_loc self))
         (CallWritePort None 0%Z
            :: map (fun _ => CallReadPort [] 0%Z)
                   (MultiportXORMemory.read_ports self))).

Definition writer_submodules (self : MultiportXORMemory.t) (index : nat)
    : list (sub_name * Elaboratable) :=
  map (fun i => (memory_ index i, EMemory (relay_memory self index i)))
      (seq 0 (length (MultiportXORMemory.write_ports self) - 1))
  ++ [(read_block_ index, EMultiRead (built_read_block self index))].

Definition writer_events (self : MultiportXORMemory.t) (index : nat)
    : list event :=
  map (relay_event self index)
      (seq 0 (length (MultiportXORMemory.write_ports self) - 1)).

(** [read_xors[k]] after the first [n] writers: the anonymous signal, XORed
    in turn with read port [k] of the replicator of each writer. *)
Definition read_combination (n k : nat) : Value :=
  fold_left (fun acc i => VXor acc (VSig (PortSig (ReadBlock i) Rd k Data)))
            (seq 0 n) (VSig (LocalSig ReadXors k)).

(** XOR of a list of values. *)
Definition xor_all (vs : list Z) : Z := fold_left Z.lxor vs 0%Z.

(** Left-hand sides of the statements that the writer loop adds. *)
Definition writer_loop_lhs (s : signal) : Prop :=
  match s with
  | PhysSig (Relay _ _) _ _ => True
  | PortSig (ReadBlock _) Wr _ _ => True
  | PortSig (ReadBlock _) Rd _ En => True
  | PortSig (ReadBlock _) Rd _ Addr => True
  | _ => False
  end.

(** One state of the loops extends another: sub-modules, events and
    statements are only appended. *)
Definition extends (s s' : MultiportXORMemory.locals)
    (subs : list (sub_name * Elaboratable)) (evs : list event)
    (stmts : list Assign) : Prop :=
  submodules (MultiportXORMemory.m s')
    = submodules (MultiportXORMemory.m s) ++ subs /\
  MultiportXORMemory.log s' = MultiportXORMemory.log s ++ evs /\
  comb (MultiportXORMemory.m s') = comb (MultiportXORMemory.m s) ++ stmts.

(** The banks that writer [index] contributes: its relay banks, then the
    banks of its replicator. *)
Definition writer_banks (self : MultiportXORMemory.t) (index : nat)
    : list Memory :=
  map (relay_memory self index)
      (seq 0 (length (MultiportXORMemory.write_ports self) - 1))
  ++ banks (MultiReadMemory_design (built_read_block self index)).

Definition block_wiring (self : MultiportXORMemory.t) (index : nat)
    : list Assign :=
  wiring (MultiReadMemory_design (built_read_block self index)).

Definition block_trace (self : MultiportXORMemory.t) (index : nat)
    : list event :=
  trace (MultiReadMemory_design (built_read_block self index)).

(** The statements of lines 335-336. *)
Definition read_port_drivers (self : MultiportXORMemory.t) : list Assign :=
  imap (fun k port =>
          mkAssign (ReadPort.data port)
            (read_combination (length (MultiportXORMemory.write_ports self)) k))
       (MultiportXORMemory.read_ports self).

(** An event of bank construction that found its registry frozen. *)
Definition built_while_frozen (e : event) : Prop :=
  match e with
  | EvFreeze _ => True
  | EvMemory _ _ frozen _ _ => frozen = true
  end.

(** The six statements of a replicator [read_block_{index}] for its [k]-th
    read port, with every port named by its position. *)
Definition block_stmts (index k : nat) : list Assign :=
  let o := ReadBlock index in
  [ mkAssign (PhysSig (Replica o k) Rd Addr) (VSig (PortSig o Rd k Addr));
    mkAssign (PortSig o Rd k Data) (VSig (PhysSig (Replica o k) Rd Data));
    mkAssign (PhysSig (Replica o k) Rd En) (VSig (PortSig o Rd k En));
    mkAssign (PhysSig (Replica o k) Wr Addr) (VSig (PortSig o Wr 0 Addr));
    mkAssign (PhysSig (Replica o k) Wr Data) (VSig (PortSig o Wr 0 Data));
    mkAssign (PhysSig (Replica o k) Wr En) (VSig (PortSig o Wr 0 En)) ].

(** ** Scenario B of the specification (section 8)

    Two writers and one reader on a memory of depth 8 and width 8. *)
Definition scenario_B_calls : list call :=
  [CallWritePort None 0%Z; CallWritePort None 0%Z; CallReadPort [] 0%Z].

Definition scenario_B : MultiportXORMemory.t :=
  snd (MultiportXORMemory_session
         (MultiportXORMemory.__init__ Top 8%Z 8%Z [] None 0%Z) scenario_B_calls).

(** [write_xors[index]] after the first [n] writers, for a writer [index]
    that has not had its turn yet ([n <= index]): the anonymous signal, XORed
    in turn with the read data of the relay bank that each of the first [n]
    writers reads at writer [index]'s address. *)
Definition prior_combination (n index : nat) : Value :=
  fold_left (fun acc j => VXor (VSig (PhysSig (Relay j (index - 1)) Rd Data)) acc)
            (seq 0 n) (VSig (LocalSig WriteXors index)).

(** The expression that writer [index] commits (lines 299, 314 and 328). *)
Definition committed_value (write_port : WritePort.t) (index : nat) : Value :=
  VXor (VSig (WritePort.data write_port)) (prior_combination index index).

(** ** The [init] setter (memory.py lines 77-79 and 237-239)

    [self._init = init]: no other field changes and no phase is checked. *)
Definition MultiReadMemory_init_setter (self : MultiReadMemory.t)
    (init : list Z) : MultiReadMemory.t :=
  MultiReadMemory.mk (MultiReadMemory.oid self) (MultiReadMemory._shape self)
    (MultiReadMemory._depth self) init (MultiReadMemory._attrs self)
    (MultiReadMemory.src_loc self) (MultiReadMemory._read_ports self)
    (MultiReadMemory._write_ports self) (MultiReadMemory._frozen self).

Definition MultiportXORMemory_init_setter (self : MultiportXORMemory.t)
    (init : list Z) : MultiportXORMemory.t :=
  MultiportXORMemory.mk (MultiportXORMemory.oid self)
    (MultiportXORMemory._shape self) (MultiportXORMemory._depth self) init
    (MultiportXORMemory._attrs self) (MultiportXORMemory.src_loc self)
    (MultiportXORMemory._read_ports self) (MultiportXORMemory._write_ports self)
    (MultiportXORMemory._frozen self).

(** ** Reference memory

    One synchronous memory of [depth] rows with a single write port and any
    number of clocked read ports, driven by the client's signals on write
    port [w] and on the read ports of the engine: the rows at the start of
    cycle [n], and the value on the [data] of read port [k] in cycle [n]. *)
Fixpoint ref_contents (w : nat) (depth : Z) (init : list Z)
    (tb : nat -> signal -> Z) (n : nat) : list Z :=
  match n with
  | O => take (Z.to_nat depth) (init ++ replicate (Z.to_nat depth) 0%Z)
  | S n =>
    let rows := ref_contents w depth init tb n in
    if enabled (tb n (PortSig Top Wr w En))
    then store rows (tb n (PortSig Top Wr w Addr)) (tb n (PortSig Top Wr w Data))
    else rows
  end.

Fixpoint ref_read (w : nat) (depth : Z) (init : list Z)
    (tb : nat -> signal -> Z) (k : nat) (n : nat) : Z :=
  match n with
  | O => 0%Z
  | S n =>
    if enabled (tb n (PortSig Top Rd k En))
    then load (ref_contents w depth init tb n) (tb n (PortSig Top Rd k Addr))
    else ref_read w depth init tb k n
  end.

(** What a port records about the engine it was declared on. *)
Definition read_port_records (shape : ShapeLike) (depth : Z) (init : list Z)
    (p : ReadPort.t) : Prop :=
  ReadPort.width p = shape /\ ReadPort.depth p = depth /\
  ReadPort.init p = init /\ ReadPort.addr_width p = bits_for (depth - 1).

Definition write_port_records (shape : ShapeLike) (depth : Z) (init : list Z)
    (p : WritePort.t) : Prop :=
  WritePort.width p = shape /\ WritePort.depth p = depth /\
  WritePort.init p = init /\ WritePort.addr_width p = bits_for (depth - 1).

(** What a primitive bank is constructed with. *)
Definition bank_configured (shape : ShapeLike) (depth : Z) (init : list Z)
    (attrs : Attrs) (loc : Z) (mem : Memory) : Prop :=
  mem_shape mem = shape /\ mem_depth mem = depth /\ mem_init mem = init /\
  mem_attrs mem = attrs /\ mem_src_loc_at mem = loc.

(** ** The netlist of MultiportXORMemory, by numbers of ports

    With the ports of the engine named by position, the statements that
    [elaborate] and the elaboration of the replicators add depend on the
    numbers [W] and [R] of declared ports only. *)

(** The writer whose address relay bank [memory_{index}_{i}] is read at
    (line 310): [i] itself before the loop has passed [index], [i + 1]
    after. *)
Definition relay_target (index i : nat) : nat :=
  if decide (index <= i)%nat then (i + 1)%nat else i.

(** What writer [index] commits, lines 299, 314 and 328. *)
Definition commit (index : nat) : Value :=
  VXor (VSig (PortSig Top Wr index Data)) (prior_combination index index).

(** Lines 313-318 for relay bank [memory_{index}_{i}]. *)
Definition relay_stmts (index i : nat) : list Assign :=
  let b := Relay index i in
  [ mkAssign (PhysSig b Wr Addr) (VSig (PortSig Top Wr index Addr));
    mkAssign (PhysSig b Wr Data) (commit index);
    mkAssign (PhysSig b Wr En) (VSig (PortSig Top Wr index En));
    mkAssign (PhysSig b Rd En) (VConst 1);
    mkAssign (PhysSig b Rd Addr)
      (VSig (PortSig Top Wr (relay_target index i) Addr)) ].

(** Lines 327-329 for [read_block_{index}]. *)
Definition block_write_stmts (index : nat) : list Assign :=
  let o := ReadBlock index in
  [ mkAssign (PortSig o Wr 0 Addr) (VSig (PortSig Top Wr index Addr));
    mkAssign (PortSig o Wr 0 Data) (commit index);
    mkAssign (PortSig o Wr 0 En) (VSig (PortSig Top Wr index En)) ].

(** Lines 332-333 for read port [k] of [read_block_{index}]. *)
Definition fan_stmts (index k : nat) : list Assign :=
  let o := ReadBlock index in
  [ mkAssign (PortSig o Rd k Addr) (VSig (PortSig Top Rd k Addr));
    mkAssign (PortSig o Rd k En) (VConst 1) ].

(** One iteration of the writer loop. *)
Definition writer_stmts (W R index : nat) : list Assign :=
  concat (map (relay_stmts index) (seq 0 (W - 1)))
  ++ block_write_stmts index
  ++ concat (map (fan_stmts index) (seq 0 R)).

(** Lines 335-336 for read port [k]. *)
Definition read_driver_stmt (W k : nat) : Assign :=
  mkAssign (PortSig Top Rd k Data) (read_combination W k).

(** All statements of the hierarchy, in order: the module of the engine,
    then the modules of the replicators. *)
Definition netlist (W R : nat) : list Assign :=
  (concat (map (writer_stmts W R) (seq 0 W))
   ++ map (read_driver_stmt W) (seq 0 R))
  ++ concat (map (fun index => concat (map (block_stmts index) (seq 0 R)))
                 (seq 0 W)).

(** The same as a table: what drives a signal, if anything does. *)
Definition netlist_driver (W R : nat) (s : signal) : option Value :=
  match s with
  | PhysSig (Relay index i) d f =>
    if decide (index < W /\ i < W - 1)%nat then
      match d, f with
      | Wr, Addr => Some (VSig (PortSig Top Wr index Addr))
      | Wr, Data => Some (commit index)
      | Wr, En => Some (VSig (PortSig Top Wr index En))
      | Rd, En => Some (VConst 1)
      | Rd, Addr => Some (VSig (PortSig Top Wr (relay_target index i) Addr))
      | Rd, Data => None
      end
    else None
  | PhysSig (Replica (ReadBlock index) k) d f =>
    if decide (index < W /\ k < R)%nat then
      match d, f with
      | Rd, Data => None
      | Rd, _ => Some (VSig (PortSig (ReadBlock index) Rd k f))
      | Wr, _ => Some (VSig (PortSig (ReadBlock index) Wr 0 f))
      end
    else None
  | PhysSig (Replica Top _) _ _ => None
  | PortSig (ReadBlock index) Wr k f =>
    if decide (index < W /\ k = 0)%nat then
      match f with
      | Addr => Some (VSig (PortSig Top Wr index Addr))
      | Data => Some (commit index)
      | En => Some (VSig (PortSig Top Wr index En))
      end
    else None
  | PortSig (ReadBlock index) Rd k f =>
    if decide (index < W /\ k < R)%nat then
      match f with
      | Addr => Some (VSig (PortSig Top Rd k Addr))
      | En => Some (VConst 1)
      | Data => Some (VSig (PhysSig (Replica (ReadBlock index) k) Rd Data))
      end
    else None
  | PortSig Top Rd k Data =>
    if decide (k < R)%nat then Some (read_combination W k) else None
  | PortSig Top _ _ _ => None
  | LocalSig _ _ => None
  end.

(** ** One cycle of the multi-writer hierarchy, by bank *)

(** The banks of a hierarchy with [W] writers and [R] readers. *)
Definition xor_bank (W R : nat) (b : bank_id) : Prop :=
  match b with
  | Relay index i => (index < W /\ i < W - 1)%nat
  | Replica (ReadBlock index) k => (index < W /\ k < R)%nat
  | Replica Top _ => False
  end.

(** The writer whose loop iteration created a bank. *)
Definition bank_writer (b : bank_id) : nat :=
  match b with
  | Relay index _ => index
  | Replica (ReadBlock index) _ => index
  | Replica Top _ => 0%nat
  end.

(** The client signal that addresses the read port of a bank. *)
Definition bank_read_addr (b : bank_id) : signal :=
  match b with
  | Relay index i => PortSig Top Wr (relay_target index i) Addr
  | Replica _ k => PortSig Top Rd k Addr
  end.

(** The value of [commit index] in a cycle: the client's data XORed with the
    read registers of relay bank [index - 1] of every earlier writer. *)
Definition commit_value (tb : signal -> Z) (st : bank_id -> bank_state)
    (index : nat) : Z :=
  Z.lxor (tb (PortSig Top Wr index Data))
    (xor_all (map (fun j => rdata (st (Relay j (index - 1)))) (seq 0 index))).

Definition xor_bank_step (tb : signal -> Z) (st : bank_id -> bank_state)
    (b : bank_id) : bank_state :=
  let index := bank_writer b in
  {| contents :=
       if enabled (tb (PortSig Top Wr index En))
       then store (contents (st b)) (tb (PortSig Top Wr index Addr))
              (commit_value tb st index)
       else contents (st b);
     rdata := load (contents (st b)) (tb (bank_read_addr b)) |}.

(** The rows of a bank after reset. *)
Definition reset_rows (depth : Z) (init : list Z) : list Z :=
  take (Z.to_nat depth) (init ++ replicate (Z.to_nat depth) 0%Z).

(** A client that differs from [tb] on the [en] of the logical read ports
    only, where it drives [e t k] in cycle [t] on read port [k]. *)
Definition with_read_en (tb : nat -> signal -> Z) (e : nat -> nat -> Z)
    : nat -> signal -> Z :=
  fun t s =>
    match s with
    | PortSig Top Rd k En => e t k
    | _ => tb t s
    end.

(** No write port of the first [W] is enabled in cycle [t]. *)
Definition no_write (W : nat) (tb : nat -> signal -> Z) (t : nat) : Prop :=
  forall index, (index < W)%nat -> enabled (tb t (PortSig Top Wr index En)) = false.

(** Every read port of the engine was declared with an empty
    [transparent_for], the default of [read_port] (line 101). *)
Definition plain_read_ports (self : MultiReadMemory.t) : Prop :=
  Forall (fun p => ReadPort.transparent_for p = [])
         (MultiReadMemory.read_ports self).

(** * Properties *)

(** ** Address width *)

Lemma bits_for_pred_depth (depth : Z) :
  (2 <= depth)%Z -> bits_for (depth - 1) = Z.log2_up depth.
Proof.
  intros Hd. unfold bits_for, ceil_log2, bit_length.
  assert (H1 : (0 <? depth - 1)%Z = true) by (apply Z.ltb_lt; lia).
  rewrite H1.
  replace (depth - 1 + 1)%Z with depth by lia.
  assert (H2 : (depth =? 0)%Z = false) by (apply Z.eqb_neq; lia).
  assert (H3 : (depth - 1 =? 0)%Z = false) by (apply Z.eqb_neq; lia).
  rewrite H2, H3.
  rewrite Z.abs_eq by lia.
  unfold Z.log2_up.
  assert (H4 : (1 ?= depth)%Z = Lt) by (apply Z.compare_lt_iff; lia).
  rewrite H4. unfold Z.pred, Z.succ. replace (depth + -1)%Z with (depth - 1)%Z by lia.
  reflexivity.
Qed.

Lemma bits_for_zero : bits_for 0 = 1%Z.
Proof. reflexivity. Qed.

(** The values the library documents: a sign bit for negatives, and one bit
    for 0. *)
Example bits_for_values :
  map bits_for [(-4)%Z; (-3)%Z; (-2)%Z; (-1)%Z; 0%Z; 1%Z; 2%Z; 3%Z; 4%Z]
  = [3%Z; 3%Z; 2%Z; 1%Z; 1%Z; 1%Z; 2%Z; 2%Z; 3%Z].
Proof. reflexivity. Qed.

Lemma port_addr_width (depth : Z) :
  (0 < depth)%Z -> bits_for (depth - 1) = Z.max 1 (Z.log2_up depth).
Proof.
  intros Hd. destruct (decide (depth = 1%Z)) as [-> | Hne].
  - reflexivity.
  - rewrite bits_for_pred_depth by lia.
    assert (0 < Z.log2_up depth)%Z by (apply Z.log2_up_pos; lia). lia.
Qed.

(** ** The registry: phases and declaration order *)

Lemma read_handles_cons r outs :
  read_handles (r :: outs) = read_handles [r] ++ read_handles outs.
Proof. unfold read_handles. simpl. destruct r as [[]|]; reflexivity. Qed.

Lemma write_handles_cons r outs :
  write_handles (r :: outs) = write_handles [r] ++ write_handles outs.
Proof. unfold write_handles. simpl. destruct r as [[]|]; reflexivity. Qed.

Section Registry.
Import MultiReadMemory.

Lemma single_call_frozen self c :
  _frozen self = true -> _frozen (snd (MultiReadMemory_call self c)) = true.
Proof.
  intros Hf. destruct c; simpl.
  - unfold read_port. rewrite Hf. exact Hf.
  - unfold write_port. rewrite Hf. exact Hf.
  - unfold elaborate. destruct (write_ports _); [reflexivity |].
    destruct (elaborate_ports _ _ _ _). reflexivity.
Qed.

Lemma single_elaborate_frozen self :
  _frozen (snd (MultiReadMemory_call self CallElaborate)) = true.
Proof.
  simpl. unfold elaborate. destruct (write_ports _); [reflexivity |].
  destruct (elaborate_ports _ _ _ _). reflexivity.
Qed.

Lemma single_call_open self c :
  declares c -> _frozen self = false ->
  _frozen (snd (MultiReadMemory_call self c)) = false.
Proof.
  intros Hd Hf. destruct c; simpl; [| | destruct Hd].
  - unfold read_port. rewrite Hf. exact Hf.
  - unfold write_port. rewrite Hf. destruct (write_ports self); exact Hf.
Qed.

Lemma single_frozen_rejects self c :
  declares c -> _frozen self = true ->
  fst (MultiReadMemory_call self c) = Raise AlreadyElaborated.
Proof.
  intros Hd Hf. destruct c; simpl; [| | destruct Hd].
  - unfold read_port. rewrite Hf. reflexivity.
  - unfold write_port. rewrite Hf. reflexivity.
Qed.

Lemma single_session_cons self c cs :
  MultiReadMemory_session self (c :: cs) =
  (fst (MultiReadMemory_call self c)
     :: fst (MultiReadMemory_session (snd (MultiReadMemory_call self c)) cs),
   snd (MultiReadMemory_session (snd (MultiReadMemory_call self c)) cs)).
Proof.
  simpl. destruct (MultiReadMemory_call self c) as [r s1]. simpl.
  destruct (MultiReadMemory_session s1 cs). reflexivity.
Qed.

Lemma single_session_app self cs1 cs2 :
  snd (MultiReadMemory_session self (cs1 ++ cs2)) =
  snd (MultiReadMemory_session (snd (MultiReadMemory_session self cs1)) cs2).
Proof.
  revert self. induction cs1 as [| c cs1 IH]; intros self; [reflexivity |].
  rewrite <- app_comm_cons, !single_session_cons. simpl. apply IH.
Qed.

Lemma single_session_frozen self cs :
  _frozen self = true ->
  _frozen (snd (MultiReadMemory_session self cs)) = true.
Proof.
  revert self. induction cs as [| c cs IH]; intros self Hf; [exact Hf |].
  rewrite single_session_cons. simpl. apply IH, single_call_frozen, Hf.
Qed.

Lemma single_session_open self cs :
  Forall declares cs -> _frozen self = false ->
  _frozen (snd (MultiReadMemory_session self cs)) = false.
Proof.
  intros Hcs. revert self.
  induction Hcs as [| c cs Hc _ IH]; intros self Hf; [exact Hf |].
  rewrite single_session_cons. simpl. apply IH, single_call_open; assumption.
Qed.

Lemma single_call_ports self c :
  read_ports (snd (MultiReadMemory_call self c)) =
    read_ports self ++ read_handles [fst (MultiReadMemory_call self c)] /\
  write_ports (snd (MultiReadMemory_call self c)) =
    write_ports self ++ write_handles [fst (MultiReadMemory_call self c)].
Proof.
  destruct c; simpl.
  - unfold read_port. destruct (_frozen self); simpl.
    + rewrite !app_nil_r. split; reflexivity.
    + rewrite app_nil_r. split; reflexivity.
  - unfold write_port. destruct (_frozen self); simpl.
    + rewrite !app_nil_r. split; reflexivity.
    + unfold write_ports, read_ports.
      destruct (_write_ports self) eqn:E; simpl;
        rewrite ?E, ?app_nil_r; split; reflexivity.
  - unfold elaborate. destruct (write_ports (set_frozen self true)).
    + simpl. rewrite !app_nil_r. split; reflexivity.
    + destruct (elaborate_ports _ _ _ _). simpl.
      rewrite !app_nil_r. split; reflexivity.
Qed.

Lemma single_session_ports self cs :
  read_ports (snd (MultiReadMemory_session self cs)) =
    read_ports self ++ read_handles (fst (MultiReadMemory_session self cs)) /\
  write_ports (snd (MultiReadMemory_session self cs)) =
    write_ports self ++ write_handles (fst (MultiReadMemory_session self cs)).
Proof.
  revert self. induction cs as [| c cs IH]; intros self.
  - simpl. rewrite !app_nil_r. split; reflexivity.
  - rewrite single_session_cons. simpl fst. simpl snd.
    destruct (IH (snd (MultiReadMemory_call self c))) as [IHr IHw].
    destruct (single_call_ports self c) as [Hr Hw].
    rewrite IHr, IHw, Hr, Hw, <- !app_assoc.
    rewrite <- read_handles_cons, <- write_handles_cons. split; reflexivity.
Qed.
End Registry.

Lemma bind_Ok {A B} (c : result A) (k : A -> result B) (b : B) :
  bind c k = Ok b -> exists a, c = Ok a /\ k a = Ok b.
Proof. destruct c as [a | e]; simpl; [eauto | discriminate]. Qed.

Section RegistryXor.
Import MultiportXORMemory.

Lemma xor_elaborate_self self self' m l :
  elaborate self = Ok (self', m, l) -> self' = set_frozen self true.
Proof.
  unfold elaborate. intros H.
  apply bind_Ok in H as (s1 & _ & H).
  apply bind_Ok in H as (s2 & _ & H).
  congruence.
Qed.

Lemma xor_elaborate_call self :
  snd (MultiportXORMemory_call self CallElaborate) = set_frozen self true.
Proof.
  simpl. destruct (elaborate self) as [[[s' m'] l] | e] eqn:E; [| reflexivity].
  simpl. eapply xor_elaborate_self, E.
Qed.

Lemma xor_call_frozen self c :
  _frozen self = true -> _frozen (snd (MultiportXORMemory_call self c)) = true.
Proof.
  intros Hf. destruct c.
  - simpl. unfold read_port. rewrite Hf. exact Hf.
  - simpl. unfold write_port. rewrite Hf. exact Hf.
  - rewrite xor_elaborate_call. reflexivity.
Qed.

Lemma xor_call_open self c :
  declares c -> _frozen self = false ->
  _frozen (snd (MultiportXORMemory_call self c)) = false.
Proof.
  intros Hd Hf. destruct c; simpl; [| | destruct Hd].
  - unfold read_port. rewrite Hf. exact Hf.
  - unfold write_port. rewrite Hf. exact Hf.
Qed.

Lemma xor_frozen_rejects self c :
  declares c -> _frozen self = true ->
  fst (MultiportXORMemory_call self c) = Raise AlreadyElaborated.
Proof.
  intros Hd Hf. destruct c; simpl; [| | destruct Hd].
  - unfold read_port. rewrite Hf. reflexivity.
  - unfold write_port. rewrite Hf. reflexivity.
Qed.

Lemma xor_session_cons self c cs :
  MultiportXORMemory_session self (c :: cs) =
  (fst (MultiportXORMemory_call self c)
     :: fst (MultiportXORMemory_session (snd (MultiportXORMemory_call self c)) cs),
   snd (MultiportXORMemory_session (snd (MultiportXORMemory_call self c)) cs)).
Proof.
  simpl. destruct (MultiportXORMemory_call self c) as [r s1]. simpl.
  destruct (MultiportXORMemory_session s1 cs). reflexivity.
Qed.

Lemma xor_session_app self cs1 cs2 :
  snd (MultiportXORMemory_session self (cs1 ++ cs2)) =
  snd (MultiportXORMemory_session (snd (MultiportXORMemory_session self cs1)) cs2).
Proof.
  revert self. induction cs1 as [| c cs1 IH]; intros self; [reflexivity |].
  rewrite <- app_comm_cons, !xor_session_cons. simpl. apply IH.
Qed.

Lemma xor_session_frozen self cs :
  _frozen self = true ->
  _frozen (snd (MultiportXORMemory_session self cs)) = true.
Proof.
  revert self. induction cs as [| c cs IH]; intros self Hf; [exact Hf |].
  rewrite xor_session_cons. simpl. apply IH, xor_call_frozen, Hf.
Qed.

Lemma xor_session_open self cs :
  Forall declares cs -> _frozen self = false ->
  _frozen (snd (MultiportXORMemory_session self cs)) = false.
Proof.
  intros Hcs. revert self.
  induction Hcs as [| c cs Hc _ IH]; intros self Hf; [exact Hf |].
  rewrite xor_session_cons. simpl. apply IH, xor_call_open; assumption.
Qed.

Lemma xor_call_ports self c :
  read_ports (snd (MultiportXORMemory_call self c)) =
    read_ports self ++ read_handles [fst (MultiportXORMemory_call self c)] /\
  write_ports (snd (MultiportXORMemory_call self c)) =
    write_ports self ++ write_handles [fst (MultiportXORMemory_call self c)].
Proof.
  destruct c.
  - simpl. unfold read_port. destruct (_frozen self); simpl;
      rewrite ?app_nil_r; split; reflexivity.
  - simpl. unfold write_port. destruct (_frozen self); simpl;
      rewrite ?app_nil_r; split; reflexivity.
  - rewrite xor_elaborate_call. simpl.
    destruct (elaborate self) as [[[s' m'] l] | e]; simpl;
      rewrite !app_nil_r; split; reflexivity.
Qed.

Lemma xor_session_ports self cs :
  read_ports (snd (MultiportXORMemory_session self cs)) =
    read_ports self ++ read_handles (fst (MultiportXORMemory_session self cs)) /\
  write_ports (snd (MultiportXORMemory_session self cs)) =
    write_ports self ++ write_handles (fst (MultiportXORMemory_session self cs)).
Proof.
  revert self. induction cs as [| c cs IH]; intros self.
  - simpl. rewrite !app_nil_r. split; reflexivity.
  - rewrite xor_session_cons. simpl fst. simpl snd.
    destruct (IH (snd (MultiportXORMemory_call self c))) as [IHr IHw].
    destruct (xor_call_ports self c) as [Hr Hw].
    rewrite IHr, IHw, Hr, Hw, <- !app_assoc.
    rewrite <- read_handles_cons, <- write_handles_cons. split; reflexivity.
Qed.
End RegistryXor.

(** ** Construction and declaration *)

(** C8 (as stated, refuted): an engine constructed with depth 0 exists, and
    its depth is not positive; [__init__] raises nothing. *)
Lemma construction_accepts_depth_zero :
  MultiReadMemory.depth (MultiReadMemory.__init__ Top 8%Z 0%Z [] None 0%Z) = 0%Z /\
  MultiportXORMemory.depth (MultiportXORMemory.__init__ Top 8%Z 0%Z [] None 0%Z) = 0%Z /\
  ~ (0 < MultiReadMemory.depth (MultiReadMemory.__init__ Top 8%Z 0%Z [] None 0%Z))%Z /\
  ~ (0 < MultiportXORMemory.depth (MultiportXORMemory.__init__ Top 8%Z 0%Z [] None 0%Z))%Z.
Proof. repeat split; simpl; lia. Qed.

(** C8 (amended): construction performs no validation.  For every depth,
    positive or not, either constructor returns an engine that stores the
    given depth unchanged, with an open and empty registry; so [depth > 0]
    holds for a constructed engine exactly when the caller passed a positive
    depth. *)
Theorem construction_stores_depth :
  forall (o : obj_id) (shape : ShapeLike) (depth : Z) (init : list Z)
         (attrs : Attrs) (loc : Z),
    let r := MultiReadMemory.__init__ o shape depth init attrs loc in
    let x := MultiportXORMemory.__init__ o shape depth init attrs loc in
    MultiReadMemory.depth r = depth /\
    MultiportXORMemory.depth x = depth /\
    MultiReadMemory._frozen r = false /\
    MultiportXORMemory._frozen x = false /\
    MultiReadMemory.read_ports r = [] /\
    MultiReadMemory.write_ports r = [] /\
    MultiportXORMemory.read_ports x = [] /\
    MultiportXORMemory.write_ports x = [] /\
    ((0 < MultiReadMemory.depth r)%Z <-> (0 < depth)%Z) /\
    ((0 < MultiportXORMemory.depth x)%Z <-> (0 < depth)%Z).
Proof. intros. subst r x. simpl. repeat split; auto. Qed.

(** C7 (as stated, refuted): at depth 1 a created port has address width 1,
    while ceil(log2(1)) is 0. *)
Lemma address_width_at_depth_one :
  exists p self',
    MultiReadMemory.read_port
      (MultiReadMemory.__init__ Top 8%Z 1%Z [] None 0%Z) [] 0%Z = Ok (p, self') /\
    ReadPort.addr_width p = 1%Z /\
    Z.log2_up 1 = 0%Z /\
    ReadPort.addr_width p <> Z.log2_up 1.
Proof.
  eexists _, _. split; [reflexivity |]. simpl. repeat split. discriminate.
Qed.

(** C7 (amended): for every depth > 0, every read and write access point
    created through either engine has address width [bits_for (depth - 1)],
    which is max(1, ceil(log2(depth))): ceil(log2(depth)) for every depth of
    at least 2, and 1 (not 0) at the boundary depth 1. *)
Theorem port_address_width :
  forall (depth : Z) (r : MultiReadMemory.t) (x : MultiportXORMemory.t)
         (tf : list Any) (g : option Z) (loc : Z),
    (0 < depth)%Z ->
    MultiReadMemory.depth r = depth ->
    MultiportXORMemory.depth x = depth ->
    (forall p r', MultiReadMemory.read_port r tf loc = Ok (p, r') ->
       ReadPort.addr_width p = Z.max 1 (Z.log2_up depth)) /\
    (forall p r', MultiReadMemory.write_port r g loc = Ok (p, r') ->
       WritePort.addr_width p = Z.max 1 (Z.log2_up depth)) /\
    (forall p x', MultiportXORMemory.read_port x tf loc = Ok (p, x') ->
       ReadPort.addr_width p = Z.max 1 (Z.log2_up depth)) /\
    (forall p x', MultiportXORMemory.write_port x g loc = Ok (p, x') ->
       WritePort.addr_width p = Z.max 1 (Z.log2_up depth)) /\
    ((2 <= depth)%Z -> Z.max 1 (Z.log2_up depth) = Z.log2_up depth) /\
    (depth = 1%Z -> Z.max 1 (Z.log2_up depth) = 1%Z).
Proof.
  intros depth r x tf g loc Hd Hr Hx.
  pose proof (port_addr_width depth Hd) as Hw.
  repeat split.
  - intros p r'. unfold MultiReadMemory.read_port.
    destruct (MultiReadMemory._frozen r); [discriminate |].
    simpl. intros [= <- _]. simpl. rewrite Hr. exact Hw.
  - intros p r'. unfold MultiReadMemory.write_port.
    destruct (MultiReadMemory._frozen r); [discriminate |].
    destruct (MultiReadMemory.write_ports r); [| discriminate].
    simpl. intros [= <- _]. simpl. rewrite Hr. exact Hw.
  - intros p x'. unfold MultiportXORMemory.read_port.
    destruct (MultiportXORMemory._frozen x); [discriminate |].
    simpl. intros [= <- _]. simpl. rewrite Hx. exact Hw.
  - intros p x'. unfold MultiportXORMemory.write_port.
    destruct (MultiportXORMemory._frozen x); [discriminate |].
    simpl. intros [= <- _]. simpl. rewrite Hx. exact Hw.
  - intros H2. assert (0 < Z.log2_up depth)%Z by (apply Z.log2_up_pos; lia). lia.
  - intros ->. reflexivity.
Qed.

(** At depth 4 a read port gets two address bits. *)
Lemma port_address_width_witness :
  (0 < 4)%Z /\
  ReadPort.addr_width
    (fst (ReadPort.__init__ Top [] 8%Z 4%Z [] [] 1%Z)) = Z.max 1 (Z.log2_up 4) /\
  Z.max 1 (Z.log2_up 4) = Z.log2_up 4.
Proof.
  split; [reflexivity |].
  pose proof (port_address_width 4%Z
                (MultiReadMemory.__init__ Top 8%Z 4%Z [] None 0%Z)
                (MultiportXORMemory.__init__ Top 8%Z 4%Z [] None 0%Z)
                [] None 0%Z eq_refl eq_refl eq_refl)
    as (H1 & _ & _ & _ & H5 & _).
  split.
  - exact (H1 _ _ eq_refl).
  - apply H5. discriminate.
Defined.

(** C6: on the single-writer engine with an open registry, a write-port
    request is granted when no write port exists yet, whatever read ports
    have been declared, and the registry then holds exactly that port; every
    request made while a write port exists, and so every second request,
    raises [MultipleWritePorts], again whatever the read ports are. *)
Theorem second_write_port_rejected :
  forall (self : MultiReadMemory.t) (g : option Z) (loc : Z),
    MultiReadMemory._frozen self = false ->
    match MultiReadMemory.write_ports self with
    | [] =>
      exists p self',
        MultiReadMemory.write_port self g loc = Ok (p, self') /\
        MultiReadMemory.write_ports self' = [p] /\
        MultiReadMemory.read_ports self' = MultiReadMemory.read_ports self /\
        MultiReadMemory._frozen self' = false /\
        forall g' loc',
          MultiReadMemory.write_port self' g' loc' = Raise MultipleWritePorts
    | _ :: _ =>
      MultiReadMemory.write_port self g loc = Raise MultipleWritePorts
    end.
Proof.
  intros self g loc Hf.
  destruct (MultiReadMemory.write_ports self) as [| w ws] eqn:Hw.
  - unfold MultiReadMemory.write_port. rewrite Hf, Hw.
    unfold MultiReadMemory.write_ports in Hw. simpl. rewrite Hw.
    eexists _, _. split; [reflexivity |]. simpl.
    repeat split; [exact Hf |].
    intros g' loc'. unfold MultiReadMemory.write_port. simpl. rewrite Hf.
    reflexivity.
  - unfold MultiReadMemory.write_port. rewrite Hf, Hw. reflexivity.
Qed.

(** A second write port after two read ports and one write port. *)
Lemma second_write_port_rejected_witness :
  MultiReadMemory.write_port
    (snd (MultiReadMemory_session (MultiReadMemory.__init__ Top 8%Z 4%Z [] None 0%Z)
            [CallReadPort [] 0%Z; CallWritePort None 0%Z; CallReadPort [] 0%Z]))
    None 0%Z = Raise MultipleWritePorts.
Proof.
  exact (second_write_port_rejected
           (snd (MultiReadMemory_session
                   (MultiReadMemory.__init__ Top 8%Z 4%Z [] None 0%Z)
                   [CallReadPort [] 0%Z; CallWritePort None 0%Z; CallReadPort [] 0%Z]))
           None 0%Z eq_refl).
Defined.

(** C5 (as stated, refuted): on the single-writer engine a second write-port
    declaration made before any build does not succeed. *)
Lemma declaration_before_build_can_fail :
  fst (MultiReadMemory_session (MultiReadMemory.__init__ Top 8%Z 4%Z [] None 0%Z)
         [CallWritePort None 0%Z; CallWritePort None 0%Z]) !! 1%nat
  = Some (Raise MultipleWritePorts).
Proof. reflexivity. Qed.

(** C5 (amended): for both engines, every port declaration made after
    [elaborate] raises [AlreadyElaborated].  Before [elaborate], every
    read-port declaration succeeds on both engines and every write-port
    declaration succeeds on the multi-writer engine; on the single-writer
    engine a write-port declaration succeeds when no write port exists yet.
    A successful declaration appends its handle to the end of [read_ports]
    or [write_ports] and changes nothing else, so at any time the two
    sequences are the handles handed out so far, in declaration order. *)
Theorem declaration_lifecycle :
  forall (shape : ShapeLike) (depth : Z) (init : list Z) (attrs : Attrs)
         (loc : Z),
    let r0 := MultiReadMemory.__init__ Top shape depth init attrs loc in
    let x0 := MultiportXORMemory.__init__ Top shape depth init attrs loc in
    (forall cs1 cs2 c, declares c ->
       fst (MultiReadMemory_call
              (snd (MultiReadMemory_session r0 (cs1 ++ CallElaborate :: cs2))) c)
         = Raise AlreadyElaborated /\
       fst (MultiportXORMemory_call
              (snd (MultiportXORMemory_session x0 (cs1 ++ CallElaborate :: cs2))) c)
         = Raise AlreadyElaborated) /\
    (forall cs tf g l, Forall declares cs ->
       let r := snd (MultiReadMemory_session r0 cs) in
       let x := snd (MultiportXORMemory_session x0 cs) in
       (exists p r',
          MultiReadMemory.read_port r tf l = Ok (p, r') /\
          MultiReadMemory.read_ports r' = MultiReadMemory.read_ports r ++ [p] /\
          MultiReadMemory.write_ports r' = MultiReadMemory.write_ports r) /\
       (exists p x',
          MultiportXORMemory.read_port x tf l = Ok (p, x') /\
          MultiportXORMemory.read_ports x' = MultiportXORMemory.read_ports x ++ [p] /\
          MultiportXORMemory.write_ports x' = MultiportXORMemory.write_ports x) /\
       (exists p x',
          MultiportXORMemory.write_port x g l = Ok (p, x') /\
          MultiportXORMemory.write_ports x' = MultiportXORMemory.write_ports x ++ [p] /\
          MultiportXORMemory.read_ports x' = MultiportXORMemory.read_ports x) /\
       (MultiReadMemory.write_ports r = [] ->
        exists p r',
          MultiReadMemory.write_port r g l = Ok (p, r') /\
          MultiReadMemory.write_ports r' = MultiReadMemory.write_ports r ++ [p] /\
          MultiReadMemory.read_ports r' = MultiReadMemory.read_ports r)) /\
    (forall cs,
       MultiReadMemory.read_ports (snd (MultiReadMemory_session r0 cs))
         = read_handles (fst (MultiReadMemory_session r0 cs)) /\
       MultiReadMemory.write_ports (snd (MultiReadMemory_session r0 cs))
         = write_handles (fst (MultiReadMemory_session r0 cs)) /\
       MultiportXORMemory.read_ports (snd (MultiportXORMemory_session x0 cs))
         = read_handles (fst (MultiportXORMemory_session x0 cs)) /\
       MultiportXORMemory.write_ports (snd (MultiportXORMemory_session x0 cs))
         = write_handles (fst (MultiportXORMemory_session x0 cs))).
Proof.
  intros shape depth init attrs loc r0 x0. split; [| split].
  - intros cs1 cs2 c Hc. split.
    + apply single_frozen_rejects; [exact Hc |].
      rewrite single_session_app, single_session_cons. cbn [snd].
      apply single_session_frozen, single_elaborate_frozen.
    + apply xor_frozen_rejects; [exact Hc |].
      rewrite xor_session_app, xor_session_cons. cbn [snd].
      apply xor_session_frozen. rewrite xor_elaborate_call. reflexivity.
  - intros cs tf g l Hcs r x.
    assert (Hr : MultiReadMemory._frozen r = false)
      by (apply single_session_open; [exact Hcs | reflexivity]).
    assert (Hx : MultiportXORMemory._frozen x = false)
      by (apply xor_session_open; [exact Hcs | reflexivity]).
    split; [| split; [| split]].
    + unfold MultiReadMemory.read_port. rewrite Hr. simpl.
      eexists _, _. split; [reflexivity |]. split; reflexivity.
    + unfold MultiportXORMemory.read_port. rewrite Hx. simpl.
      eexists _, _. split; [reflexivity |]. split; reflexivity.
    + unfold MultiportXORMemory.write_port. rewrite Hx. simpl.
      eexists _, _. split; [reflexivity |]. split; reflexivity.
    + intros Hw. unfold MultiReadMemory.write_port. rewrite Hr, Hw.
      unfold MultiReadMemory.write_ports in Hw. simpl. rewrite Hw.
      eexists _, _. split; [reflexivity |]. simpl. split; reflexivity.
  - intros cs.
    destruct (single_session_ports r0 cs) as [H1 H2].
    destruct (xor_session_ports x0 cs) as [H3 H4].
    repeat split; assumption.
Qed.

(** A write port requested after [elaborate], and the first write port
    requested before it. *)
Lemma declaration_lifecycle_witness :
  fst (MultiReadMemory_call
         (snd (MultiReadMemory_session
                 (MultiReadMemory.__init__ Top 8%Z 4%Z [] None 0%Z)
                 ([CallReadPort [] 0%Z] ++ CallElaborate :: []))) (CallWritePort None 0%Z))
    = Raise AlreadyElaborated /\
  exists p r',
    MultiReadMemory.write_port
      (snd (MultiReadMemory_session
              (MultiReadMemory.__init__ Top 8%Z 4%Z [] None 0%Z)
              [CallReadPort [] 0%Z])) None 0%Z = Ok (p, r') /\
    MultiReadMemory.write_ports r' = [] ++ [p] /\
    MultiReadMemory.read_ports r' =
      MultiReadMemory.read_ports
        (snd (MultiReadMemory_session
                (MultiReadMemory.__init__ Top 8%Z 4%Z [] None 0%Z)
                [CallReadPort [] 0%Z])).
Proof.
  pose proof (declaration_lifecycle 8%Z 4%Z [] None 0%Z) as (H1 & H2 & _).
  split.
  - exact (proj1 (H1 [CallReadPort [] 0%Z] [] (CallWritePort None 0%Z) I)).
  - assert (Hcs : Forall declares [CallReadPort [] 0%Z])
      by (constructor; [exact I | constructor]).
    destruct (H2 [CallReadPort [] 0%Z] [] None 0%Z Hcs) as (_ & _ & _ & H).
    exact (H eq_refl).
Defined.

(** ** Drivers *)

Lemma driver_unique (stmts : list Assign) (s : signal) (v : Value) :
  mkAssign s v ∈ stmts ->
  (forall a, a ∈ stmts -> lhs a = s -> a = mkAssign s v) ->
  driver stmts s = Some v.
Proof.
  unfold driver. induction stmts as [| a stmts IH]; intros Hin Huniq.
  - inversion Hin.
  - simpl. destruct (bool_decide (lhs a = s)) eqn:E.
    + apply bool_decide_eq_true in E.
      rewrite (Huniq a (list_elem_of_here _ _) E). reflexivity.
    + apply bool_decide_eq_false in E.
      apply IH.
      * apply elem_of_cons in Hin as [<- | Hin]; [| exact Hin].
        simpl in E. congruence.
      * intros a' Ha'. apply Huniq. apply list_elem_of_further, Ha'.
Qed.

Lemma driver_none (stmts : list Assign) (s : signal) :
  (forall a, a ∈ stmts -> lhs a <> s) -> driver stmts s = None.
Proof.
  unfold driver. induction stmts as [| a stmts IH]; intros Hno; [reflexivity |].
  simpl. rewrite bool_decide_eq_false_2 by (apply Hno, list_elem_of_here).
  apply IH. intros a' Ha'. apply Hno, list_elem_of_further, Ha'.
Qed.

Lemma driver_elem (stmts : list Assign) (s : signal) (v : Value) :
  driver stmts s = Some v -> mkAssign s v ∈ stmts.
Proof.
  unfold driver. induction stmts as [| a stmts IH]; simpl; [discriminate |].
  destruct (bool_decide (lhs a = s)) eqn:E.
  - apply bool_decide_eq_true in E. simpl. intros [= <-]. subst s.
    destruct a. apply list_elem_of_here.
  - intros H. apply list_elem_of_further, IH, H.
Qed.

Lemma elem_of_concat_imap {A B} (f : nat -> A -> list B) (l : list A) (b : B) :
  b ∈ concat (imap f l) <-> exists k x, l !! k = Some x /\ b ∈ f k x.
Proof.
  revert f. induction l as [| y l IH]; intros f.
  - simpl. split; [intros H; inversion H | intros (k & x & H & _); discriminate].
  - rewrite imap_cons. cbn [concat]. rewrite elem_of_app, IH. split.
    + intros [H | (k & x & Hk & Hb)].
      * exists 0%nat, y. split; [reflexivity | exact H].
      * exists (S k), x. split; [exact Hk | exact Hb].
    + intros ([| k] & x & Hk & Hb).
      * left. simpl in Hk. congruence.
      * right. exists k, x. split; [exact Hk | exact Hb].
Qed.

Lemma map_imap {A B C} (g : B -> C) (f : nat -> A -> B) (l : list A) :
  map g (imap f l) = imap (fun k x => g (f k x)) l.
Proof.
  revert f. induction l as [| x l IH]; intros f; [reflexivity |].
  rewrite !imap_cons. cbn [map]. f_equal. apply IH.
Qed.

(** ** MultiReadMemory.elaborate in closed form *)

Section SingleElaborate.
Import MultiReadMemory.

Lemma elaborate_ports_closed self wp ports m log :
  elaborate_ports self wp ports (m, log) =
  (mkModule
     (submodules m ++
      imap (fun k port =>
              (Anonymous, replica_memory self (length (submodules m) + k) port))
           ports)
     (comb m ++
      concat (imap (fun k port =>
                      replica_wiring self wp (length (submodules m) + k) port)
                   ports)),
   log ++ imap (fun k _ => replica_event self (length (submodules m) + k)) ports).
Proof.
  revert m log. induction ports as [| port rest IH]; intros m log.
  - simpl. rewrite !app_nil_r. destruct m. reflexivity.
  - cbn [elaborate_ports]. unfold elaborate_port. rewrite IH. clear IH.
    cbn [submodules comb add_comb add_submodule].
    rewrite !imap_cons. cbn [concat].
    rewrite length_app. cbn [length].
    rewrite <- !app_assoc. cbn [app].
    rewrite !Nat.add_0_r.
    f_equal; [f_equal |].
    + apply (f_equal (app (submodules m))), (f_equal (cons _)).
      apply imap_ext. intros i x _. simpl. do 2 f_equal. lia.
    + apply (f_equal (app (comb m))).
      unfold replica_wiring at 2. cbn [app].
      do 6 apply (f_equal (cons _)). apply (f_equal (@concat Assign)).
      apply imap_ext. intros i x _. simpl. f_equal. lia.
    + apply (f_equal (app log)), (f_equal (cons _)).
      apply imap_ext. intros i x _. simpl. f_equal. lia.
Qed.

Lemma design_without_writer self :
  write_ports self = [] ->
  MultiReadMemory_design self =
  {| banks := []; wiring := []; trace := [EvFreeze (oid self)] |}.
Proof.
  intros Hw. unfold MultiReadMemory_design, elaborate.
  change (write_ports (set_frozen self true)) with (write_ports self).
  rewrite Hw. reflexivity.
Qed.

Lemma design_with_writer self wp wps :
  write_ports self = wp :: wps ->
  MultiReadMemory_design self =
  {| banks := imap (replica_memory (set_frozen self true)) (read_ports self);
     wiring :=
       concat (imap (replica_wiring (set_frozen self true) wp) (read_ports self));
     trace :=
       EvFreeze (oid self)
         :: imap (fun k _ => replica_event (set_frozen self true) k)
                 (read_ports self) |}.
Proof.
  intros Hw. unfold MultiReadMemory_design, elaborate.
  change (write_ports (set_frozen self true)) with (write_ports self).
  rewrite Hw, elaborate_ports_closed. cbn [submodules comb length app].
  change (read_ports (set_frozen self true)) with (read_ports self).
  f_equal.
  rewrite map_imap. apply imap_ext. intros. reflexivity.
Qed.
End SingleElaborate.

(** ** Registries of declared ports are well formed *)

Lemma read_ports_of_nil o : read_ports_of o [].
Proof. intros k p H. discriminate. Qed.

Lemma write_ports_of_nil o : write_ports_of o [].
Proof. intros k p H. discriminate. Qed.

Lemma read_ports_of_snoc o ports width depth init tf loc :
  read_ports_of o ports ->
  read_ports_of o (snd (ReadPort.__init__ o ports width depth init tf loc)).
Proof.
  intros H k p. simpl. intros Hk.
  apply lookup_app_Some in Hk as [Hk | [Hlen Hk]]; [exact (H k p Hk) |].
  apply list_lookup_singleton_Some in Hk as [Hk <-]. simpl.
  replace k with (length ports) by lia. repeat split.
Qed.

Lemma write_ports_of_snoc o ports width depth init g loc :
  write_ports_of o ports ->
  write_ports_of o (snd (WritePort.__init__ o ports width depth init g loc)).
Proof.
  intros H k p. simpl. intros Hk.
  apply lookup_app_Some in Hk as [Hk | [Hlen Hk]]; [exact (H k p Hk) |].
  apply list_lookup_singleton_Some in Hk as [Hk <-]. simpl.
  replace k with (length ports) by lia. repeat split.
Qed.

Section SingleWellFormed.
Import MultiReadMemory.

Lemma single_read_port_wf o self tf loc p self' :
  single_wf o self -> read_port self tf loc = Ok (p, self') -> single_wf o self'.
Proof.
  intros (Ho & Hr & Hw). unfold read_port.
  destruct (_frozen self); [discriminate |]. simpl. intros [= _ <-].
  split; [exact Ho | split; [| exact Hw]]. simpl. rewrite Ho.
  apply (read_ports_of_snoc o _ (shape self) (depth self) (init self) tf
           (1 + loc)%Z Hr).
Qed.

Lemma single_write_port_wf o self g loc p self' :
  single_wf o self -> write_port self g loc = Ok (p, self') -> single_wf o self'.
Proof.
  intros (Ho & Hr & Hw). unfold write_port.
  destruct (_frozen self); [discriminate |].
  destruct (write_ports self) eqn:E; [| discriminate].
  unfold write_ports in E, Hw.
  simpl. intros [= _ <-].
  split; [exact Ho | split; [exact Hr |]]. simpl. rewrite Ho, E.
  apply (write_ports_of_snoc o _ (shape self) (depth self) (init self) g
           (1 + loc)%Z Hw).
Qed.

Lemma single_call_wf o self c :
  single_wf o self -> single_wf o (snd (MultiReadMemory_call self c)).
Proof.
  intros H. destruct c; simpl.
  - destruct (read_port self _ _) as [[p s'] | e] eqn:E; simpl; [| exact H].
    eapply single_read_port_wf; eassumption.
  - destruct (write_port self _ _) as [[p s'] | e] eqn:E; simpl; [| exact H].
    eapply single_write_port_wf; eassumption.
  - unfold elaborate. destruct (write_ports (set_frozen self true)).
    + exact H.
    + destruct (elaborate_ports _ _ _ _). exact H.
Qed.

Lemma single_session_wf o self cs :
  single_wf o self -> single_wf o (snd (MultiReadMemory_session self cs)).
Proof.
  revert self. induction cs as [| c cs IH]; intros self H; [exact H |].
  rewrite single_session_cons. cbn [snd]. apply IH, single_call_wf, H.
Qed.

Lemma single_init_wf o shape depth init attrs loc :
  single_wf o (__init__ o shape depth init attrs loc).
Proof.
  split; [reflexivity | split; [apply read_ports_of_nil | apply write_ports_of_nil]].
Qed.
End SingleWellFormed.

(** ** Who drives what in an elaborated MultiReadMemory *)

Ltac elem_solve :=
  solve [repeat first [apply list_elem_of_here | apply list_elem_of_further]].

Ltac elem_cases H :=
  first [ apply elem_of_nil in H; destruct H
        | apply elem_of_cons in H as [H | H]; [ | elem_cases H ] ].

Section ReplicaWiring.
Import MultiReadMemory.
Variables (self : t) (wp : WritePort.t) (o : obj_id).
Hypothesis Ho : oid self = o.
Hypothesis Hr : read_ports_of o (read_ports self).

Let stmts := concat (imap (replica_wiring self wp) (read_ports self)).

Lemma replica_stmt_cases a (P : Assign -> Prop) :
  a ∈ stmts ->
  (forall k p, read_ports self !! k = Some p ->
     P (mkAssign (PhysSig (Replica o k) Rd Addr) (VSig (PortSig o Rd k Addr))) /\
     P (mkAssign (PortSig o Rd k Data) (VSig (PhysSig (Replica o k) Rd Data))) /\
     P (mkAssign (PhysSig (Replica o k) Rd En) (VSig (PortSig o Rd k En))) /\
     P (mkAssign (PhysSig (Replica o k) Wr Addr) (VSig (WritePort.addr wp))) /\
     P (mkAssign (PhysSig (Replica o k) Wr Data) (VSig (WritePort.data wp))) /\
     P (mkAssign (PhysSig (Replica o k) Wr En) (VSig (WritePort.en wp)))) ->
  P a.
Proof.
  intros Ha HP. apply elem_of_concat_imap in Ha as (k & p & Hk & Ha).
  destruct (Hr k p Hk) as (He & Had & Hd).
  destruct (HP k p Hk) as (P1 & P2 & P3 & P4 & P5 & P6).
  unfold replica_wiring in Ha. rewrite Ho, He, Had, Hd in Ha.
  elem_cases Ha; subst a; assumption.
Qed.

Lemma replica_stmt_elem k p a :
  read_ports self !! k = Some p ->
  a ∈ [ mkAssign (PhysSig (Replica o k) Rd Addr) (VSig (PortSig o Rd k Addr));
        mkAssign (PortSig o Rd k Data) (VSig (PhysSig (Replica o k) Rd Data));
        mkAssign (PhysSig (Replica o k) Rd En) (VSig (PortSig o Rd k En));
        mkAssign (PhysSig (Replica o k) Wr Addr) (VSig (WritePort.addr wp));
        mkAssign (PhysSig (Replica o k) Wr Data) (VSig (WritePort.data wp));
        mkAssign (PhysSig (Replica o k) Wr En) (VSig (WritePort.en wp)) ] ->
  a ∈ stmts.
Proof.
  intros Hk Ha. apply elem_of_concat_imap. exists k, p. split; [exact Hk |].
  destruct (Hr k p Hk) as (He & Had & Hd).
  unfold replica_wiring. rewrite Ho, He, Had, Hd. exact Ha.
Qed.

Lemma replica_driver k p (s : signal) (v : Value) :
  read_ports self !! k = Some p ->
  mkAssign s v ∈
    [ mkAssign (PhysSig (Replica o k) Rd Addr) (VSig (PortSig o Rd k Addr));
      mkAssign (PortSig o Rd k Data) (VSig (PhysSig (Replica o k) Rd Data));
      mkAssign (PhysSig (Replica o k) Rd En) (VSig (PortSig o Rd k En));
      mkAssign (PhysSig (Replica o k) Wr Addr) (VSig (WritePort.addr wp));
      mkAssign (PhysSig (Replica o k) Wr Data) (VSig (WritePort.data wp));
      mkAssign (PhysSig (Replica o k) Wr En) (VSig (WritePort.en wp)) ] ->
  driver stmts s = Some v.
Proof.
  intros Hk Hin. apply driver_unique.
  - eapply replica_stmt_elem; eassumption.
  - intros a Ha. pattern a. eapply replica_stmt_cases; [exact Ha |].
    intros k' p' Hk'. cbn [lhs].
    elem_cases Hin; injection Hin as -> ->;
      repeat split; intros Hl; try discriminate Hl;
      injection Hl as ->; reflexivity.
Qed.

Lemma replica_undriven (s : signal) :
  match s with
  | PhysSig (Replica _ _) Rd Data => True
  | PhysSig (Relay _ _) _ _ => True
  | PortSig _ Wr _ _ => True
  | PortSig _ Rd _ En => True
  | PortSig _ Rd _ Addr => True
  | LocalSig _ _ => True
  | _ => False
  end ->
  driver stmts s = None.
Proof.
  intros Hs. apply driver_none. intros a Ha. pattern a.
  eapply replica_stmt_cases; [exact Ha |].
  intros k p Hk. cbn [lhs].
  repeat split; intros <-; try exact Hs; destruct o; exact Hs.
Qed.
End ReplicaWiring.

(** ** Settling and stepping *)

Lemma settle_driven fuel stmts u s v :
  driver stmts s = Some v ->
  settle (S fuel) stmts u s = eval (settle fuel stmts u) v.
Proof. intros H. simpl. rewrite H. reflexivity. Qed.

Lemma settle_undriven fuel stmts u s :
  driver stmts s = None -> settle fuel stmts u s = u s.
Proof. intros H. destruct fuel; simpl; rewrite H; reflexivity. Qed.

Lemma find_unique {A} (P : A -> bool) (l : list A) (x : A) :
  x ∈ l -> P x = true -> (forall y, y ∈ l -> P y = true -> y = x) ->
  find P l = Some x.
Proof.
  induction l as [| y l IH]; intros Hin Hx Huniq.
  - inversion Hin.
  - simpl. destruct (P y) eqn:E.
    + rewrite (Huniq y (list_elem_of_here _ _) E). reflexivity.
    + apply IH.
      * apply elem_of_cons in Hin as [<- | Hin]; [congruence | exact Hin].
      * exact Hx.
      * intros z Hz. apply Huniq, list_elem_of_further, Hz.
Qed.




Section SingleSimulation.
Import MultiReadMemory.
Variables (self : t) (wp : WritePort.t).
Hypothesis Hwf : single_wf Top self.
Hypothesis Hwp : write_ports self = [wp].

Let d := MultiReadMemory_design self.
Let self' := set_frozen self true.

Lemma sim_design :
  d = {| banks := imap (replica_memory self') (read_ports self);
         wiring := concat (imap (replica_wiring self' wp) (read_ports self));
         trace := EvFreeze (oid self)
                    :: imap (fun k _ => replica_event self' k) (read_ports self) |}.
Proof. apply design_with_writer with (wps := []). exact Hwp. Qed.

Lemma sim_wp :
  WritePort.en wp = PortSig Top Wr 0 En /\
  WritePort.addr wp = PortSig Top Wr 0 Addr /\
  WritePort.data wp = PortSig Top Wr 0 Data.
Proof.
  destruct Hwf as (_ & _ & Hw). apply (Hw 0%nat wp). rewrite Hwp. reflexivity.
Qed.

Lemma sim_driver k p s v :
  read_ports self !! k = Some p ->
  mkAssign s v ∈
    [ mkAssign (PhysSig (Replica Top k) Rd Addr) (VSig (PortSig Top Rd k Addr));
      mkAssign (PortSig Top Rd k Data) (VSig (PhysSig (Replica Top k) Rd Data));
      mkAssign (PhysSig (Replica Top k) Rd En) (VSig (PortSig Top Rd k En));
      mkAssign (PhysSig (Replica Top k) Wr Addr) (VSig (PortSig Top Wr 0 Addr));
      mkAssign (PhysSig (Replica Top k) Wr Data) (VSig (PortSig Top Wr 0 Data));
      mkAssign (PhysSig (Replica Top k) Wr En) (VSig (PortSig Top Wr 0 En)) ] ->
  driver (wiring d) s = Some v.
Proof.
  intros Hk Hin. rewrite sim_design. cbn [wiring].
  destruct Hwf as (Ho & Hr & _). destruct sim_wp as (He & Ha & Hd).
  eapply (replica_driver self' wp Top Ho Hr k p); [exact Hk |].
  rewrite He, Ha, Hd. exact Hin.
Qed.

Lemma sim_input tb st s :
  match s with
  | PortSig Top Wr _ _ => True
  | PortSig Top Rd _ En => True
  | PortSig Top Rd _ Addr => True
  | _ => False
  end ->
  cycle_value d tb st s = tb s.
Proof.
  intros Hs. unfold cycle_value. rewrite settle_undriven.
  - destruct s as [[] [] k []| |]; try destruct Hs; reflexivity.
  - rewrite sim_design. cbn [wiring].
    destruct Hwf as (Ho & Hr & _).
    apply (replica_undriven self' wp Top Ho Hr).
    destruct s as [[] [] k []| |]; try destruct Hs; exact I.
Qed.

Lemma sim_settle_input fuel tb st s :
  match s with
  | PortSig Top Wr _ _ => True
  | PortSig Top Rd _ En => True
  | PortSig Top Rd _ Addr => True
  | _ => False
  end ->
  settle fuel (wiring d) (undriven tb st) s = tb s.
Proof.
  intros Hs. rewrite settle_undriven.
  - destruct s as [[] [] k []| |]; try destruct Hs; reflexivity.
  - rewrite sim_design. cbn [wiring].
    destruct Hwf as (Ho & Hr & _).
    apply (replica_undriven self' wp Top Ho Hr).
    destruct s as [[] [] k []| |]; try destruct Hs; exact I.
Qed.

Lemma sim_bank_inputs tb st k p :
  read_ports self !! k = Some p ->
  cycle_value d tb st (PhysSig (Replica Top k) Wr En) = tb (PortSig Top Wr 0 En) /\
  cycle_value d tb st (PhysSig (Replica Top k) Wr Addr) = tb (PortSig Top Wr 0 Addr) /\
  cycle_value d tb st (PhysSig (Replica Top k) Wr Data) = tb (PortSig Top Wr 0 Data) /\
  cycle_value d tb st (PhysSig (Replica Top k) Rd En) = tb (PortSig Top Rd k En) /\
  cycle_value d tb st (PhysSig (Replica Top k) Rd Addr) = tb (PortSig Top Rd k Addr).
Proof.
  intros Hk. unfold cycle_value.
  pose proof (fun s v => sim_driver k p s v Hk) as D.
  repeat split.
  - rewrite (settle_driven _ _ _ _ (VSig (PortSig Top Wr 0 En)))
      by (apply D; elem_solve).
    apply sim_settle_input. exact I.
  - rewrite (settle_driven _ _ _ _ (VSig (PortSig Top Wr 0 Addr)))
      by (apply D; elem_solve).
    apply sim_settle_input. exact I.
  - rewrite (settle_driven _ _ _ _ (VSig (PortSig Top Wr 0 Data)))
      by (apply D; elem_solve).
    apply sim_settle_input. exact I.
  - rewrite (settle_driven _ _ _ _ (VSig (PortSig Top Rd k En)))
      by (apply D; elem_solve).
    apply sim_settle_input. exact I.
  - rewrite (settle_driven _ _ _ _ (VSig (PortSig Top Rd k Addr)))
      by (apply D; elem_solve).
    apply sim_settle_input. exact I.
Qed.

Lemma sim_read_data tb st k p :
  read_ports self !! k = Some p ->
  cycle_value d tb st (PortSig Top Rd k Data) = rdata (st (Replica Top k)).
Proof.
  intros Hk. unfold cycle_value.
  rewrite (settle_driven _ _ _ _ (VSig (PhysSig (Replica Top k) Rd Data)))
    by (eapply sim_driver; [exact Hk | elem_solve]).
  cbn [eval]. rewrite settle_undriven; [reflexivity |].
  rewrite sim_design. cbn [wiring].
  destruct Hwf as (Ho & Hr & _).
  apply (replica_undriven self' wp Top Ho Hr). exact I.
Qed.

Lemma sim_find_bank k p :
  read_ports self !! k = Some p ->
  find_bank d (Replica Top k) = Some (replica_memory self' k p).
Proof.
  intros Hk. unfold find_bank. rewrite sim_design. cbn [banks].
  destruct Hwf as (Ho & _ & _).
  apply find_unique.
  - apply elem_of_lookup_imap. eauto.
  - apply bool_decide_eq_true.
    change (Replica (oid self) k = Replica Top k). rewrite Ho. reflexivity.
  - intros y Hy Hb. apply elem_of_lookup_imap in Hy as (k' & p' & -> & Hk').
    apply bool_decide_eq_true in Hb.
    change (Replica (oid self) k' = Replica Top k) in Hb.
    injection Hb as _ ->. congruence.
Qed.

Lemma sim_step tb st k p :
  read_ports self !! k = Some p ->
  step d tb st (Replica Top k) =
  {| contents :=
       if enabled (tb (PortSig Top Wr 0 En))
       then store (contents (st (Replica Top k)))
              (tb (PortSig Top Wr 0 Addr)) (tb (PortSig Top Wr 0 Data))
       else contents (st (Replica Top k));
     rdata :=
       if enabled (tb (PortSig Top Rd k En))
       then load (contents (st (Replica Top k))) (tb (PortSig Top Rd k Addr))
       else rdata (st (Replica Top k)) |}.
Proof.
  intros Hk. unfold step. rewrite (sim_find_bank k p Hk).
  unfold bank_step.
  change (bank (replica_memory self' k p)) with (Replica (oid self) k).
  destruct Hwf as (Ho & _ & _). rewrite Ho.
  destruct (sim_bank_inputs tb st k p Hk) as (-> & -> & -> & -> & ->).
  reflexivity.
Qed.


End SingleSimulation.

Lemma single_session_config self cs :
  MultiReadMemory.depth (snd (MultiReadMemory_session self cs))
    = MultiReadMemory.depth self /\
  MultiReadMemory.init (snd (MultiReadMemory_session self cs))
    = MultiReadMemory.init self.
Proof.
  revert self. induction cs as [| c cs IH]; intros self; [split; reflexivity |].
  rewrite single_session_cons. cbn [snd].
  destruct (IH (snd (MultiReadMemory_call self c))) as [-> ->].
  destruct c; simpl.
  - unfold MultiReadMemory.read_port.
    destruct (MultiReadMemory._frozen self); split; reflexivity.
  - unfold MultiReadMemory.write_port.
    destruct (MultiReadMemory._frozen self); [split; reflexivity |].
    destruct (MultiReadMemory.write_ports self); split; reflexivity.
  - unfold MultiReadMemory.elaborate.
    destruct (MultiReadMemory.write_ports _); [split; reflexivity |].
    destruct (MultiReadMemory.elaborate_ports _ _ _ _). split; reflexivity.
Qed.

(** ** The single-writer engine *)


(** C10: a single-writer engine elaborated with no write port has no
    primitive bank and no assignment, whatever the number of read ports; no
    statement drives the [data] of a declared read port, which therefore
    reads 0 in every cycle, for every initial content and every client
    behaviour. *)
Theorem no_writer_no_banks :
  forall (shape : ShapeLike) (depth : Z) (init : list Z) (attrs : Attrs)
         (loc : Z) (cs : list call) (self : MultiReadMemory.t),
    self = snd (MultiReadMemory_session
                  (MultiReadMemory.__init__ Top shape depth init attrs loc) cs) ->
    MultiReadMemory.write_ports self = [] ->
    let d := MultiReadMemory_design self in
    banks d = [] /\
    wiring d = [] /\
    (forall k p, MultiReadMemory.read_ports self !! k = Some p ->
       driver (wiring d) (ReadPort.data p) = None /\
       forall (tb : nat -> signal -> Z) (n : nat),
         observe d tb n (ReadPort.data p) = 0%Z).
Proof.
  intros shape depth init attrs loc cs self Hself Hw d.
  assert (Hwf : single_wf Top self).
  { rewrite Hself. apply single_session_wf, single_init_wf. }
  pose proof (design_without_writer self Hw) as Hd. fold d in Hd.
  rewrite Hd. cbn [banks wiring]. split; [reflexivity |]. split; [reflexivity |].
  intros k p Hk. destruct Hwf as (_ & Hr & _).
  destruct (Hr k p Hk) as (_ & _ & ->).
  split; [reflexivity |]. intros tb n. reflexivity.
Qed.


(** Initial content 7 everywhere, no writer: read port 2 shows 0. *)
Lemma no_writer_no_banks_witness :
  observe (MultiReadMemory_design scenario_no_writer) (fun _ _ => 5%Z) 3
    (PortSig Top Rd 2 Data) = 0%Z.
Proof.
  refine (proj2 (proj2 (proj2
            (no_writer_no_banks 8%Z 4%Z [7%Z; 7%Z; 7%Z; 7%Z] None 0%Z
               [CallReadPort [] 0%Z; CallReadPort [] 0%Z; CallReadPort [] 0%Z]
               scenario_no_writer eq_refl eq_refl))
            2%nat _ eq_refl) (fun _ _ => 5%Z) 3%nat).
Defined.

(** ** The loops of MultiportXORMemory.elaborate *)

Lemma bind_getitem {A B} (l : list A) (i : nat) (k : A -> result B) :
  (i < length l)%nat ->
  exists x, l !! i = Some x /\ bind (getitem l i) k = k x.
Proof.
  intros Hi. destruct (lookup_lt_is_Some_2 l i Hi) as [x Hx].
  exists x. split; [exact Hx |]. unfold getitem. rewrite Hx. reflexivity.
Qed.

Lemma bind_setitem {A B} (l : list A) (i : nat) (x : A)
    (k : list A -> result B) :
  (i < length l)%nat -> bind (setitem l i x) k = k (<[i := x]> l).
Proof.
  intros Hi. unfold setitem. rewrite decide_True by exact Hi. reflexivity.
Qed.

Ltac run_getitem x Hx :=
  match goal with
  | |- context [bind (getitem ?l ?i) ?k] =>
    let E := fresh "E" in
    destruct (bind_getitem l i k) as (x & Hx & E);
    [ rewrite ?length_insert; lia | rewrite E; clear E; cbv beta ]
  end.

Ltac run_setitem :=
  match goal with
  | |- context [bind (setitem ?l ?i ?x) ?k] =>
    rewrite (bind_setitem l i x k) by (rewrite ?length_insert; lia);
    cbv beta
  end.

Section XorLoops.
Import MultiportXORMemory.
Variable self : t.

Let W := length (write_ports self).
Let R := length (read_ports self).

Lemma relay_body_spec index wp i passed s :
  (i + 1 < W)%nat -> (index < W)%nat -> length (write_xors s) = W ->
  exists passed' s' stmts,
    relay_body self index wp i (passed, s) = Ok (passed', s') /\
    extends s s'
      [(memory_ index i, EMemory (relay_memory self index i))]
      [relay_event self index i] stmts /\
    Forall (fun a => writer_loop_lhs (lhs a)) stmts /\
    read_xors s' = read_xors s /\
    length (write_xors s') = W.
Proof.
  intros Hi Hindex Hlen. unfold relay_body.
  set (passed' := if decide (i = index) then true else passed).
  set (idx := if passed' then (i + 1)%nat else i).
  assert (Hidx : (idx < W)%nat) by (subst idx; destruct passed'; lia).
  subst W.
  run_getitem old Hold. run_setitem.
  run_getitem committed Hcommitted.
  run_getitem other Hother.
  eexists _, _, _. split; [reflexivity |].
  split; [repeat split |]. split; [| split].
  - repeat constructor.
  - reflexivity.
  - cbn [write_xors]. rewrite length_insert. exact Hlen.
Qed.

Lemma extends_refl s : extends s s [] [] [].
Proof. unfold extends. rewrite !app_nil_r. repeat split. Qed.

Lemma extends_trans s1 s2 s3 a b c a' b' c' :
  extends s1 s2 a b c -> extends s2 s3 a' b' c' ->
  extends s1 s3 (a ++ a') (b ++ b') (c ++ c').
Proof.
  intros (H1 & H2 & H3) (H1' & H2' & H3'). unfold extends.
  rewrite H1', H2', H3', H1, H2, H3, <- !app_assoc. repeat split.
Qed.

Lemma relay_loop_spec index wp range : forall passed s,
  Forall (fun i => (i + 1 < W)%nat) range ->
  (index < W)%nat -> length (write_xors s) = W ->
  exists passed' s' stmts,
    relay_loop self index wp range (passed, s) = Ok (passed', s') /\
    extends s s'
      (map (fun i => (memory_ index i, EMemory (relay_memory self index i))) range)
      (map (relay_event self index) range) stmts /\
    Forall (fun a => writer_loop_lhs (lhs a)) stmts /\
    read_xors s' = read_xors s /\
    length (write_xors s') = W.
Proof.
  induction range as [| i range IH]; intros passed s Hrange Hindex Hlen.
  - exists passed, s, []. split; [reflexivity |].
    split; [apply extends_refl |]. split; [constructor |]. split; [reflexivity | exact Hlen].
  - apply Forall_cons in Hrange as [Hi Hrange].
    destruct (relay_body_spec index wp i passed s Hi Hindex Hlen)
      as (p1 & s1 & st1 & E1 & X1 & F1 & R1 & L1).
    destruct (IH p1 s1 Hrange Hindex L1)
      as (p2 & s2 & st2 & E2 & X2 & F2 & R2 & L2).
    exists p2, s2, (st1 ++ st2). cbn [relay_loop]. rewrite E1. cbn [bind].
    split; [exact E2 |]. split; [| split; [| split]].
    + apply (extends_trans _ _ _ [_] [_] _ _ _ _ X1 X2).
    + apply Forall_app. split; assumption.
    + congruence.
    + exact L2.
Qed.

Lemma declare_read_ports_spec {A} (for_each : list A) : forall blk,
  MultiReadMemory._frozen blk = false ->
  exists ps,
    declare_read_ports for_each blk =
      Ok (ps, snd (MultiReadMemory_session blk
                     (map (fun _ => CallReadPort [] 0%Z) for_each))) /\
    MultiReadMemory.read_ports
      (snd (MultiReadMemory_session blk
              (map (fun _ => CallReadPort [] 0%Z) for_each)))
      = MultiReadMemory.read_ports blk ++ ps /\
    length ps = length for_each.
Proof.
  induction for_each as [| x rest IH]; intros blk Hf.
  - exists []. simpl. rewrite app_nil_r. repeat split.
  - cbn [declare_read_ports map]. rewrite single_session_cons. cbn [snd].
    cbn [MultiReadMemory_call].
    unfold MultiReadMemory.read_port. rewrite Hf.
    cbn [ReadPort.__init__ bind snd fst].
    match goal with
    | |- context [MultiReadMemory.set_read_ports blk ?l] =>
      destruct (IH (MultiReadMemory.set_read_ports blk l) Hf) as (ps & E & Hr & Hl)
    end.
    rewrite E. cbn [bind].
    eexists. split; [reflexivity |]. split.
    + rewrite Hr. cbn [MultiReadMemory.read_ports MultiReadMemory._read_ports
                       MultiReadMemory.set_read_ports].
      rewrite <- app_assoc. reflexivity.
    + simpl. rewrite Hl. reflexivity.
Qed.

Lemma read_only_session {A} (for_each : list A) : forall blk,
  MultiReadMemory._frozen blk = false ->
  MultiReadMemory.write_ports
    (snd (MultiReadMemory_session blk
            (map (fun _ => CallReadPort [] 0%Z) for_each)))
    = MultiReadMemory.write_ports blk /\
  MultiReadMemory._frozen
    (snd (MultiReadMemory_session blk
            (map (fun _ => CallReadPort [] 0%Z) for_each))) = false.
Proof.
  induction for_each as [| x rest IH]; intros blk Hf; [split; [reflexivity | exact Hf] |].
  cbn [map]. rewrite single_session_cons. cbn [snd MultiReadMemory_call].
  unfold MultiReadMemory.read_port. rewrite Hf.
  cbn [ReadPort.__init__ snd fst].
  match goal with
  | |- context [MultiReadMemory.set_read_ports blk ?l] =>
    destruct (IH (MultiReadMemory.set_read_ports blk l) Hf) as (Hw & Hfr)
  end.
  split; [rewrite Hw; reflexivity | exact Hfr].
Qed.

Lemma built_read_block_facts index :
  single_wf (ReadBlock index) (built_read_block self index) /\
  MultiReadMemory._frozen (built_read_block self index) = false /\
  length (MultiReadMemory.read_ports (built_read_block self index)) = R /\
  exists wp,
    MultiReadMemory.write_ports (built_read_block self index) = [wp] /\
    WritePort.en wp = PortSig (ReadBlock index) Wr 0 En /\
    WritePort.addr wp = PortSig (ReadBlock index) Wr 0 Addr /\
    WritePort.data wp = PortSig (ReadBlock index) Wr 0 Data.
Proof.
  split; [apply single_session_wf, single_init_wf |].
  unfold built_read_block. rewrite single_session_cons. cbn [snd].
  match goal with
  | |- context [MultiReadMemory_call ?b ?c] =>
    set (blk1 := snd (MultiReadMemory_call b c))
  end.
  assert (Hf : MultiReadMemory._frozen blk1 = false) by reflexivity.
  destruct (read_only_session (read_ports self) blk1 Hf) as (Hw & Hfr).
  destruct (declare_read_ports_spec (read_ports self) blk1 Hf) as (ps & _ & Hr & Hl).
  split; [exact Hfr |]. split.
  - rewrite Hr, length_app, Hl. reflexivity.
  - rewrite Hw. eexists. split; [reflexivity |]. repeat split.
Qed.

Lemma fan_out_loop_spec index : forall ps idx s,
  length (read_xors s) = R -> (idx + length ps <= R)%nat ->
  (forall j p, ps !! j = Some p ->
     ReadPort.en p = PortSig (ReadBlock index) Rd (idx + j) En /\
     ReadPort.addr p = PortSig (ReadBlock index) Rd (idx + j) Addr /\
     ReadPort.data p = PortSig (ReadBlock index) Rd (idx + j) Data) ->
  exists s' stmts,
    fan_out_loop self idx ps s = Ok s' /\
    extends s s' [] [] stmts /\
    Forall (fun a => writer_loop_lhs (lhs a)) stmts /\
    write_xors s' = write_xors s /\
    length (read_xors s') = R /\
    forall k,
      read_xors s' !! k =
      if decide (idx <= k < idx + length ps)%nat
      then (fun old => VXor old (VSig (PortSig (ReadBlock index) Rd k Data)))
             <$> read_xors s !! k
      else read_xors s !! k.
Proof.
  induction ps as [| port rest IH]; intros idx s Hlen Hidx Hps.
  - exists s, []. split; [reflexivity |]. split; [apply extends_refl |].
    split; [constructor |]. split; [reflexivity |]. split; [exact Hlen |].
    intros k. simpl. rewrite decide_False by lia. reflexivity.
  - cbn [length] in Hidx. cbn [fan_out_loop]. subst R.
    run_getitem old Hold. run_setitem. run_getitem logical Hlogical.
    destruct (Hps 0%nat port eq_refl) as (He & Ha & Hd).
    rewrite Nat.add_0_r in He, Ha, Hd.
    match goal with
    | |- context [fan_out_loop self (S idx) rest ?s1] =>
      destruct (IH (S idx) s1) as (s' & stmts & E & X & F & Hwx & Hl & Hk)
    end.
    { cbn [read_xors]. rewrite length_insert. exact Hlen. }
    { lia. }
    { intros j p Hj. replace (S idx + j)%nat with (idx + S j)%nat by lia.
      apply (Hps (S j) p Hj). }
    exists s',
      ([ mkAssign (ReadPort.addr port) (VSig (ReadPort.addr logical));
         mkAssign (ReadPort.en port) (VConst 1) ] ++ stmts).
    split; [exact E |]. split; [| split; [| split; [| split]]].
    + refine (extends_trans _ _ _ [] [] _ [] [] stmts _ X).
      unfold extends. cbn [m log submodules comb add_comb].
      rewrite !app_nil_r. repeat split.
    + apply Forall_app. split; [| exact F].
      rewrite Ha, He. repeat constructor.
    + rewrite Hwx. reflexivity.
    + exact Hl.
    + intros k. rewrite Hk. cbn [read_xors length].
      destruct (decide (k = idx)) as [-> | Hne].
      * rewrite decide_False by lia. rewrite decide_True by lia.
        rewrite list_lookup_insert_eq by lia. rewrite Hold, Hd. reflexivity.
      * rewrite list_lookup_insert_ne by congruence.
        destruct (decide (S idx <= k < S idx + length rest)%nat).
        -- rewrite decide_True by lia. reflexivity.
        -- rewrite decide_False by lia. reflexivity.
Qed.

Lemma read_combination_S n k :
  read_combination (S n) k =
  VXor (read_combination n k) (VSig (PortSig (ReadBlock n) Rd k Data)).
Proof.
  unfold read_combination. rewrite seq_S, fold_left_app. reflexivity.
Qed.

Lemma relay_range : Forall (fun i => (i + 1 < W)%nat) (seq 0 (W - 1)).
Proof. apply Forall_forall. intros i Hi. apply elem_of_seq in Hi. lia. Qed.

Lemma writer_body_spec index wp s :
  (index < W)%nat -> length (write_xors s) = W -> length (read_xors s) = R ->
  (forall k, (k < R)%nat -> read_xors s !! k = Some (read_combination index k)) ->
  exists s' stmts,
    writer_body self index wp s = Ok s' /\
    extends s s' (writer_submodules self index) (writer_events self index) stmts /\
    Forall (fun a => writer_loop_lhs (lhs a)) stmts /\
    length (write_xors s') = W /\
    length (read_xors s') = R /\
    (forall k, (k < R)%nat ->
       read_xors s' !! k = Some (read_combination (S index) k)).
Proof.
  intros Hindex Hlw Hlr Hrx. unfold writer_body.
  run_getitem old Hold. run_setitem.
  match goal with
  | |- context [relay_loop self index wp _ (false, ?s1)] =>
    destruct (relay_loop_spec index wp (seq 0 (W - 1)) false s1 relay_range Hindex)
      as (p2 & s2 & st & E & (X1 & X2 & X3) & F & Rx & L)
  end.
  { cbn [write_xors]. rewrite length_insert. exact Hlw. }
  unfold W in *. rewrite E. cbn [bind]. clear E.
  cbn [m log read_xors write_xors] in X1, X2, X3, Rx.
  change (MultiReadMemory.write_port _ None 0%Z)
    with (Ok (fst (WritePort.__init__ (ReadBlock index) [] (shape self)
                     (depth self) (init self) None (1 + 0)%Z),
              snd (MultiReadMemory_call
                     (MultiReadMemory.__init__ (ReadBlock index) (shape self)
                        (depth self) (init self) (attrs self) (src_loc self))
                     (CallWritePort None 0%Z)))).
  cbn [bind].
  match goal with
  | |- context [declare_read_ports (read_ports self) ?blk1] =>
    destruct (declare_read_ports_spec (read_ports self) blk1 eq_refl)
      as (ps & E & Hps & Hl);
    rewrite E; clear E
  end.
  cbn [bind].
  assert (Hb : built_read_block self index =
               snd (MultiReadMemory_session
                      (snd (MultiReadMemory_call
                              (MultiReadMemory.__init__ (ReadBlock index)
                                 (shape self) (depth self) (init self)
                                 (attrs self) (src_loc self))
                              (CallWritePort None 0%Z)))
                      (map (fun _ => CallReadPort [] 0%Z) (read_ports self))))
    by (unfold built_read_block; rewrite single_session_cons; reflexivity).
  rewrite <- Hb in *. clear Hb.
  destruct (built_read_block_facts index) as ((_ & Hrp & _) & _ & _ & _).
  rewrite Hps in Hrp. change (read_ports_of (ReadBlock index) ps) in Hrp.
  run_getitem committed Hcommitted.
  match goal with
  | |- context [fan_out_loop self 0 ps ?s3] =>
    destruct (fan_out_loop_spec index ps 0%nat s3)
      as (s' & stf & E & (Y1 & Y2 & Y3) & Ff & Wf & Lf & Kf)
  end.
  { cbn [read_xors]. rewrite Rx. exact Hlr. }
  { unfold R. lia. }
  { intros j p Hj. apply (Hrp j p Hj). }
  rewrite E. clear E.
  cbn [m log read_xors write_xors submodules comb add_comb add_submodule]
    in Y1, Y2, Y3, Wf, Kf.
  rewrite app_nil_r in Y1, Y2.
  rewrite X1 in Y1. rewrite X2 in Y2. rewrite X3 in Y3.
  rewrite <- !app_assoc in Y1. rewrite <- !app_assoc in Y3.
  eexists s', _. split; [reflexivity |].
  split; [| split; [| split; [| split]]].
  - unfold extends, writer_submodules, writer_events.
    split; [exact Y1 |]. split; [exact Y2 | exact Y3].
  - apply Forall_app. split; [exact F |].
    apply Forall_app. split; [| exact Ff]. repeat constructor.
  - rewrite Wf. exact L.
  - exact Lf.
  - intros k Hk. rewrite Kf, Rx, decide_True by (unfold R; lia).
    rewrite (Hrx k Hk), read_combination_S. reflexivity.
Qed.

Lemma writers_loop_spec : forall todo index s,
  (index + length todo = W)%nat ->
  length (write_xors s) = W -> length (read_xors s) = R ->
  (forall k, (k < R)%nat -> read_xors s !! k = Some (read_combination index k)) ->
  exists s' stmts,
    writers_loop self index todo s = Ok s' /\
    extends s s'
      (concat (map (writer_submodules self) (seq index (length todo))))
      (concat (map (writer_events self) (seq index (length todo)))) stmts /\
    Forall (fun a => writer_loop_lhs (lhs a)) stmts /\
    length (read_xors s') = R /\
    (forall k, (k < R)%nat -> read_xors s' !! k = Some (read_combination W k)).
Proof.
  induction todo as [| wp rest IH]; intros index s Hidx Hlw Hlr Hrx.
  - exists s, []. split; [reflexivity |]. split; [apply extends_refl |].
    split; [constructor |]. split; [exact Hlr |].
    simpl in Hidx. rewrite Nat.add_0_r in Hidx. subst index. exact Hrx.
  - cbn [length] in Hidx.
    destruct (writer_body_spec index wp s) as (s1 & st1 & E1 & X1 & F1 & L1 & M1 & K1);
      [lia | exact Hlw | exact Hlr | exact Hrx |].
    destruct (IH (S index) s1) as (s2 & st2 & E2 & X2 & F2 & M2 & K2);
      [lia | exact L1 | exact M1 | exact K1 |].
    exists s2, (st1 ++ st2). cbn [writers_loop]. rewrite E1. cbn [bind].
    split; [exact E2 |]. split; [| split; [| split]].
    + cbn [length seq map concat]. exact (extends_trans _ _ _ _ _ _ _ _ _ X1 X2).
    + apply Forall_app. split; assumption.
    + exact M2.
    + exact K2.
Qed.

Lemma drive_read_ports_spec : forall todo index s,
  (index + length todo <= R)%nat ->
  (forall k, (k < R)%nat -> read_xors s !! k = Some (read_combination W k)) ->
  exists s',
    drive_read_ports index todo s = Ok s' /\
    extends s s' [] []
      (imap (fun j port =>
               mkAssign (ReadPort.data port) (read_combination W (index + j)))
            todo).
Proof.
  induction todo as [| port rest IH]; intros index s Hidx Hrx.
  - exists s. split; [reflexivity | apply extends_refl].
  - cbn [length] in Hidx. cbn [drive_read_ports].
    unfold getitem. rewrite (Hrx index) by lia. cbn [bind].
    match goal with
    | |- context [drive_read_ports (S index) rest ?s1] =>
      destruct (IH (S index) s1 ltac:(lia) Hrx) as (s' & E & X)
    end.
    exists s'. split; [exact E |].
    rewrite imap_cons, Nat.add_0_r.
    refine (eq_ind _ (fun l => extends s s' [] [] (_ :: l))
              (extends_trans _ _ _ [] [] [_] [] [] _ _ X) _ _).
    + unfold extends. cbn [m log submodules comb add_comb].
      rewrite !app_nil_r. repeat split.
    + apply imap_ext. intros j x _. simpl. do 2 f_equal. lia.
Qed.
End XorLoops.

Lemma xor_elaborate_spec (self : MultiportXORMemory.t) :
  let self' := MultiportXORMemory.set_frozen self true in
  let W := length (MultiportXORMemory.write_ports self) in
  exists m stmts,
    MultiportXORMemory.elaborate self =
      Ok (self', m,
          EvFreeze (MultiportXORMemory.oid self)
            :: concat (map (writer_events self') (seq 0 W))) /\
    submodules m = concat (map (writer_submodules self') (seq 0 W)) /\
    comb m =
      stmts ++
      imap (fun k port => mkAssign (ReadPort.data port) (read_combination W k))
           (MultiportXORMemory.read_ports self) /\
    Forall (fun a => writer_loop_lhs (lhs a)) stmts.
Proof.
  intros self' W. unfold MultiportXORMemory.elaborate. fold self'.
  match goal with
  | |- context [MultiportXORMemory.writers_loop self' 0 _ ?s0] =>
    destruct (writers_loop_spec self' (MultiportXORMemory.write_ports self') 0%nat s0)
      as (s1 & st & E1 & (X1 & X2 & X3) & F & M & K)
  end.
  - reflexivity.
  - apply length_imap.
  - apply length_imap.
  - intros k Hk. cbn [MultiportXORMemory.read_xors].
    unfold MultiportXORMemory.fresh_signals. rewrite list_lookup_imap.
    destruct (lookup_lt_is_Some_2 _ k Hk) as [x ->]. reflexivity.
  - rewrite E1. cbn [bind].
    destruct (drive_read_ports_spec self' (MultiportXORMemory.read_ports self') 0%nat s1)
      as (s2 & E2 & (Y1 & Y2 & Y3)); [reflexivity | exact K |].
    rewrite E2. cbn [bind].
    cbn [MultiportXORMemory.m MultiportXORMemory.log submodules comb app] in X1, X2, X3.
    rewrite app_nil_r in Y1, Y2. rewrite X1 in Y1. rewrite X2 in Y2. rewrite X3 in Y3.
    exists (MultiportXORMemory.m s2), st.
    split; [| split; [| split]].
    + rewrite Y2. reflexivity.
    + exact Y1.
    + exact Y3.
    + exact F.
Qed.

(** ** The elaborated hierarchy of MultiportXORMemory in closed form *)

Lemma concat_map_concat {A B C} (F : B -> list C) (G : A -> list B) (l : list A) :
  concat (map F (concat (map G l))) = concat (map (fun x => concat (map F (G x))) l).
Proof.
  induction l as [| x l IH]; [reflexivity |].
  cbn [map concat]. rewrite map_app, concat_app, IH. reflexivity.
Qed.

Lemma concat_map_nil {A B} (l : list A) :
  concat (map (fun _ => @nil B) l) = [].
Proof. induction l as [| x l IH]; [reflexivity | exact IH]. Qed.

Lemma concat_map_singleton {A B} (f : A -> B) (l : list A) :
  concat (map (fun x => [f x]) l) = map f l.
Proof.
  induction l as [| x l IH]; [reflexivity |]. cbn [map concat app]. rewrite IH.
  reflexivity.
Qed.

Section XorHierarchy.
Variable self : MultiportXORMemory.t.

Lemma writer_sub_banks index :
  concat (map (fun ne => banks (sub_design (snd ne))) (writer_submodules self index))
  = writer_banks self index.
Proof.
  unfold writer_submodules, writer_banks.
  rewrite map_app, concat_app, map_map. cbn [map concat snd sub_design banks].
  rewrite app_nil_r.
  rewrite (concat_map_singleton (relay_memory self index)). reflexivity.
Qed.

Lemma writer_sub_wiring index :
  concat (map (fun ne => wiring (sub_design (snd ne))) (writer_submodules self index))
  = block_wiring self index.
Proof.
  unfold writer_submodules, block_wiring.
  rewrite map_app, concat_app, map_map. cbn [map concat snd sub_design wiring].
  rewrite app_nil_r, concat_map_nil. reflexivity.
Qed.

Lemma writer_sub_trace index :
  concat (map (fun ne => trace (sub_design (snd ne))) (writer_submodules self index))
  = block_trace self index.
Proof.
  unfold writer_submodules, block_trace.
  rewrite map_app, concat_app, map_map. cbn [map concat snd sub_design trace].
  rewrite app_nil_r, concat_map_nil. reflexivity.
Qed.
End XorHierarchy.

Lemma xor_design_spec (self : MultiportXORMemory.t) :
  let self' := MultiportXORMemory.set_frozen self true in
  let W := length (MultiportXORMemory.write_ports self) in
  exists stmts,
    Forall (fun a => writer_loop_lhs (lhs a)) stmts /\
    MultiportXORMemory_design self =
      Ok {| banks := concat (map (writer_banks self') (seq 0 W));
            wiring := (stmts ++ read_port_drivers self)
                        ++ concat (map (block_wiring self') (seq 0 W));
            trace := (EvFreeze (MultiportXORMemory.oid self)
                        :: concat (map (writer_events self') (seq 0 W)))
                       ++ concat (map (block_trace self') (seq 0 W)) |}.
Proof.
  intros self' W.
  destruct (xor_elaborate_spec self) as (m & stmts & E & Hsubs & Hcomb & F).
  exists stmts. split; [exact F |].
  unfold MultiportXORMemory_design. fold self' W in E. rewrite E. cbn [bind].
  rewrite !map_map, Hsubs, Hcomb.
  rewrite (concat_map_concat (fun ne => banks (sub_design (snd ne)))).
  rewrite (concat_map_concat (fun ne => wiring (sub_design (snd ne)))).
  rewrite (concat_map_concat (fun ne => trace (sub_design (snd ne)))).
  do 2 f_equal.
  - f_equal. apply map_ext. intros index. apply writer_sub_banks.
  - f_equal. f_equal. apply map_ext. intros index. apply writer_sub_wiring.
  - f_equal. f_equal. apply map_ext. intros index. apply writer_sub_trace.
Qed.

Lemma length_concat_const {A B} (f : A -> list B) (l : list A) (c : nat) :
  (forall x, length (f x) = c) -> length (concat (map f l)) = (length l * c)%nat.
Proof.
  intros Hf. induction l as [| x l IH]; [reflexivity |].
  cbn [map concat length]. rewrite length_app, Hf, IH. lia.
Qed.

Lemma block_banks_length (self : MultiportXORMemory.t) (index : nat) :
  length (banks (MultiReadMemory_design (built_read_block self index)))
  = length (MultiportXORMemory.read_ports self).
Proof.
  destruct (built_read_block_facts self index) as (_ & _ & Hr & wp & Hw & _).
  rewrite (design_with_writer _ wp [] Hw). cbn [banks].
  rewrite length_imap. exact Hr.
Qed.

Lemma writer_banks_length (self : MultiportXORMemory.t) (index : nat) :
  length (writer_banks self index)
  = (length (MultiportXORMemory.write_ports self) - 1
     + length (MultiportXORMemory.read_ports self))%nat.
Proof.
  unfold writer_banks.
  rewrite length_app, length_map, length_seq, block_banks_length. reflexivity.
Qed.

(** ** The multi-writer engine *)

(** C2: elaboration of the multi-writer engine with W declared write ports
    and R declared read ports always succeeds and instantiates, for each
    writer, W-1 relay banks followed by the R banks of its replicator:
    W * (W - 1 + R) primitive banks in total. *)
Theorem xor_bank_count :
  forall (self : MultiportXORMemory.t),
    let W := length (MultiportXORMemory.write_ports self) in
    let R := length (MultiportXORMemory.read_ports self) in
    let self' := MultiportXORMemory.set_frozen self true in
    exists d,
      MultiportXORMemory_design self = Ok d /\
      banks d = concat (map (writer_banks self') (seq 0 W)) /\
      (forall index,
         writer_banks self' index =
           map (relay_memory self' index) (seq 0 (W - 1))
           ++ banks (MultiReadMemory_design (built_read_block self' index)) /\
         length (map (relay_memory self' index) (seq 0 (W - 1))) = (W - 1)%nat /\
         length (banks (MultiReadMemory_design (built_read_block self' index))) = R) /\
      length (banks d) = (W * (W - 1 + R))%nat.
Proof.
  intros self W R self'.
  destruct (xor_design_spec self) as (stmts & _ & E).
  eexists. split; [exact E |]. cbn [banks]. split; [reflexivity |]. split.
  - intros index. split; [reflexivity |]. split.
    + rewrite length_map, length_seq. reflexivity.
    + apply (block_banks_length self').
  - rewrite (length_concat_const _ _ (W - 1 + R)).
    + rewrite length_seq. reflexivity.
    + intros index. apply (writer_banks_length self').
Qed.

(** ** Events of elaboration *)

Lemma Forall_concat_map {A B} (P : B -> Prop) (f : A -> list B) (l : list A) :
  (forall x, Forall P (f x)) -> Forall P (concat (map f l)).
Proof.
  intros Hf. induction l as [| x l IH]; [constructor |].
  cbn [map concat]. apply Forall_app. split; [apply Hf | exact IH].
Qed.

Lemma imap_index_only {A B} (g : nat -> B) (l : list A) :
  imap (fun k _ => g k) l = map g (seq 0 (length l)).
Proof.
  revert g. induction l as [| x l IH]; intros g; [reflexivity |].
  rewrite imap_cons. cbn [length seq map]. f_equal.
  rewrite <- seq_shift, map_map. apply (IH (fun k => g (S k))).
Qed.

Lemma single_elaborate_self (self : MultiReadMemory.t) :
  fst (fst (MultiReadMemory.elaborate self)) = MultiReadMemory.set_frozen self true.
Proof.
  unfold MultiReadMemory.elaborate.
  destruct (MultiReadMemory.write_ports _); [reflexivity |].
  destruct (MultiReadMemory.elaborate_ports _ _ _ _). reflexivity.
Qed.

Lemma single_trace (self : MultiReadMemory.t) :
  let o := MultiReadMemory.oid self in
  let R := length (MultiReadMemory.read_ports self) in
  let W := length (MultiReadMemory.write_ports self) in
  trace (MultiReadMemory_design self) =
  EvFreeze o ::
    match MultiReadMemory.write_ports self with
    | [] => []
    | _ :: _ => map (fun k => EvMemory (Replica o k) o true R W) (seq 0 R)
    end.
Proof.
  intros o R W. destruct (MultiReadMemory.write_ports self) as [| wp wps] eqn:Hw.
  - rewrite (design_without_writer self Hw). reflexivity.
  - rewrite (design_with_writer self wp wps Hw). cbn [trace]. f_equal.
    rewrite imap_index_only. subst W. rewrite <- Hw. reflexivity.
Qed.

Lemma block_trace_closed (self : MultiportXORMemory.t) (index : nat) :
  let R := length (MultiportXORMemory.read_ports self) in
  block_trace self index =
  EvFreeze (ReadBlock index)
    :: map (fun k => EvMemory (Replica (ReadBlock index) k) (ReadBlock index)
                       true R 1)
           (seq 0 R).
Proof.
  intros R. unfold block_trace. rewrite single_trace.
  destruct (built_read_block_facts self index) as ((Ho & _) & _ & Hr & wp & Hw & _).
  rewrite Hw, Hr, Ho. reflexivity.
Qed.

(** C9: for both engines the first event of elaboration is the freezing of
    the registry, and every construction of a primitive bank happens after
    it, with the registry of the constructing engine frozen and holding its
    final numbers of read and write ports.  For the multi-writer engine the
    relay banks are constructed under its own frozen registry (R and W
    ports); the banks of each replicator are constructed by that replicator,
    after it froze its own registry (R read ports, one write port). *)
Theorem freeze_precedes_banks :
  (forall (self : MultiReadMemory.t),
     let o := MultiReadMemory.oid self in
     let self' := fst (fst (MultiReadMemory.elaborate self)) in
     let R := length (MultiReadMemory.read_ports self') in
     let W := length (MultiReadMemory.write_ports self') in
     MultiReadMemory._frozen self' = true /\
     MultiReadMemory.read_ports self' = MultiReadMemory.read_ports self /\
     MultiReadMemory.write_ports self' = MultiReadMemory.write_ports self /\
     exists rest,
       trace (MultiReadMemory_design self) = EvFreeze o :: rest /\
       Forall (fun e => exists k, e = EvMemory (Replica o k) o true R W) rest /\
       Forall built_while_frozen (trace (MultiReadMemory_design self))) /\
  (forall (self : MultiportXORMemory.t),
     let o := MultiportXORMemory.oid self in
     let R := length (MultiportXORMemory.read_ports self) in
     let W := length (MultiportXORMemory.write_ports self) in
     exists d self' m log relays,
       MultiportXORMemory_design self = Ok d /\
       MultiportXORMemory.elaborate self = Ok (self', m, log) /\
       MultiportXORMemory._frozen self' = true /\
       MultiportXORMemory.read_ports self' = MultiportXORMemory.read_ports self /\
       MultiportXORMemory.write_ports self' = MultiportXORMemory.write_ports self /\
       trace d =
         EvFreeze o :: relays ++
         concat (map (fun index =>
                        EvFreeze (ReadBlock index)
                          :: map (fun k => EvMemory (Replica (ReadBlock index) k)
                                             (ReadBlock index) true R 1)
                                 (seq 0 R))
                     (seq 0 W)) /\
       Forall (fun e => exists i j, e = EvMemory (Relay i j) o true R W) relays /\
       Forall built_while_frozen (trace d)).
Proof.
  split.
  - intros self o self' R W. subst self' R W. rewrite single_elaborate_self.
    split; [reflexivity |]. split; [reflexivity |]. split; [reflexivity |].
    rewrite single_trace. fold o.
    change (MultiReadMemory.read_ports (MultiReadMemory.set_frozen self true))
      with (MultiReadMemory.read_ports self).
    change (MultiReadMemory.write_ports (MultiReadMemory.set_frozen self true))
      with (MultiReadMemory.write_ports self).
    eexists. split; [reflexivity |].
    destruct (MultiReadMemory.write_ports self) as [| wp wps]; split.
    + constructor.
    + repeat constructor.
    + apply Forall_forall. intros e He.
      apply list_elem_of_In, in_map_iff in He as (k & <- & _). eauto.
    + constructor; [exact I |]. apply Forall_forall. intros e He.
      apply list_elem_of_In, in_map_iff in He as (k & <- & _). reflexivity.
  - intros self o R W.
    destruct (xor_design_spec self) as (stmts & _ & Ed).
    destruct (xor_elaborate_spec self) as (m & stmts' & Ee & _).
    eexists _, _, _, _, _. split; [exact Ed |]. split; [exact Ee |].
    split; [reflexivity |]. split; [reflexivity |]. split; [reflexivity |].
    cbn [trace].
    assert (Hblocks :
      concat (map (block_trace (MultiportXORMemory.set_frozen self true)) (seq 0 W))
      = concat (map (fun index =>
                       EvFreeze (ReadBlock index)
                         :: map (fun k => EvMemory (Replica (ReadBlock index) k)
                                            (ReadBlock index) true R 1)
                                (seq 0 R))
                    (seq 0 W))).
    { f_equal. apply map_ext. intros index.
      apply (block_trace_closed (MultiportXORMemory.set_frozen self true)). }
    assert (Hrel : Forall (fun e => exists i j, e = EvMemory (Relay i j) o true R W)
              (concat (map (writer_events (MultiportXORMemory.set_frozen self true))
                           (seq 0 W)))).
    { apply Forall_concat_map. intros index. apply Forall_forall. intros e He.
      apply list_elem_of_In, in_map_iff in He as (i & <- & _).
      exists index, i. reflexivity. }
    subst o R W. split; [| split].
    + rewrite Hblocks. reflexivity.
    + exact Hrel.
    + rewrite Hblocks. cbn [app]. constructor; [exact I |].
      apply Forall_app. split.
      * eapply Forall_impl; [exact Hrel |].
        intros e (i & j & ->). reflexivity.
      * apply Forall_concat_map. intros index. constructor; [exact I |].
        apply Forall_forall. intros e He.
        apply list_elem_of_In, in_map_iff in He as (k & <- & _). reflexivity.
Qed.

(** ** Who drives what in an elaborated MultiportXORMemory *)

Lemma xor_session_wf o (self : MultiportXORMemory.t) cs :
  xor_wf o self -> xor_wf o (snd (MultiportXORMemory_session self cs)).
Proof.
  revert self. induction cs as [| c cs IH]; intros self H; [exact H |].
  rewrite xor_session_cons. cbn [snd]. apply IH. clear IH.
  destruct H as (Ho & Hr & Hw). destruct c.
  - cbn [MultiportXORMemory_call]. unfold MultiportXORMemory.read_port.
    destruct (MultiportXORMemory._frozen self); [exact (conj Ho (conj Hr Hw)) |].
    split; [exact Ho |]. split; [| exact Hw]. simpl. rewrite Ho.
    apply (read_ports_of_snoc o _ (MultiportXORMemory.shape self)
             (MultiportXORMemory.depth self) (MultiportXORMemory.init self)
             transparent_for (1 + src_loc_at)%Z Hr).
  - cbn [MultiportXORMemory_call]. unfold MultiportXORMemory.write_port.
    destruct (MultiportXORMemory._frozen self); [exact (conj Ho (conj Hr Hw)) |].
    split; [exact Ho |]. split; [exact Hr |]. simpl. rewrite Ho.
    apply (write_ports_of_snoc o _ (MultiportXORMemory.shape self)
             (MultiportXORMemory.depth self) (MultiportXORMemory.init self)
             granularity (1 + src_loc_at)%Z Hw).
  - rewrite xor_elaborate_call. exact (conj Ho (conj Hr Hw)).
Qed.

Lemma xor_init_wf o shape depth init attrs loc :
  xor_wf o (MultiportXORMemory.__init__ o shape depth init attrs loc).
Proof.
  split; [reflexivity | split; [apply read_ports_of_nil | apply write_ports_of_nil]].
Qed.

Lemma elem_of_concat_map {A B} (f : A -> list B) (l : list A) (b : B) :
  b ∈ concat (map f l) <-> exists x, x ∈ l /\ b ∈ f x.
Proof.
  induction l as [| y l IH].
  - simpl. split; [intros H; inversion H | intros (x & H & _); inversion H].
  - cbn [map concat]. rewrite elem_of_app, IH. split.
    + intros [H | (x & Hx & Hb)].
      * exists y. split; [apply list_elem_of_here | exact H].
      * exists x. split; [apply list_elem_of_further, Hx | exact Hb].
    + intros (x & Hx & Hb). apply elem_of_cons in Hx as [-> | Hx].
      * left. exact Hb.
      * right. exists x. split; assumption.
Qed.

Lemma block_wiring_closed (self : MultiportXORMemory.t) (index : nat) :
  block_wiring self index =
  concat (map (block_stmts index)
              (seq 0 (length (MultiportXORMemory.read_ports self)))).
Proof.
  unfold block_wiring.
  destruct (built_read_block_facts self index)
    as ((Ho & Hrp & _) & _ & Hr & wp & Hw & He & Ha & Hd).
  rewrite (design_with_writer _ wp [] Hw). cbn [wiring].
  rewrite <- Hr, <- imap_index_only. f_equal. apply imap_ext.
  intros k q Hk. destruct (Hrp k q Hk) as (Hqe & Hqa & Hqd).
  unfold replica_wiring, block_stmts.
  change (MultiReadMemory.oid (MultiReadMemory.set_frozen
            (built_read_block self index) true))
    with (MultiReadMemory.oid (built_read_block self index)).
  rewrite Ho, Hqe, Hqa, Hqd, He, Ha, Hd. reflexivity.
Qed.

Lemma read_port_drivers_closed (self : MultiportXORMemory.t) :
  xor_wf Top self ->
  read_port_drivers self =
  map (fun k => mkAssign (PortSig Top Rd k Data)
                  (read_combination (length (MultiportXORMemory.write_ports self)) k))
      (seq 0 (length (MultiportXORMemory.read_ports self))).
Proof.
  intros (_ & Hr & _). unfold read_port_drivers.
  rewrite <- imap_index_only. apply imap_ext.
  intros k p Hk. destruct (Hr k p Hk) as (_ & _ & ->). reflexivity.
Qed.

Lemma eval_read_combination env n k :
  eval env (read_combination n k) =
  fold_left Z.lxor
    (map (fun i => env (PortSig (ReadBlock i) Rd k Data)) (seq 0 n))
    (env (LocalSig ReadXors k)).
Proof.
  induction n as [| n IH]; [reflexivity |].
  rewrite read_combination_S, seq_S, map_app, fold_left_app. cbn [eval].
  rewrite IH. reflexivity.
Qed.

Section XorWiring.
Variable self : MultiportXORMemory.t.
Hypothesis Hwf : xor_wf Top self.
Variable stmts : list Assign.
Hypothesis Hstmts : Forall (fun a => writer_loop_lhs (lhs a)) stmts.

Let W := length (MultiportXORMemory.write_ports self).
Let R := length (MultiportXORMemory.read_ports self).
Let wires :=
  (stmts ++ read_port_drivers self)
  ++ concat (map (block_wiring (MultiportXORMemory.set_frozen self true)) (seq 0 W)).

Lemma wires_cases a :
  a ∈ wires ->
  writer_loop_lhs (lhs a) \/
  (exists k, (k < R)%nat /\
     a = mkAssign (PortSig Top Rd k Data) (read_combination W k)) \/
  (exists index k, (index < W)%nat /\ (k < R)%nat /\ a ∈ block_stmts index k).
Proof.
  unfold wires. rewrite !elem_of_app. intros [[Ha | Ha] | Ha].
  - left. rewrite Forall_forall in Hstmts. apply Hstmts, Ha.
  - right. left. rewrite (read_port_drivers_closed self Hwf) in Ha.
    apply list_elem_of_In, in_map_iff in Ha as (k & <- & Hk).
    apply in_seq in Hk. exists k. split; [unfold R; lia | reflexivity].
  - right. right. apply elem_of_concat_map in Ha as (index & Hi & Ha).
    rewrite block_wiring_closed in Ha.
    apply elem_of_concat_map in Ha as (k & Hk & Ha).
    apply elem_of_seq in Hi. apply elem_of_seq in Hk.
    change (length (MultiportXORMemory.read_ports
                      (MultiportXORMemory.set_frozen self true))) with R in Hk.
    exists index, k. split; [lia |]. split; [lia | exact Ha].
Qed.

Lemma wires_read_driver k :
  (k < R)%nat ->
  mkAssign (PortSig Top Rd k Data) (read_combination W k) ∈ wires.
Proof.
  intros Hk. unfold wires. rewrite !elem_of_app. left. right.
  rewrite (read_port_drivers_closed self Hwf).
  apply list_elem_of_In, in_map_iff. exists k. split; [reflexivity |].
  apply in_seq. unfold R in Hk. lia.
Qed.

Lemma wires_block_stmt index k a :
  (index < W)%nat -> (k < R)%nat -> a ∈ block_stmts index k -> a ∈ wires.
Proof.
  intros Hi Hk Ha. unfold wires. rewrite !elem_of_app. right.
  apply elem_of_concat_map. exists index. split; [apply elem_of_seq; lia |].
  rewrite block_wiring_closed. apply elem_of_concat_map.
  exists k. split; [| exact Ha]. apply elem_of_seq.
  change (length (MultiportXORMemory.read_ports
                    (MultiportXORMemory.set_frozen self true))) with R. lia.
Qed.

Lemma xor_driver_read k :
  (k < R)%nat ->
  driver wires (PortSig Top Rd k Data) = Some (read_combination W k).
Proof.
  intros Hk. apply driver_unique; [apply wires_read_driver, Hk |].
  intros a Ha Hl.
  destruct (wires_cases a Ha)
    as [Hc | [(k' & Hk' & ->) | (i' & k' & Hi' & Hk' & Hin)]].
  - rewrite Hl in Hc. destruct Hc.
  - simpl in Hl. injection Hl as ->. reflexivity.
  - unfold block_stmts in Hin. elem_cases Hin; subst a; discriminate Hl.
Qed.

Lemma xor_driver_local l n : driver wires (LocalSig l n) = None.
Proof.
  apply driver_none. intros a Ha Hl.
  destruct (wires_cases a Ha)
    as [Hc | [(k' & Hk' & ->) | (i' & k' & Hi' & Hk' & Hin)]].
  - rewrite Hl in Hc. destruct Hc.
  - discriminate Hl.
  - unfold block_stmts in Hin. elem_cases Hin; subst a; discriminate Hl.
Qed.

Lemma xor_driver_block_data index k :
  (index < W)%nat -> (k < R)%nat ->
  driver wires (PortSig (ReadBlock index) Rd k Data)
  = Some (VSig (PhysSig (Replica (ReadBlock index) k) Rd Data)).
Proof.
  intros Hi Hk. apply driver_unique.
  - apply (wires_block_stmt index k); [exact Hi | exact Hk |].
    unfold block_stmts. elem_solve.
  - intros a Ha Hl.
    destruct (wires_cases a Ha)
      as [Hc | [(k' & Hk' & ->) | (i' & k' & Hi' & Hk' & Hin)]].
    + rewrite Hl in Hc. destruct Hc.
    + discriminate Hl.
    + unfold block_stmts in Hin. elem_cases Hin; subst a;
        try discriminate Hl.
      simpl in Hl. injection Hl as -> ->. reflexivity.
Qed.

Lemma xor_driver_replica_data o k :
  driver wires (PhysSig (Replica o k) Rd Data) = None.
Proof.
  apply driver_none. intros a Ha Hl.
  destruct (wires_cases a Ha)
    as [Hc | [(k' & Hk' & ->) | (i' & k' & Hi' & Hk' & Hin)]].
  - rewrite Hl in Hc. destruct Hc.
  - discriminate Hl.
  - unfold block_stmts in Hin. elem_cases Hin; subst a; discriminate Hl.
Qed.

Lemma xor_settle_block_data fuel u index k :
  (index < W)%nat -> (k < R)%nat ->
  settle (S fuel) wires u (PortSig (ReadBlock index) Rd k Data)
  = u (PhysSig (Replica (ReadBlock index) k) Rd Data).
Proof.
  intros Hi Hk.
  rewrite (settle_driven _ _ _ _ _ (xor_driver_block_data index k Hi Hk)).
  cbn [eval]. apply settle_undriven, xor_driver_replica_data.
Qed.

Lemma xor_settle_read fuel tb st k :
  (k < R)%nat ->
  settle (S (S fuel)) wires (undriven tb st) (PortSig Top Rd k Data)
  = xor_all (map (fun index =>
                    settle (S fuel) wires (undriven tb st)
                      (PortSig (ReadBlock index) Rd k Data))
                 (seq 0 W)).
Proof.
  intros Hk.
  rewrite (settle_driven _ _ _ _ _ (xor_driver_read k Hk)).
  rewrite eval_read_combination.
  rewrite (settle_undriven _ _ _ _ (xor_driver_local ReadXors k)).
  reflexivity.
Qed.

Lemma wires_length k : (k < R)%nat -> (1 <= length wires)%nat.
Proof.
  intros Hk. pose proof (wires_read_driver k Hk) as Hin.
  destruct wires; [inversion Hin | simpl; lia].
Qed.
End XorWiring.

(** C4: in an elaborated multi-writer engine with W writers, the [data] of
    logical read port [k] is driven by the XOR of an anonymous signal that
    nothing drives (so it reads 0) with the [data] of read port [k] of the
    replicator of every writer; hence in every cycle the output of read port
    [k] is the XOR, over all writers [i] in [0, W), of reader [k]'s output
    from writer [i]'s replicator. *)
Theorem xor_read_reconstruction :
  forall (shape : ShapeLike) (depth : Z) (init : list Z) (attrs : Attrs)
         (loc : Z) (cs : list call) (self : MultiportXORMemory.t),
    self = snd (MultiportXORMemory_session
                  (MultiportXORMemory.__init__ Top shape depth init attrs loc) cs) ->
    let W := length (MultiportXORMemory.write_ports self) in
    exists d,
      MultiportXORMemory_design self = Ok d /\
      forall k p,
        MultiportXORMemory.read_ports self !! k = Some p ->
        (forall index, (index < W)%nat ->
           exists q,
             MultiReadMemory.read_ports
               (built_read_block (MultiportXORMemory.set_frozen self true) index)
               !! k = Some q /\
             ReadPort.data q = PortSig (ReadBlock index) Rd k Data) /\
        driver (wiring d) (ReadPort.data p) = Some (read_combination W k) /\
        driver (wiring d) (LocalSig ReadXors k) = None /\
        (forall env, env (LocalSig ReadXors k) = 0%Z ->
           eval env (read_combination W k) =
           xor_all (map (fun index => env (PortSig (ReadBlock index) Rd k Data))
                        (seq 0 W))) /\
        (forall tb st,
           cycle_value d tb st (ReadPort.data p) =
           xor_all (map (fun index =>
                           cycle_value d tb st (PortSig (ReadBlock index) Rd k Data))
                        (seq 0 W))).
Proof.
  intros shape depth init attrs loc cs self Hself W.
  assert (Hwf : xor_wf Top self).
  { rewrite Hself. apply xor_session_wf, xor_init_wf. }
  destruct (xor_design_spec self) as (stmts & F & Ed).
  eexists. split; [exact Ed |]. cbn [wiring].
  intros k p Hk.
  pose proof (lookup_lt_Some _ _ _ Hk) as Hlt.
  destruct Hwf as (Ho & Hr & Hw). destruct (Hr k p Hk) as (_ & _ & ->).
  assert (Hwf : xor_wf Top self) by exact (conj Ho (conj Hr Hw)).
  split; [| split; [| split; [| split]]].
  - intros index Hi.
    destruct (built_read_block_facts (MultiportXORMemory.set_frozen self true) index)
      as ((_ & Hrp & _) & _ & Hlen & _).
    assert (Hkq : (k < length (MultiReadMemory.read_ports
                     (built_read_block (MultiportXORMemory.set_frozen self true)
                        index)))%nat)
      by (rewrite Hlen; exact Hlt).
    destruct (lookup_lt_is_Some_2 _ k Hkq) as [q Hq].
    exists q. split; [exact Hq |]. apply (Hrp k q Hq).
  - apply (xor_driver_read self Hwf stmts F k Hlt).
  - apply (xor_driver_local self Hwf stmts F).
  - intros env Henv. rewrite eval_read_combination, Henv. reflexivity.
  - intros tb st. unfold cycle_value. cbn [wiring].
    pose proof (wires_length self Hwf stmts k Hlt) as Hlen.
    match type of Hlen with
    | (1 <= ?n)%nat => destruct n as [| L]; [lia |]
    end.
    rewrite (xor_settle_read self Hwf stmts F L tb st k Hlt).
    f_equal. apply map_ext_in. intros index Hi. apply in_seq in Hi.
    rewrite !(xor_settle_block_data self Hwf stmts F _ _ index k) by (unfold W in *; lia).
    reflexivity.
Qed.

(** Scenario B: the read port is the XOR of the two replicators. *)
Lemma xor_read_reconstruction_witness :
  exists d,
    MultiportXORMemory_design scenario_B = Ok d /\
    (exists q,
       MultiReadMemory.read_ports
         (built_read_block (MultiportXORMemory.set_frozen scenario_B true) 1)
         !! 0%nat = Some q /\
       ReadPort.data q = PortSig (ReadBlock 1) Rd 0 Data) /\
    eval (fun _ => 0%Z) (read_combination 2 0) = 0%Z /\
    cycle_value d (fun _ => 0%Z) (fun _ => mkBank [] 5%Z) (PortSig Top Rd 0 Data)
    = xor_all (map (fun index =>
                      cycle_value d (fun _ => 0%Z) (fun _ => mkBank [] 5%Z)
                        (PortSig (ReadBlock index) Rd 0 Data))
                   (seq 0 2)).
Proof.
  destruct (xor_read_reconstruction 8%Z 8%Z [] None 0%Z scenario_B_calls
              scenario_B eq_refl) as (d & Ed & H).
  exists d. split; [exact Ed |].
  destruct (H 0%nat (fst (ReadPort.__init__ Top [] 8%Z 8%Z [] [] 1%Z)) eq_refl)
    as (Hq & _ & _ & He & Hc).
  split; [| split].
  - apply (Hq 1%nat). repeat constructor.
  - exact (He (fun _ => 0%Z) eq_refl).
  - exact (Hc (fun _ => 0%Z) (fun _ => mkBank [] 5%Z)).
Defined.

(** C1 (code at the failing input): two writers and one reader.  The relay
    bank [memory_1_0] of writer 1 is the one read at writer 0's address, yet
    the value committed by writer 0, to its relay bank [memory_0_0] and to
    its replicator, is its raw input XORed with an undriven signal only: the
    expression was taken from [write_xors[0]] before the loop for writer 1
    XORed the read data of [memory_1_0] into it.  With writer 0 driving 0 and
    [memory_1_0] returning 1, the committed value is 0 where the XOR with the
    fetched value is 1.  Writer 1, wired later, does include [memory_0_0]. *)
Lemma xor_commit_misses_later_relay :
  exists d,
    MultiportXORMemory_design scenario_B = Ok d /\
    driver (wiring d) (PhysSig (Relay 1 0) Rd Addr)
      = Some (VSig (PortSig Top Wr 0 Addr)) /\
    driver (wiring d) (PhysSig (Relay 0 0) Wr Data)
      = Some (VXor (VSig (PortSig Top Wr 0 Data)) (VSig (LocalSig WriteXors 0))) /\
    driver (wiring d) (PortSig (ReadBlock 0) Wr 0 Data)
      = Some (VXor (VSig (PortSig Top Wr 0 Data)) (VSig (LocalSig WriteXors 0))) /\
    driver (wiring d) (PhysSig (Relay 1 0) Wr Data)
      = Some (VXor (VSig (PortSig Top Wr 1 Data))
                (VXor (VSig (PhysSig (Relay 0 0) Rd Data))
                   (VSig (LocalSig WriteXors 1)))) /\
    let tb := fun _ : signal => 0%Z in
    let st := fun b : bank_id =>
                mkBank [] (if decide (b = Relay 1 0) then 1%Z else 0%Z) in
    cycle_value d tb st (PhysSig (Relay 0 0) Wr Data) = 0%Z /\
    cycle_value d tb st (PortSig (ReadBlock 0) Wr 0 Data) = 0%Z /\
    Z.lxor (cycle_value d tb st (PortSig Top Wr 0 Data))
           (cycle_value d tb st (PhysSig (Relay 1 0) Rd Data)) = 1%Z.
Proof.
  eexists. split; [vm_compute; reflexivity |].
  vm_compute. repeat split; reflexivity.
Qed.

(** ** What a writer commits *)

Lemma getitem_Ok {A} (l : list A) (i : nat) (x : A) :
  getitem l i = Ok x -> l !! i = Some x.
Proof. unfold getitem. destruct (l !! i); [congruence | discriminate]. Qed.

Lemma setitem_Ok {A} (l : list A) (i : nat) (x : A) (l' : list A) :
  setitem l i x = Ok l' -> l' = <[i := x]> l /\ (i < length l)%nat.
Proof.
  unfold setitem. destruct (decide (i < length l)%nat); [| discriminate].
  intros [= <-]. split; [reflexivity | assumption].
Qed.

Lemma prior_combination_S n index :
  prior_combination (S n) index =
  VXor (VSig (PhysSig (Relay n (index - 1)) Rd Data)) (prior_combination n index).
Proof. unfold prior_combination. rewrite seq_S, fold_left_app. reflexivity. Qed.

Section XorCommit.
Import MultiportXORMemory.
Variable self : t.

Let W := length (write_ports self).

Lemma relay_body_commit n wp i passed s p' s' c :
  relay_body self n wp i (passed, s) = Ok (p', s') ->
  (passed = true <-> (n < i)%nat) ->
  write_xors s !! n = Some c ->
  (p' = true <-> (n < S i)%nat) /\
  write_xors s' !! n = Some c /\
  (forall j, (n < j)%nat ->
     write_xors s' !! j =
     if decide (j - 1 = i)%nat
     then VXor (VSig (PhysSig (Relay n i) Rd Data)) <$> write_xors s !! j
     else write_xors s !! j) /\
  exists stmts,
    comb (m s') = comb (m s) ++ stmts /\
    mkAssign (PhysSig (Relay n i) Wr Data) c ∈ stmts.
Proof.
  intros H Hp Hc. unfold relay_body in H.
  set (passed' := if decide (i = n) then true else passed) in H.
  assert (Hp' : passed' = true <-> (n < S i)%nat).
  { subst passed'. destruct (decide (i = n)) as [-> | Hne].
    - split; [lia | reflexivity].
    - rewrite Hp. lia. }
  set (idx := if passed' then (i + 1)%nat else i) in H.
  assert (Hidx : idx <> n /\ forall j, (n < j)%nat -> (j = idx <-> (j - 1 = i)%nat)).
  { subst idx. destruct passed'.
    - assert (n < S i)%nat by (apply Hp'; reflexivity). split; [lia |]. intros; lia.
    - assert (~ (n < S i)%nat) by (rewrite <- Hp'; discriminate).
      split; [lia |]. intros; lia. }
  destruct Hidx as (Hne & Hj).
  apply bind_Ok in H as (old & H1 & H). apply getitem_Ok in H1.
  apply bind_Ok in H as (wx & H2 & H). apply setitem_Ok in H2 as (-> & Hlt).
  apply bind_Ok in H as (committed & H3 & H). apply getitem_Ok in H3.
  apply bind_Ok in H as (other & H4 & H).
  injection H as <- <-.
  rewrite list_lookup_insert_ne in H3 by exact Hne.
  assert (committed = c) by congruence. subst committed.
  split; [exact Hp' |]. cbn [write_xors m comb add_comb add_submodule].
  split; [rewrite list_lookup_insert_ne by exact Hne; exact Hc |]. split.
  - intros j Hnj. destruct (decide (j - 1 = i)%nat) as [Hji | Hji].
    + apply (Hj j Hnj) in Hji. subst j.
      rewrite list_lookup_insert_eq by exact Hlt. rewrite H1. reflexivity.
    + apply list_lookup_insert_ne. intros <-. apply Hji, (Hj idx Hnj). reflexivity.
  - eexists. split; [reflexivity |]. elem_solve.
Qed.

Lemma relay_loop_commit n wp c : forall len a passed s p' s',
  relay_loop self n wp (seq a len) (passed, s) = Ok (p', s') ->
  (passed = true <-> (n < a)%nat) ->
  write_xors s !! n = Some c ->
  write_xors s' !! n = Some c /\
  (forall j, (n < j)%nat ->
     write_xors s' !! j =
     if decide (a <= j - 1 < a + len)%nat
     then VXor (VSig (PhysSig (Relay n (j - 1)) Rd Data)) <$> write_xors s !! j
     else write_xors s !! j) /\
  exists stmts,
    comb (m s') = comb (m s) ++ stmts /\
    forall i, (a <= i < a + len)%nat ->
      mkAssign (PhysSig (Relay n i) Wr Data) c ∈ stmts.
Proof.
  induction len as [| len IH]; intros a passed s p' s' H Hp Hc.
  - simpl in H. injection H as <- <-. split; [exact Hc |]. split.
    + intros j Hj. rewrite decide_False by lia. reflexivity.
    + exists []. rewrite app_nil_r. split; [reflexivity |]. intros i Hi. lia.
  - cbn [seq relay_loop] in H.
    apply bind_Ok in H as ([p1 s1] & H1 & H).
    destruct (relay_body_commit n wp a passed s p1 s1 c H1 Hp Hc)
      as (Hp1 & Hc1 & Hj1 & st1 & Hm1 & Hin1).
    destruct (IH (S a) p1 s1 p' s' H Hp1 Hc1) as (Hc2 & Hj2 & st2 & Hm2 & Hin2).
    split; [exact Hc2 |]. split.
    + intros j Hj. rewrite (Hj2 j Hj), (Hj1 j Hj).
      destruct (decide (j - 1 = a)%nat) as [E | E].
      * rewrite decide_False by lia. rewrite decide_True by lia.
        rewrite E. reflexivity.
      * destruct (decide (S a <= j - 1 < S a + len)%nat).
        -- rewrite decide_True by lia. reflexivity.
        -- rewrite decide_False by lia. reflexivity.
    + exists (st1 ++ st2). rewrite Hm2, Hm1, <- app_assoc.
      split; [reflexivity |]. intros i Hi. apply elem_of_app.
      destruct (decide (i = a)) as [-> | Hne].
      * left. exact Hin1.
      * right. apply Hin2. lia.
Qed.

Lemma fan_out_loop_keeps : forall ps idx s s',
  fan_out_loop self idx ps s = Ok s' ->
  write_xors s' = write_xors s /\
  exists stmts, comb (m s') = comb (m s) ++ stmts.
Proof.
  induction ps as [| port rest IH]; intros idx s s' H.
  - simpl in H. injection H as <-. split; [reflexivity |].
    exists []. rewrite app_nil_r. reflexivity.
  - cbn [fan_out_loop] in H.
    apply bind_Ok in H as (old & _ & H).
    apply bind_Ok in H as (rx & _ & H).
    apply bind_Ok in H as (logical & _ & H).
    apply IH in H as (Hw & st & Hm). cbn [write_xors m comb add_comb] in Hw, Hm.
    split; [exact Hw |]. eexists. rewrite Hm, <- app_assoc. reflexivity.
Qed.

Lemma drive_read_ports_keeps : forall todo index s s',
  drive_read_ports index todo s = Ok s' ->
  exists stmts, comb (m s') = comb (m s) ++ stmts.
Proof.
  induction todo as [| port rest IH]; intros index s s' H.
  - simpl in H. injection H as <-. exists []. rewrite app_nil_r. reflexivity.
  - cbn [drive_read_ports] in H.
    apply bind_Ok in H as (combined & _ & H).
    apply IH in H as (st & Hm). cbn [m comb add_comb] in Hm.
    eexists. rewrite Hm, <- app_assoc. reflexivity.
Qed.

Lemma writer_body_commit n wp s s' :
  writer_body self n wp s = Ok s' ->
  (forall j, (n <= j < W)%nat ->
     write_xors s !! j = Some (prior_combination n j)) ->
  (n < W)%nat ->
  (forall j, (n < j < W)%nat ->
     write_xors s' !! j = Some (prior_combination (S n) j)) /\
  exists stmts,
    comb (m s') = comb (m s) ++ stmts /\
    (forall i, (i < W - 1)%nat ->
       mkAssign (PhysSig (Relay n i) Wr Data) (committed_value wp n) ∈ stmts) /\
    mkAssign (PortSig (ReadBlock n) Wr 0 Data) (committed_value wp n) ∈ stmts.
Proof.
  intros H Hinv Hn. unfold writer_body in H.
  apply bind_Ok in H as (old & H1 & H). apply getitem_Ok in H1.
  rewrite (Hinv n) in H1 by lia. injection H1 as <-.
  apply bind_Ok in H as (seeded & H2 & H). apply setitem_Ok in H2 as (-> & Hlt).
  apply bind_Ok in H as ([p2 s2] & H3 & H).
  apply (relay_loop_commit n wp (committed_value wp n)) in H3
    as (Hc & Hj & st & Hm & Hin);
    [| split; [discriminate | lia]
     | cbn [write_xors]; apply list_lookup_insert_eq; exact Hlt ].
  cbn [write_xors m] in Hj, Hm.
  change (MultiReadMemory.write_port _ None 0%Z)
    with (Ok (fst (WritePort.__init__ (ReadBlock n) [] (shape self)
                     (depth self) (init self) None (1 + 0)%Z),
              snd (MultiReadMemory_call
                     (MultiReadMemory.__init__ (ReadBlock n) (shape self)
                        (depth self) (init self) (attrs self) (src_loc self))
                     (CallWritePort None 0%Z)))) in H.
  cbn [bind] in H.
  apply bind_Ok in H as ([ps blk] & _ & H).
  apply bind_Ok in H as (committed & H4 & H). apply getitem_Ok in H4.
  assert (committed = committed_value wp n) by congruence. subst committed.
  apply fan_out_loop_keeps in H as (Hw & stf & Hmf).
  cbn [write_xors m comb add_comb add_submodule] in Hw, Hmf.
  split.
  - intros j Hjn. rewrite Hw, Hj by lia. rewrite decide_True by (unfold W in *; lia).
    rewrite list_lookup_insert_ne by lia. rewrite (Hinv j) by lia.
    rewrite prior_combination_S. reflexivity.
  - eexists. rewrite Hmf, Hm, <- !app_assoc. split; [reflexivity |]. split.
    + intros i Hi. apply elem_of_app. left. apply Hin. unfold W in *. lia.
    + apply elem_of_app. right. apply elem_of_app. left.
      apply list_elem_of_further, list_elem_of_here.
Qed.

Lemma writers_loop_commit : forall todo n s s',
  writers_loop self n todo s = Ok s' ->
  (n + length todo = W)%nat ->
  (forall j, (n <= j < W)%nat ->
     write_xors s !! j = Some (prior_combination n j)) ->
  exists stmts,
    comb (m s') = comb (m s) ++ stmts /\
    forall k wp, todo !! k = Some wp ->
      (forall i, (i < W - 1)%nat ->
         mkAssign (PhysSig (Relay (n + k) i) Wr Data) (committed_value wp (n + k))
           ∈ stmts) /\
      mkAssign (PortSig (ReadBlock (n + k)) Wr 0 Data) (committed_value wp (n + k))
        ∈ stmts.
Proof.
  induction todo as [| wp rest IH]; intros n s s' H Hlen Hinv.
  - simpl in H. injection H as <-. exists []. rewrite app_nil_r.
    split; [reflexivity |]. intros k wp Hk. discriminate.
  - cbn [writers_loop] in H. cbn [length] in Hlen.
    apply bind_Ok in H as (s1 & H1 & H).
    destruct (writer_body_commit n wp s s1 H1 Hinv ltac:(lia))
      as (Hinv1 & st1 & Hm1 & Hrel1 & Hblk1).
    destruct (IH (S n) s1 s' H ltac:(lia)) as (st2 & Hm2 & Hrest).
    { intros j Hj. apply Hinv1. lia. }
    exists (st1 ++ st2). rewrite Hm2, Hm1, <- app_assoc. split; [reflexivity |].
    intros [| k] wp' Hk.
    + injection Hk as <-. rewrite Nat.add_0_r. split.
      * intros i Hi. apply elem_of_app. left. apply Hrel1, Hi.
      * apply elem_of_app. left. exact Hblk1.
    + replace (n + S k)%nat with (S n + k)%nat by lia.
      destruct (Hrest k wp' Hk) as (Hr & Hb). split.
      * intros i Hi. apply elem_of_app. right. apply Hr, Hi.
      * apply elem_of_app. right. exact Hb.
Qed.
End XorCommit.

Lemma eval_prior_combination env n index :
  eval env (prior_combination n index) =
  fold_left Z.lxor
    (map (fun j => env (PhysSig (Relay j (index - 1)) Rd Data)) (seq 0 n))
    (env (LocalSig WriteXors index)).
Proof.
  induction n as [| n IH]; [reflexivity |].
  rewrite prior_combination_S, seq_S, map_app, fold_left_app. cbn [eval].
  rewrite IH. apply Z.lxor_comm.
Qed.

(** What every writer commits, for any numbers of ports: the module holds,
    for writer [index], the assignment of [committed_value] to the write data
    of each of its relay banks and of its replicator; its value is the raw
    input XORed with the data read from the relay banks of the writers
    before [index] only. *)
Lemma xor_commit_combines_earlier_writers (self : MultiportXORMemory.t) :
  let W := length (MultiportXORMemory.write_ports self) in
  exists self' m log,
    MultiportXORMemory.elaborate self = Ok (self', m, log) /\
    forall index wp,
      MultiportXORMemory.write_ports self !! index = Some wp ->
      (forall i, (i < W - 1)%nat ->
         mkAssign (PhysSig (Relay index i) Wr Data) (committed_value wp index)
           ∈ comb m) /\
      mkAssign (PortSig (ReadBlock index) Wr 0 Data) (committed_value wp index)
        ∈ comb m /\
      forall env, env (LocalSig WriteXors index) = 0%Z ->
        eval env (committed_value wp index) =
        Z.lxor (env (WritePort.data wp))
          (xor_all (map (fun j => env (PhysSig (Relay j (index - 1)) Rd Data))
                        (seq 0 index))).
Proof.
  intros W.
  destruct (xor_elaborate_spec self) as (m & stmts & E & _).
  eexists _, m, _. split; [exact E |].
  unfold MultiportXORMemory.elaborate in E.
  apply bind_Ok in E as (s1 & E1 & E).
  apply bind_Ok in E as (s2 & E2 & E).
  injection E as <- _.
  apply writers_loop_commit in E1 as (st1 & Hm1 & Hall).
  - apply drive_read_ports_keeps in E2 as (st2 & Hm2).
    intros index wp Hwp.
    destruct (Hall index wp Hwp) as (Hrel & Hblk).
    rewrite Hm2, Hm1. split; [| split].
    + intros i Hi. apply elem_of_app. left. apply elem_of_app. right.
      apply (Hrel i Hi).
    + apply elem_of_app. left. apply elem_of_app. right. exact Hblk.
    + intros env Henv. unfold committed_value. cbn [eval].
      rewrite eval_prior_combination, Henv. reflexivity.
  - reflexivity.
  - intros j Hj. cbn [MultiportXORMemory.write_xors].
    unfold MultiportXORMemory.fresh_signals. rewrite list_lookup_imap.
    destruct (lookup_lt_is_Some_2 (MultiportXORMemory.write_ports
                (MultiportXORMemory.set_frozen self true)) j ltac:(lia)) as [x ->].
    reflexivity.
Qed.

(** * Further properties of the code *)

(** ** Registry invariants *)

Lemma single_call_one_writer (self : MultiReadMemory.t) (c : call) :
  (length (MultiReadMemory.write_ports self) <= 1)%nat ->
  (length (MultiReadMemory.write_ports (snd (MultiReadMemory_call self c))) <= 1)%nat.
Proof.
  intros H. destruct (single_call_ports self c) as [_ Hw]. rewrite Hw.
  destruct c; simpl.
  - unfold MultiReadMemory.read_port.
    destruct (MultiReadMemory._frozen self); simpl; rewrite app_nil_r; exact H.
  - unfold MultiReadMemory.write_port.
    destruct (MultiReadMemory._frozen self); simpl; [rewrite app_nil_r; exact H |].
    destruct (MultiReadMemory.write_ports self) eqn:E; simpl.
    + reflexivity.
    + rewrite app_nil_r. exact H.
  - destruct (MultiReadMemory.elaborate self) as [[s' m'] l]. simpl.
    rewrite app_nil_r. exact H.
Qed.

(** X1: whatever the client calls on a single-writer engine, in whatever
    order and however often, its registry never holds more than one write
    port. *)
Theorem single_writer_at_most_one_write_port :
  forall (o : obj_id) (shape : ShapeLike) (depth : Z) (init : list Z)
         (attrs : Attrs) (loc : Z) (cs : list call),
    (length (MultiReadMemory.write_ports
               (snd (MultiReadMemory_session
                       (MultiReadMemory.__init__ o shape depth init attrs loc) cs)))
     <= 1)%nat.
Proof.
  intros o shape depth init attrs loc cs.
  assert (G : forall self,
             (length (MultiReadMemory.write_ports self) <= 1)%nat ->
             (length (MultiReadMemory.write_ports
                        (snd (MultiReadMemory_session self cs))) <= 1)%nat).
  { induction cs as [| c cs IH]; intros self H; [exact H |].
    rewrite single_session_cons. cbn [snd]. apply IH, single_call_one_writer, H. }
  apply G. simpl. lia.
Qed.

(** X2: the address of a port is wide enough for every row and, from depth
    2 on, no wider: for depth >= 1 every port created through either engine
    has [depth <= 2 ^ addr_width], and for depth >= 2 also
    [2 ^ (addr_width - 1) < depth]. *)
Theorem port_address_covers_depth :
  forall (depth : Z) (r : MultiReadMemory.t) (x : MultiportXORMemory.t)
         (tf : list Any) (g : option Z) (loc : Z),
    (1 <= depth)%Z ->
    MultiReadMemory.depth r = depth ->
    MultiportXORMemory.depth x = depth ->
    (forall p r', MultiReadMemory.read_port r tf loc = Ok (p, r') ->
       (depth <= 2 ^ ReadPort.addr_width p)%Z /\
       ((2 <= depth)%Z -> (2 ^ (ReadPort.addr_width p - 1) < depth)%Z)) /\
    (forall p r', MultiReadMemory.write_port r g loc = Ok (p, r') ->
       (depth <= 2 ^ WritePort.addr_width p)%Z /\
       ((2 <= depth)%Z -> (2 ^ (WritePort.addr_width p - 1) < depth)%Z)) /\
    (forall p x', MultiportXORMemory.read_port x tf loc = Ok (p, x') ->
       (depth <= 2 ^ ReadPort.addr_width p)%Z /\
       ((2 <= depth)%Z -> (2 ^ (ReadPort.addr_width p - 1) < depth)%Z)) /\
    (forall p x', MultiportXORMemory.write_port x g loc = Ok (p, x') ->
       (depth <= 2 ^ WritePort.addr_width p)%Z /\
       ((2 <= depth)%Z -> (2 ^ (WritePort.addr_width p - 1) < depth)%Z)).
Proof.
  intros depth r x tf g loc Hd Hr Hx.
  assert (Hw : (depth <= 2 ^ bits_for (depth - 1))%Z /\
               ((2 <= depth)%Z -> (2 ^ (bits_for (depth - 1) - 1) < depth)%Z)).
  { destruct (decide (depth = 1%Z)) as [-> | Hne].
    - split; [vm_compute; discriminate | lia].
    - rewrite bits_for_pred_depth by lia.
      destruct (Z.log2_up_spec depth ltac:(lia)) as [Hlo Hhi].
      split; [exact Hhi |]. intros _.
      replace (Z.log2_up depth - 1)%Z with (Z.pred (Z.log2_up depth)) by lia.
      exact Hlo. }
  repeat apply conj.
  - intros p r'. unfold MultiReadMemory.read_port.
    destruct (MultiReadMemory._frozen r); [discriminate |].
    simpl. intros [= <- _]. simpl. rewrite Hr. exact Hw.
  - intros p r'. unfold MultiReadMemory.write_port.
    destruct (MultiReadMemory._frozen r); [discriminate |].
    destruct (MultiReadMemory.write_ports r); [| discriminate].
    simpl. intros [= <- _]. simpl. rewrite Hr. exact Hw.
  - intros p x'. unfold MultiportXORMemory.read_port.
    destruct (MultiportXORMemory._frozen x); [discriminate |].
    simpl. intros [= <- _]. simpl. rewrite Hx. exact Hw.
  - intros p x'. unfold MultiportXORMemory.write_port.
    destruct (MultiportXORMemory._frozen x); [discriminate |].
    simpl. intros [= <- _]. simpl. rewrite Hx. exact Hw.
Qed.

(** Depth 5 needs three address bits: 5 <= 8 and 4 < 5. *)
Lemma port_address_covers_depth_witness :
  (1 <= 5)%Z /\
  (5 <= 2 ^ ReadPort.addr_width
              (fst (ReadPort.__init__ Top [] 8%Z 5%Z [] [] 1%Z)))%Z /\
  (2 ^ (ReadPort.addr_width
          (fst (ReadPort.__init__ Top [] 8%Z 5%Z [] [] 1%Z)) - 1) < 5)%Z.
Proof.
  split; [discriminate |].
  pose proof (port_address_covers_depth 5%Z
                (MultiReadMemory.__init__ Top 8%Z 5%Z [] None 0%Z)
                (MultiportXORMemory.__init__ Top 8%Z 5%Z [] None 0%Z)
                [] None 0%Z ltac:(discriminate) eq_refl eq_refl)
    as (H1 & _).
  destruct (H1 _ _ eq_refl) as (Ha & Hb).
  split; [exact Ha | apply Hb; discriminate].
Defined.

(** ** Configuration carried by ports and banks *)

Lemma single_elaborate_call (self : MultiReadMemory.t) :
  snd (MultiReadMemory_call self CallElaborate)
  = MultiReadMemory.set_frozen self true.
Proof.
  pose proof (single_elaborate_self self) as H. simpl.
  destruct (MultiReadMemory.elaborate self) as [[s' m'] l]. exact H.
Qed.

Lemma single_call_fields (self : MultiReadMemory.t) (c : call) :
  let s' := snd (MultiReadMemory_call self c) in
  MultiReadMemory._shape s' = MultiReadMemory._shape self /\
  MultiReadMemory._depth s' = MultiReadMemory._depth self /\
  MultiReadMemory._init s' = MultiReadMemory._init self /\
  MultiReadMemory._attrs s' = MultiReadMemory._attrs self /\
  MultiReadMemory.src_loc s' = MultiReadMemory.src_loc self.
Proof.
  destruct c.
  - simpl. unfold MultiReadMemory.read_port.
    destruct (MultiReadMemory._frozen self); simpl; repeat split.
  - simpl. unfold MultiReadMemory.write_port.
    destruct (MultiReadMemory._frozen self); simpl; [repeat split |].
    destruct (MultiReadMemory.write_ports self); simpl; repeat split.
  - cbn zeta. rewrite single_elaborate_call. repeat split.
Qed.

Lemma single_session_fields (self : MultiReadMemory.t) (cs : list call) :
  let s' := snd (MultiReadMemory_session self cs) in
  MultiReadMemory._shape s' = MultiReadMemory._shape self /\
  MultiReadMemory._depth s' = MultiReadMemory._depth self /\
  MultiReadMemory._init s' = MultiReadMemory._init self /\
  MultiReadMemory._attrs s' = MultiReadMemory._attrs self /\
  MultiReadMemory.src_loc s' = MultiReadMemory.src_loc self.
Proof.
  revert self. induction cs as [| c cs IH]; intros self; [repeat split |].
  cbn zeta. rewrite single_session_cons. cbn [snd].
  destruct (IH (snd (MultiReadMemory_call self c))) as (-> & -> & -> & -> & ->).
  apply single_call_fields.
Qed.

Lemma single_call_records (self : MultiReadMemory.t) (c : call) :
  let sh := MultiReadMemory._shape self in
  let dp := MultiReadMemory._depth self in
  let it := MultiReadMemory._init self in
  Forall (read_port_records sh dp it) (MultiReadMemory.read_ports self) ->
  Forall (write_port_records sh dp it) (MultiReadMemory.write_ports self) ->
  Forall (read_port_records sh dp it)
    (MultiReadMemory.read_ports (snd (MultiReadMemory_call self c))) /\
  Forall (write_port_records sh dp it)
    (MultiReadMemory.write_ports (snd (MultiReadMemory_call self c))).
Proof.
  intros sh dp it Hr Hw. destruct c.
  - simpl. unfold MultiReadMemory.read_port.
    destruct (MultiReadMemory._frozen self); simpl; [split; assumption |].
    split; [| exact Hw]. apply Forall_app. split; [exact Hr |].
    repeat constructor.
  - simpl. unfold MultiReadMemory.write_port.
    destruct (MultiReadMemory._frozen self); simpl; [split; assumption |].
    destruct (MultiReadMemory.write_ports self) eqn:E; simpl.
    + split; [exact Hr |]. unfold MultiReadMemory.write_ports in E. rewrite E.
      repeat constructor.
    + split; [exact Hr |]. unfold MultiReadMemory.write_ports in *.
      rewrite E. exact Hw.
  - rewrite single_elaborate_call. split; assumption.
Qed.

Lemma single_session_records (cs : list call) : forall (self : MultiReadMemory.t),
  let sh := MultiReadMemory._shape self in
  let dp := MultiReadMemory._depth self in
  let it := MultiReadMemory._init self in
  Forall (read_port_records sh dp it) (MultiReadMemory.read_ports self) ->
  Forall (write_port_records sh dp it) (MultiReadMemory.write_ports self) ->
  Forall (read_port_records sh dp it)
    (MultiReadMemory.read_ports (snd (MultiReadMemory_session self cs))) /\
  Forall (write_port_records sh dp it)
    (MultiReadMemory.write_ports (snd (MultiReadMemory_session self cs))).
Proof.
  induction cs as [| c cs IH]; intros self sh dp it Hr Hw; [split; assumption |].
  rewrite single_session_cons. cbn [snd].
  destruct (single_call_records self c Hr Hw) as [Hr1 Hw1].
  destruct (single_call_fields self c) as (Es & Ed & Ei & _).
  specialize (IH (snd (MultiReadMemory_call self c))). cbn zeta in IH.
  rewrite Es, Ed, Ei in IH. apply IH; assumption.
Qed.

Lemma single_design_banks (self : MultiReadMemory.t) (mem : Memory) :
  mem ∈ banks (MultiReadMemory_design self) ->
  exists k p,
    MultiReadMemory.read_ports self !! k = Some p /\
    mem = replica_memory (MultiReadMemory.set_frozen self true) k p.
Proof.
  destruct (MultiReadMemory.write_ports self) as [| wp wps] eqn:Hw.
  - rewrite (design_without_writer self Hw). intros H. inversion H.
  - rewrite (design_with_writer self wp wps Hw). cbn [banks]. intros H.
    apply elem_of_lookup_imap in H as (k & p & -> & Hk). eauto.
Qed.

Lemma xor_call_fields (self : MultiportXORMemory.t) (c : call) :
  let s' := snd (MultiportXORMemory_call self c) in
  MultiportXORMemory._shape s' = MultiportXORMemory._shape self /\
  MultiportXORMemory._depth s' = MultiportXORMemory._depth self /\
  MultiportXORMemory._init s' = MultiportXORMemory._init self /\
  MultiportXORMemory._attrs s' = MultiportXORMemory._attrs self /\
  MultiportXORMemory.src_loc s' = MultiportXORMemory.src_loc self.
Proof.
  destruct c.
  - simpl. unfold MultiportXORMemory.read_port.
    destruct (MultiportXORMemory._frozen self); simpl; repeat split.
  - simpl. unfold MultiportXORMemory.write_port.
    destruct (MultiportXORMemory._frozen self); simpl; repeat split.
  - cbn zeta. rewrite xor_elaborate_call. repeat split.
Qed.

Lemma xor_call_records (self : MultiportXORMemory.t) (c : call) :
  let sh := MultiportXORMemory._shape self in
  let dp := MultiportXORMemory._depth self in
  let it := MultiportXORMemory._init self in
  Forall (read_port_records sh dp it) (MultiportXORMemory.read_ports self) ->
  Forall (write_port_records sh dp it) (MultiportXORMemory.write_ports self) ->
  Forall (read_port_records sh dp it)
    (MultiportXORMemory.read_ports (snd (MultiportXORMemory_call self c))) /\
  Forall (write_port_records sh dp it)
    (MultiportXORMemory.write_ports (snd (MultiportXORMemory_call self c))).
Proof.
  intros sh dp it Hr Hw. destruct c.
  - simpl. unfold MultiportXORMemory.read_port.
    destruct (MultiportXORMemory._frozen self); simpl; [split; assumption |].
    split; [| exact Hw]. apply Forall_app. split; [exact Hr |].
    repeat constructor.
  - simpl. unfold MultiportXORMemory.write_port.
    destruct (MultiportXORMemory._frozen self); simpl; [split; assumption |].
    split; [exact Hr |]. apply Forall_app. split; [exact Hw |].
    repeat constructor.
  - rewrite xor_elaborate_call. split; assumption.
Qed.

Lemma xor_session_records (cs : list call) : forall (self : MultiportXORMemory.t),
  let sh := MultiportXORMemory._shape self in
  let dp := MultiportXORMemory._depth self in
  let it := MultiportXORMemory._init self in
  Forall (read_port_records sh dp it) (MultiportXORMemory.read_ports self) ->
  Forall (write_port_records sh dp it) (MultiportXORMemory.write_ports self) ->
  let s' := snd (MultiportXORMemory_session self cs) in
  Forall (read_port_records sh dp it) (MultiportXORMemory.read_ports s') /\
  Forall (write_port_records sh dp it) (MultiportXORMemory.write_ports s') /\
  MultiportXORMemory._shape s' = sh /\
  MultiportXORMemory._depth s' = dp /\
  MultiportXORMemory._init s' = it /\
  MultiportXORMemory._attrs s' = MultiportXORMemory._attrs self /\
  MultiportXORMemory.src_loc s' = MultiportXORMemory.src_loc self.
Proof.
  induction cs as [| c cs IH]; intros self sh dp it Hr Hw.
  - cbn zeta. simpl. repeat apply conj; try reflexivity; assumption.
  - cbn zeta. rewrite xor_session_cons. cbn [snd].
    destruct (xor_call_records self c Hr Hw) as [Hr1 Hw1].
    destruct (xor_call_fields self c) as (Es & Ed & Ei & Ea & El).
    specialize (IH (snd (MultiportXORMemory_call self c))). cbn zeta in IH.
    rewrite Es, Ed, Ei, Ea, El in IH. apply IH; assumption.
Qed.

Lemma built_read_block_fields (self : MultiportXORMemory.t) (index : nat) :
  let blk := built_read_block self index in
  MultiReadMemory.oid blk = ReadBlock index /\
  MultiReadMemory._depth blk = MultiportXORMemory.depth self /\
  MultiReadMemory._init blk = MultiportXORMemory.init self /\
  MultiReadMemory._attrs blk = MultiportXORMemory.attrs self /\
  MultiReadMemory.src_loc blk = MultiportXORMemory.src_loc self /\
  Forall (read_port_records (MultiportXORMemory.shape self)
            (MultiportXORMemory.depth self) (MultiportXORMemory.init self))
         (MultiReadMemory.read_ports blk).
Proof.
  intros blk. subst blk. unfold built_read_block.
  set (b := MultiReadMemory.__init__ _ _ _ _ _ _).
  set (cs := _ :: _).
  destruct (single_session_fields b cs) as (Es & Ed & Ei & Ea & El).
  destruct (single_session_records cs b (List.Forall_nil _) (List.Forall_nil _))
    as [Hr _].
  destruct (single_session_wf (ReadBlock index) b cs
              (single_init_wf _ _ _ _ _ _)) as (Ho & _).
  split; [exact Ho |]. split; [exact Ed |]. split; [exact Ei |].
  split; [exact Ea |]. split; [exact El | exact Hr].
Qed.

Lemma block_bank_configured (self : MultiportXORMemory.t) (index : nat) (mem : Memory) :
  mem ∈ banks (MultiReadMemory_design (built_read_block self index)) ->
  (exists k, bank mem = Replica (ReadBlock index) k) /\
  bank_configured (MultiportXORMemory.shape self) (MultiportXORMemory.depth self)
    (MultiportXORMemory.init self) (MultiportXORMemory.attrs self)
    (MultiportXORMemory.src_loc self) mem.
Proof.
  intros H. apply single_design_banks in H as (k & p & Hk & ->).
  destruct (built_read_block_fields self index) as (Ho & Ed & Ei & Ea & El & Hr).
  rewrite Forall_forall in Hr.
  destruct (Hr p (list_elem_of_lookup_2 _ _ _ Hk)) as (Hw & _).
  split.
  - exists k. change (Replica (MultiReadMemory.oid (built_read_block self index)) k
                      = Replica (ReadBlock index) k). rewrite Ho. reflexivity.
  - change (ReadPort.width p = MultiportXORMemory.shape self /\
            MultiReadMemory._depth (built_read_block self index)
              = MultiportXORMemory.depth self /\
            MultiReadMemory._init (built_read_block self index)
              = MultiportXORMemory.init self /\
            MultiReadMemory._attrs (built_read_block self index)
              = MultiportXORMemory.attrs self /\
            MultiReadMemory.src_loc (built_read_block self index)
              = MultiportXORMemory.src_loc self).
    repeat split; assumption.
Qed.

Lemma xor_design_banks (self : MultiportXORMemory.t) (index : nat) (mem : Memory) :
  mem ∈ writer_banks self index ->
  ((exists i, bank mem = Relay index i) \/
   (exists k, bank mem = Replica (ReadBlock index) k)) /\
  bank_configured (MultiportXORMemory.shape self) (MultiportXORMemory.depth self)
    (MultiportXORMemory.init self) (MultiportXORMemory.attrs self)
    (MultiportXORMemory.src_loc self) mem.
Proof.
  unfold writer_banks. rewrite elem_of_app. intros [H | H].
  - apply list_elem_of_In, in_map_iff in H as (i & <- & _).
    split; [left; exists i; reflexivity | repeat split].
  - destruct (block_bank_configured self index mem H) as (Hk & Hc).
    split; [right; exact Hk | exact Hc].
Qed.

Lemma xor_all_banks_configured (self : MultiportXORMemory.t) :
  exists d,
    MultiportXORMemory_design self = Ok d /\
    Forall (bank_configured (MultiportXORMemory.shape self)
              (MultiportXORMemory.depth self) (MultiportXORMemory.init self)
              (MultiportXORMemory.attrs self) (MultiportXORMemory.src_loc self))
           (banks d).
Proof.
  destruct (xor_design_spec self) as (stmts & _ & E).
  eexists. split; [exact E |]. cbn [banks].
  apply Forall_concat_map. intros index. apply Forall_forall. intros mem Hmem.
  apply (xor_design_banks (MultiportXORMemory.set_frozen self true) index mem Hmem).
Qed.

Lemma single_all_banks_configured (self : MultiReadMemory.t) (shape : ShapeLike) :
  Forall (fun p => ReadPort.width p = shape) (MultiReadMemory.read_ports self) ->
  Forall (bank_configured shape (MultiReadMemory.depth self)
            (MultiReadMemory.init self) (MultiReadMemory.attrs self)
            (MultiReadMemory.src_loc self))
         (banks (MultiReadMemory_design self)).
Proof.
  intros Hw. apply Forall_forall. intros mem Hmem.
  apply single_design_banks in Hmem as (k & p & Hk & ->).
  rewrite Forall_forall in Hw.
  pose proof (Hw p (list_elem_of_lookup_2 _ _ _ Hk)) as Hp.
  unfold bank_configured, replica_memory. cbn [mem_shape mem_depth mem_init
    mem_attrs mem_src_loc_at]. repeat split. exact Hp.
Qed.

(** X3: on an engine driven through its API, every port records the shape,
    the depth, the initial content and the address width of the engine, and
    elaboration constructs every primitive bank (replicas, relay banks and
    the banks of the replicators alike) with the engine's shape, depth,
    initial content, attributes and source-location offset. *)
Theorem ports_and_banks_share_configuration :
  forall (shape : ShapeLike) (depth : Z) (init : list Z) (attrs : Attrs)
         (loc : Z) (cs : list call),
    let r := snd (MultiReadMemory_session
                    (MultiReadMemory.__init__ Top shape depth init attrs loc) cs) in
    let x := snd (MultiportXORMemory_session
                    (MultiportXORMemory.__init__ Top shape depth init attrs loc) cs) in
    Forall (read_port_records shape depth init) (MultiReadMemory.read_ports r) /\
    Forall (write_port_records shape depth init) (MultiReadMemory.write_ports r) /\
    Forall (bank_configured shape depth init attrs loc)
           (banks (MultiReadMemory_design r)) /\
    Forall (read_port_records shape depth init) (MultiportXORMemory.read_ports x) /\
    Forall (write_port_records shape depth init) (MultiportXORMemory.write_ports x) /\
    exists d,
      MultiportXORMemory_design x = Ok d /\
      Forall (bank_configured shape depth init attrs loc) (banks d).
Proof.
  intros shape depth init attrs loc cs r x.
  destruct (single_session_records cs
              (MultiReadMemory.__init__ Top shape depth init attrs loc)
              (List.Forall_nil _) (List.Forall_nil _)) as [Hr Hw].
  destruct (single_session_fields
              (MultiReadMemory.__init__ Top shape depth init attrs loc) cs)
    as (_ & Ed & Ei & Ea & El).
  destruct (xor_session_records cs
              (MultiportXORMemory.__init__ Top shape depth init attrs loc)
              (List.Forall_nil _) (List.Forall_nil _))
    as (Hxr & Hxw & Xs & Xd & Xi & Xa & Xl).
  fold r in Hr, Hw, Ed, Ei, Ea, El. fold x in Hxr, Hxw, Xs, Xd, Xi, Xa, Xl.
  simpl in Hr, Hw, Ed, Ei, Ea, El, Hxr, Hxw, Xs, Xd, Xi, Xa, Xl.
  split; [exact Hr |]. split; [exact Hw |]. split.
  - pose proof (single_all_banks_configured r shape) as H.
    unfold MultiReadMemory.depth, MultiReadMemory.init, MultiReadMemory.attrs in H.
    rewrite Ed, Ei, Ea, El in H. apply H.
    eapply Forall_impl; [exact Hr |]. intros p (Hp & _). exact Hp.
  - split; [exact Hxr |]. split; [exact Hxw |].
    destruct (xor_all_banks_configured x) as (d & E & H).
    exists d. split; [exact E |].
    unfold MultiportXORMemory.shape, MultiportXORMemory.depth,
      MultiportXORMemory.init, MultiportXORMemory.attrs in H.
    rewrite Xs, Xd, Xi, Xa, Xl in H. exact H.
Qed.

(** X4: [init] may be assigned in any phase, also after elaboration; the
    assignment leaves the registry and the phase alone, so ports declared
    earlier keep the initial content they recorded, while a following
    elaboration constructs every bank with the newly assigned content. *)
Theorem init_setter_reaches_banks_not_ports :
  forall (shape : ShapeLike) (depth : Z) (init : list Z) (attrs : Attrs)
         (loc : Z) (cs : list call) (new_init : list Z),
    let r := snd (MultiReadMemory_session
                    (MultiReadMemory.__init__ Top shape depth init attrs loc) cs) in
    let x := snd (MultiportXORMemory_session
                    (MultiportXORMemory.__init__ Top shape depth init attrs loc) cs) in
    let r2 := MultiReadMemory_init_setter r new_init in
    let x2 := MultiportXORMemory_init_setter x new_init in
    MultiReadMemory.init r2 = new_init /\
    MultiReadMemory._frozen r2 = MultiReadMemory._frozen r /\
    MultiReadMemory.read_ports r2 = MultiReadMemory.read_ports r /\
    MultiReadMemory.write_ports r2 = MultiReadMemory.write_ports r /\
    Forall (read_port_records shape depth init) (MultiReadMemory.read_ports r2) /\
    Forall (bank_configured shape depth new_init attrs loc)
           (banks (MultiReadMemory_design r2)) /\
    MultiportXORMemory.init x2 = new_init /\
    MultiportXORMemory._frozen x2 = MultiportXORMemory._frozen x /\
    MultiportXORMemory.read_ports x2 = MultiportXORMemory.read_ports x /\
    MultiportXORMemory.write_ports x2 = MultiportXORMemory.write_ports x /\
    Forall (read_port_records shape depth init) (MultiportXORMemory.read_ports x2) /\
    exists d,
      MultiportXORMemory_design x2 = Ok d /\
      Forall (bank_configured shape depth new_init attrs loc) (banks d).
Proof.
  intros shape depth init attrs loc cs new_init r x r2 x2.
  destruct (single_session_records cs
              (MultiReadMemory.__init__ Top shape depth init attrs loc)
              (List.Forall_nil _) (List.Forall_nil _)) as [Hr _].
  destruct (single_session_fields
              (MultiReadMemory.__init__ Top shape depth init attrs loc) cs)
    as (_ & Ed & _ & Ea & El).
  destruct (xor_session_records cs
              (MultiportXORMemory.__init__ Top shape depth init attrs loc)
              (List.Forall_nil _) (List.Forall_nil _))
    as (Hxr & _ & Xs & Xd & _ & Xa & Xl).
  fold r in Hr, Ed, Ea, El. fold x in Hxr, Xs, Xd, Xa, Xl.
  simpl in Hr, Ed, Ea, El, Hxr, Xs, Xd, Xa, Xl.
  repeat apply conj; try reflexivity.
  - exact Hr.
  - pose proof (single_all_banks_configured r2 shape) as H.
    change (MultiReadMemory.depth r2) with (MultiReadMemory._depth r) in H.
    change (MultiReadMemory.init r2) with new_init in H.
    change (MultiReadMemory.attrs r2) with (MultiReadMemory._attrs r) in H.
    change (MultiReadMemory.src_loc r2) with (MultiReadMemory.src_loc r) in H.
    rewrite Ed, Ea, El in H. apply H.
    eapply Forall_impl; [exact Hr |]. intros p (Hp & _). exact Hp.
  - exact Hxr.
  - destruct (xor_all_banks_configured x2) as (d & E & H).
    exists d. split; [exact E |].
    change (MultiportXORMemory.shape x2) with (MultiportXORMemory._shape x) in H.
    change (MultiportXORMemory.depth x2) with (MultiportXORMemory._depth x) in H.
    change (MultiportXORMemory.init x2) with new_init in H.
    change (MultiportXORMemory.attrs x2) with (MultiportXORMemory._attrs x) in H.
    change (MultiportXORMemory.src_loc x2) with (MultiportXORMemory.src_loc x) in H.
    rewrite Xs, Xd, Xa, Xl in H. exact H.
Qed.

(** X5: elaboration is not a one-shot operation in the code: calling
    [elaborate] again on the object it left behind raises nothing and returns
    the same object, the same module and the same events, for both
    engines. *)
Theorem elaborate_again_same_module :
  (forall (self : MultiReadMemory.t),
     MultiReadMemory.elaborate (fst (fst (MultiReadMemory.elaborate self)))
     = MultiReadMemory.elaborate self) /\
  (forall (self : MultiportXORMemory.t),
     exists self' m log,
       MultiportXORMemory.elaborate self = Ok (self', m, log) /\
       MultiportXORMemory.elaborate self' = Ok (self', m, log)).
Proof.
  split.
  - intros self. rewrite single_elaborate_self. reflexivity.
  - intros self. destruct (xor_elaborate_spec self) as (m & stmts & E & _).
    eexists _, _, _. split; [exact E |]. exact E.
Qed.

(** ** The single-writer engine is one memory *)

Lemma single_run_refines (self : MultiReadMemory.t) (wp : WritePort.t)
    (tb : nat -> signal -> Z) (k : nat) (p : ReadPort.t) :
  single_wf Top self ->
  MultiReadMemory.write_ports self = [wp] ->
  MultiReadMemory.read_ports self !! k = Some p ->
  forall n,
    contents (run (MultiReadMemory_design self) tb n (Replica Top k))
      = ref_contents 0 (MultiReadMemory.depth self) (MultiReadMemory.init self) tb n /\
    rdata (run (MultiReadMemory_design self) tb n (Replica Top k))
      = ref_read 0 (MultiReadMemory.depth self) (MultiReadMemory.init self) tb k n.
Proof.
  intros Hwf Hwp Hk n. induction n as [| n [IHc IHr]].
  - cbn [run]. unfold reset. rewrite (sim_find_bank self wp Hwf Hwp k p Hk).
    split; reflexivity.
  - cbn [run ref_contents ref_read].
    rewrite (sim_step self wp Hwf Hwp _ _ k p Hk). cbn [contents rdata].
    rewrite IHc, IHr. split; reflexivity.
Qed.

Lemma single_banks_plain (self : MultiReadMemory.t) :
  plain_read_ports self ->
  Forall (fun mem => read_transparent_for mem = [])
         (banks (MultiReadMemory_design self)).
Proof.
  intros Hplain. apply Forall_forall. intros mem Hmem.
  apply single_design_banks in Hmem as (k & p & Hk & ->).
  exact (Forall_lookup_1 _ _ _ _ Hplain Hk).
Qed.

(** X6: a single-writer engine with its one write port and R read ports,
    none of them transparent, has banks with non-transparent read ports and
    behaves, cycle by cycle and for every client, as one synchronous memory:
    each of its R banks holds exactly the rows of the reference memory (so
    all banks hold the same rows at all times), and each read port shows the
    reference read value: the row sampled in the last cycle in which the port
    was enabled, as the row was before that cycle's write, and 0 before the
    first enabled cycle. *)
Theorem single_writer_refines_memory :
  forall (shape : ShapeLike) (depth : Z) (init : list Z) (attrs : Attrs)
         (loc : Z) (cs : list call) (self : MultiReadMemory.t)
         (wp : WritePort.t),
    self = snd (MultiReadMemory_session
                  (MultiReadMemory.__init__ Top shape depth init attrs loc) cs) ->
    MultiReadMemory.write_ports self = [wp] ->
    plain_read_ports self ->
    let d := MultiReadMemory_design self in
    Forall (fun mem => read_transparent_for mem = []) (banks d) /\
    forall (tb : nat -> signal -> Z) (n k : nat) (p : ReadPort.t),
      MultiReadMemory.read_ports self !! k = Some p ->
      contents (run d tb n (Replica Top k)) = ref_contents 0 depth init tb n /\
      observe d tb n (ReadPort.data p) = ref_read 0 depth init tb k n /\
      (forall k' p', MultiReadMemory.read_ports self !! k' = Some p' ->
         contents (run d tb n (Replica Top k'))
         = contents (run d tb n (Replica Top k))).
Proof.
  intros shape depth init attrs loc cs self wp Hself Hwp Hplain d.
  split; [apply single_banks_plain, Hplain |].
  intros tb n k p Hk.
  assert (Hwf : single_wf Top self).
  { rewrite Hself. apply single_session_wf, single_init_wf. }
  assert (Hcfg : MultiReadMemory.depth self = depth /\
                 MultiReadMemory.init self = init).
  { rewrite Hself. apply single_session_config. }
  destruct Hcfg as [Hdepth Hinit].
  destruct (single_run_refines self wp tb k p Hwf Hwp Hk n) as [Hc Hr].
  rewrite Hdepth, Hinit in Hc, Hr.
  split; [exact Hc |]. split.
  - unfold observe. destruct Hwf as (Ho & Hrp & Hw).
    destruct (Hrp k p Hk) as (_ & _ & ->).
    rewrite (sim_read_data self wp (conj Ho (conj Hrp Hw)) Hwp _ _ k p Hk).
    exact Hr.
  - intros k' p' Hk'.
    destruct (single_run_refines self wp tb k' p' Hwf Hwp Hk' n) as [Hc' _].
    rewrite Hdepth, Hinit in Hc'. unfold d. rewrite Hc', Hc. reflexivity.
Qed.

(** Scenario A after the write: both banks hold 0x11 in row 2. *)
Lemma single_writer_refines_memory_witness :
  contents (run (MultiReadMemory_design scenario_A) scenario_A_tb 1 (Replica Top 1))
    = ref_contents 0 4 [] scenario_A_tb 1 /\
  ref_contents 0 4 [] scenario_A_tb 1 = [0%Z; 0%Z; 17%Z; 0%Z].
Proof.
  split; [| reflexivity].
  exact (proj1 (proj2 (single_writer_refines_memory 8%Z 4%Z [] None 0%Z
                         scenario_A_calls scenario_A _ eq_refl eq_refl
                         ltac:(repeat constructor))
                  scenario_A_tb 1%nat 1%nat _ eq_refl)).
Defined.

(** ** The netlist of the multi-writer engine *)

Lemma relay_target_spec index i :
  relay_target index i <> index /\
  ((i < index)%nat -> relay_target index i = i) /\
  ((index <= i)%nat -> relay_target index i = S i).
Proof.
  unfold relay_target. destruct (decide (index <= i)%nat); repeat split; lia.
Qed.

Section XorExact.
Import MultiportXORMemory.
Variable self : t.
Hypothesis Hwf : xor_wf Top self.

Let W := length (write_ports self).
Let R := length (read_ports self).

Lemma relay_body_exact n wp i passed s p' s' :
  relay_body self n wp i (passed, s) = Ok (p', s') ->
  (passed = true <-> (n < i)%nat) ->
  write_xors s !! n = Some (commit n) ->
  write_ports self !! n = Some wp ->
  comb (m s') = comb (m s) ++ relay_stmts n i.
Proof.
  intros H Hp Hc Hwp. unfold relay_body in H.
  set (passed' := if decide (i = n) then true else passed) in H.
  assert (Hp' : passed' = true <-> (n < S i)%nat).
  { subst passed'. destruct (decide (i = n)) as [-> | Hne].
    - split; [lia | reflexivity].
    - rewrite Hp. lia. }
  set (idx := if passed' then (i + 1)%nat else i) in H.
  assert (Hidx : idx = relay_target n i).
  { subst idx. unfold relay_target. destruct passed'.
    - rewrite decide_True; [reflexivity |].
      assert (n < S i)%nat by (apply Hp'; reflexivity). lia.
    - rewrite decide_False; [reflexivity |].
      assert (~ (n < S i)%nat) by (rewrite <- Hp'; discriminate). lia. }
  destruct (relay_target_spec n i) as (Hne & _).
  apply bind_Ok in H as (old & H1 & H).
  apply bind_Ok in H as (wx & H2 & H). apply setitem_Ok in H2 as (-> & Hlt).
  apply bind_Ok in H as (committed & H3 & H). apply getitem_Ok in H3.
  apply bind_Ok in H as (other & H4 & H). apply getitem_Ok in H4.
  injection H as _ <-.
  rewrite list_lookup_insert_ne in H3 by (rewrite Hidx; exact Hne).
  assert (committed = commit n) by congruence. subst committed.
  destruct Hwf as (_ & _ & Hw).
  destruct (Hw n wp Hwp) as (-> & -> & _).
  destruct (Hw idx other H4) as (_ & -> & _).
  cbn [m comb add_comb add_submodule]. rewrite Hidx. reflexivity.
Qed.

Lemma relay_loop_exact n wp : forall len a passed s p' s',
  relay_loop self n wp (seq a len) (passed, s) = Ok (p', s') ->
  (passed = true <-> (n < a)%nat) ->
  write_xors s !! n = Some (commit n) ->
  write_ports self !! n = Some wp ->
  comb (m s') = comb (m s) ++ concat (map (relay_stmts n) (seq a len)).
Proof.
  induction len as [| len IH]; intros a passed s p' s' H Hp Hc Hwp.
  - simpl in H. injection H as _ <-. simpl. rewrite app_nil_r. reflexivity.
  - cbn [seq relay_loop] in H.
    apply bind_Ok in H as ([p1 s1] & H1 & H).
    pose proof (relay_body_exact n wp a passed s p1 s1 H1 Hp Hc Hwp) as Hm1.
    destruct (relay_body_commit self n wp a passed s p1 s1 (commit n) H1 Hp Hc)
      as (Hp1 & Hc1 & _).
    rewrite (IH (S a) p1 s1 p' s' H Hp1 Hc1 Hwp), Hm1.
    cbn [map concat]. rewrite <- app_assoc. reflexivity.
Qed.

Lemma fan_out_loop_exact index : forall ps idx s s',
  fan_out_loop self idx ps s = Ok s' ->
  (forall j p, ps !! j = Some p ->
     ReadPort.en p = PortSig (ReadBlock index) Rd (idx + j) En /\
     ReadPort.addr p = PortSig (ReadBlock index) Rd (idx + j) Addr /\
     ReadPort.data p = PortSig (ReadBlock index) Rd (idx + j) Data) ->
  comb (m s') =
  comb (m s) ++ concat (map (fan_stmts index) (seq idx (length ps))).
Proof.
  induction ps as [| port rest IH]; intros idx s s' H Hps.
  - simpl in H. injection H as <-. simpl. rewrite app_nil_r. reflexivity.
  - cbn [fan_out_loop] in H.
    apply bind_Ok in H as (old & _ & H).
    apply bind_Ok in H as (rx & _ & H).
    apply bind_Ok in H as (logical & H3 & H). apply getitem_Ok in H3.
    apply IH in H.
    + rewrite H. cbn [m comb add_comb length seq map concat].
      destruct (Hps 0%nat port eq_refl) as (He & Ha & _).
      rewrite Nat.add_0_r in He, Ha. rewrite He, Ha.
      destruct Hwf as (_ & Hr & _). destruct (Hr idx logical H3) as (_ & -> & _).
      rewrite <- app_assoc. reflexivity.
    + intros j p Hj. replace (S idx + j)%nat with (idx + S j)%nat by lia.
      apply (Hps (S j) p Hj).
Qed.

Lemma writer_body_exact n wp s s' :
  writer_body self n wp s = Ok s' ->
  write_ports self !! n = Some wp ->
  (forall j, (n <= j < W)%nat ->
     write_xors s !! j = Some (prior_combination n j)) ->
  comb (m s') = comb (m s) ++ writer_stmts W R n.
Proof.
  intros H Hwp Hinv. unfold writer_body in H.
  pose proof (lookup_lt_Some _ _ _ Hwp) as Hn.
  assert (Hd : committed_value wp n = commit n).
  { destruct Hwf as (_ & _ & Hw). destruct (Hw n wp Hwp) as (_ & _ & Hd).
    unfold committed_value, commit. rewrite Hd. reflexivity. }
  apply bind_Ok in H as (old & H1 & H). apply getitem_Ok in H1.
  rewrite (Hinv n) in H1 by (unfold W; lia). injection H1 as <-.
  apply bind_Ok in H as (seeded & H2 & H). apply setitem_Ok in H2 as (-> & Hlt).
  fold (committed_value wp n) in H. rewrite Hd in H.
  apply bind_Ok in H as ([p2 s2] & H3 & H).
  assert (Hseed : write_xors
                    (mkLocals (m s) (<[n := commit n]> (write_xors s))
                       (read_xors s) (log s)) !! n = Some (commit n))
    by (cbn [write_xors]; apply list_lookup_insert_eq; exact Hlt).
  pose proof (relay_loop_exact n wp _ _ _ _ _ _ H3
                ltac:(split; [discriminate | lia]) Hseed Hwp) as Hm.
  destruct (relay_loop_commit self n wp (commit n) _ _ _ _ _ _ H3
              ltac:(split; [discriminate | lia]) Hseed) as (Hc & _).
  cbn [m] in Hm.
  change (MultiReadMemory.write_port _ None 0%Z)
    with (Ok (fst (WritePort.__init__ (ReadBlock n) [] (shape self)
                     (depth self) (init self) None (1 + 0)%Z),
              snd (MultiReadMemory_call
                     (MultiReadMemory.__init__ (ReadBlock n) (shape self)
                        (depth self) (init self) (attrs self) (src_loc self))
                     (CallWritePort None 0%Z)))) in H.
  cbn [bind] in H.
  apply bind_Ok in H as ([ps blk] & Hdecl & H).
  match type of Hdecl with
  | declare_read_ports _ ?blk1 = _ =>
    destruct (declare_read_ports_spec (read_ports self) blk1 eq_refl)
      as (ps' & E & Hps & Hl); rewrite E in Hdecl; injection Hdecl as <- <-
  end.
  assert (Hb : built_read_block self n =
               snd (MultiReadMemory_session
                      (snd (MultiReadMemory_call
                              (MultiReadMemory.__init__ (ReadBlock n)
                                 (shape self) (depth self) (init self)
                                 (attrs self) (src_loc self))
                              (CallWritePort None 0%Z)))
                      (map (fun _ => CallReadPort [] 0%Z) (read_ports self))))
    by (unfold built_read_block; rewrite single_session_cons; reflexivity).
  rewrite <- Hb in *. clear Hb.
  destruct (built_read_block_facts self n) as ((_ & Hrp & _) & _ & _ & _).
  rewrite Hps in Hrp. change (read_ports_of (ReadBlock n) ps') in Hrp.
  apply bind_Ok in H as (committed & H4 & H). apply getitem_Ok in H4.
  assert (committed = commit n) by congruence. subst committed.
  apply (fan_out_loop_exact n) in H; [| intros j p Hj; apply (Hrp j p Hj)].
  rewrite H. cbn [m comb add_comb add_submodule]. rewrite Hm, Hl.
  destruct Hwf as (_ & _ & Hw). destruct (Hw n wp Hwp) as (-> & -> & _).
  unfold writer_stmts. rewrite <- !app_assoc. reflexivity.
Qed.

Lemma writers_loop_exact : forall todo n s s',
  writers_loop self n todo s = Ok s' ->
  (n + length todo = W)%nat ->
  (forall k wp, todo !! k = Some wp -> write_ports self !! (n + k)%nat = Some wp) ->
  (forall j, (n <= j < W)%nat ->
     write_xors s !! j = Some (prior_combination n j)) ->
  comb (m s') =
  comb (m s) ++ concat (map (writer_stmts W R) (seq n (length todo))).
Proof.
  induction todo as [| wp rest IH]; intros n s s' H Hlen Htodo Hinv.
  - simpl in H. injection H as <-. simpl. rewrite app_nil_r. reflexivity.
  - cbn [writers_loop] in H. cbn [length] in Hlen.
    apply bind_Ok in H as (s1 & H1 & H).
    pose proof (Htodo 0%nat wp eq_refl) as Hwp. rewrite Nat.add_0_r in Hwp.
    pose proof (writer_body_exact n wp s s1 H1 Hwp Hinv) as Hm1.
    destruct (writer_body_commit self n wp s s1 H1 Hinv ltac:(unfold W in *; lia))
      as (Hinv1 & _).
    rewrite (IH (S n) s1 s' H ltac:(lia)).
    + rewrite Hm1. cbn [length seq map concat]. rewrite <- app_assoc. reflexivity.
    + intros k wp' Hk. replace (S n + k)%nat with (n + S k)%nat by lia.
      apply (Htodo (S k) wp' Hk).
    + intros j Hj. apply Hinv1. unfold W in *. lia.
Qed.

Lemma drive_read_ports_length : forall todo index s s',
  drive_read_ports index todo s = Ok s' ->
  exists stmts,
    comb (m s') = comb (m s) ++ stmts /\ length stmts = length todo.
Proof.
  induction todo as [| port rest IH]; intros index s s' H.
  - simpl in H. injection H as <-. exists []. rewrite app_nil_r. split; reflexivity.
  - cbn [drive_read_ports] in H.
    apply bind_Ok in H as (combined & _ & H).
    apply IH in H as (st & Hm & Hl). cbn [m comb add_comb] in Hm.
    eexists. rewrite Hm, <- app_assoc. split; [reflexivity |].
    simpl. rewrite Hl. reflexivity.
Qed.
End XorExact.

Lemma xor_elaborate_exact (self : MultiportXORMemory.t) :
  xor_wf Top self ->
  let self' := MultiportXORMemory.set_frozen self true in
  let W := length (MultiportXORMemory.write_ports self) in
  let R := length (MultiportXORMemory.read_ports self) in
  exists m,
    MultiportXORMemory.elaborate self =
      Ok (self', m,
          EvFreeze (MultiportXORMemory.oid self)
            :: concat (map (writer_events self') (seq 0 W))) /\
    submodules m = concat (map (writer_submodules self') (seq 0 W)) /\
    comb m =
      concat (map (writer_stmts W R) (seq 0 W))
      ++ map (read_driver_stmt W) (seq 0 R).
Proof.
  intros Hwf self' W R.
  destruct (xor_elaborate_spec self) as (m & stmts & E & Hsubs & Hcomb & _).
  exists m. split; [exact E |]. split; [exact Hsubs |].
  unfold MultiportXORMemory.elaborate in E.
  apply bind_Ok in E as (s1 & E1 & E).
  apply bind_Ok in E as (s2 & E2 & E).
  injection E as <- _.
  apply (writers_loop_exact self' Hwf) in E1.
  - apply drive_read_ports_length in E2 as (st2 & Hm2 & Hl2).
    cbn [MultiportXORMemory.m comb app] in E1.
    rewrite Hm2, E1 in Hcomb.
    apply app_inj_2 in Hcomb as (_ & ->);
      [| rewrite Hl2, length_imap; reflexivity].
    rewrite Hm2, E1.
    apply (f_equal (app _)).
    fold (read_port_drivers self). apply (read_port_drivers_closed self Hwf).
  - reflexivity.
  - intros k wp Hk. exact Hk.
  - intros j Hj. cbn [MultiportXORMemory.write_xors].
    unfold MultiportXORMemory.fresh_signals. rewrite list_lookup_imap.
    destruct (lookup_lt_is_Some_2 (MultiportXORMemory.write_ports
                (MultiportXORMemory.set_frozen self true)) j (proj2 Hj)) as [x ->].
    reflexivity.
Qed.

Lemma xor_design_exact (self : MultiportXORMemory.t) :
  xor_wf Top self ->
  let self' := MultiportXORMemory.set_frozen self true in
  let W := length (MultiportXORMemory.write_ports self) in
  let R := length (MultiportXORMemory.read_ports self) in
  MultiportXORMemory_design self =
    Ok {| banks := concat (map (writer_banks self') (seq 0 W));
          wiring := netlist W R;
          trace := (EvFreeze (MultiportXORMemory.oid self)
                      :: concat (map (writer_events self') (seq 0 W)))
                     ++ concat (map (block_trace self') (seq 0 W)) |}.
Proof.
  intros Hwf self' W R.
  destruct (xor_elaborate_exact self Hwf) as (m & E & Hsubs & Hcomb).
  unfold MultiportXORMemory_design. fold self' W in E. rewrite E. cbn [bind].
  rewrite !map_map, Hsubs, Hcomb.
  rewrite (concat_map_concat (fun ne => banks (sub_design (snd ne)))).
  rewrite (concat_map_concat (fun ne => wiring (sub_design (snd ne)))).
  rewrite (concat_map_concat (fun ne => trace (sub_design (snd ne)))).
  unfold netlist. do 2 f_equal.
  - f_equal. apply map_ext. intros index. apply writer_sub_banks.
  - f_equal. f_equal. apply map_ext. intros index.
    rewrite writer_sub_wiring. apply (block_wiring_closed self').
  - f_equal. f_equal. apply map_ext. intros index. apply writer_sub_trace.
Qed.

(** ** What drives each signal *)

Lemma driver_some_of_elem (stmts : list Assign) (a : Assign) :
  a ∈ stmts -> driver stmts (lhs a) <> None.
Proof.
  unfold driver. induction stmts as [| b stmts IH]; intros Hin.
  - inversion Hin.
  - simpl. destruct (bool_decide (lhs b = lhs a)) eqn:E; [discriminate |].
    apply elem_of_cons in Hin as [-> | Hin].
    + apply bool_decide_eq_false in E. congruence.
    + apply IH, Hin.
Qed.

Lemma driver_table (stmts : list Assign) (T : signal -> option Value) :
  (forall a, a ∈ stmts -> T (lhs a) = Some (rhs a)) ->
  (forall s v, T s = Some v -> mkAssign s v ∈ stmts) ->
  forall s, driver stmts s = T s.
Proof.
  intros Hs Hc s. destruct (driver stmts s) as [v |] eqn:E.
  - apply driver_elem in E. apply Hs in E. simpl in E. congruence.
  - destruct (T s) as [v |] eqn:ET; [| reflexivity].
    apply Hc, driver_some_of_elem in ET. simpl in ET. congruence.
Qed.

Lemma netlist_elem W R a :
  a ∈ netlist W R <->
  (exists index i, (index < W)%nat /\ (i < W - 1)%nat /\ a ∈ relay_stmts index i) \/
  (exists index, (index < W)%nat /\ a ∈ block_write_stmts index) \/
  (exists index k, (index < W)%nat /\ (k < R)%nat /\ a ∈ fan_stmts index k) \/
  (exists k, (k < R)%nat /\ a = read_driver_stmt W k) \/
  (exists index k, (index < W)%nat /\ (k < R)%nat /\ a ∈ block_stmts index k).
Proof.
  unfold netlist. rewrite !elem_of_app, !elem_of_concat_map. split.
  - intros [[(index & Hi & Ha) | Ha] | (index & Hi & Ha)].
    + apply elem_of_seq in Hi. unfold writer_stmts in Ha.
      rewrite !elem_of_app, !elem_of_concat_map in Ha.
      destruct Ha as [(i & Hr & Ha) | [Ha | (k & Hk & Ha)]].
      * apply elem_of_seq in Hr. left. exists index, i.
        split; [lia |]. split; [lia | exact Ha].
      * right. left. exists index. split; [lia | exact Ha].
      * apply elem_of_seq in Hk. right. right. left. exists index, k.
        split; [lia |]. split; [lia | exact Ha].
    + apply list_elem_of_In, in_map_iff in Ha as (k & <- & Hk).
      apply in_seq in Hk. right. right. right. left. exists k.
      split; [lia | reflexivity].
    + apply elem_of_seq in Hi. apply elem_of_concat_map in Ha as (k & Hk & Ha).
      apply elem_of_seq in Hk. right. right. right. right. exists index, k.
      split; [lia |]. split; [lia | exact Ha].
  - intros [(index & i & Hi & Hr & Ha) | [(index & Hi & Ha)
            | [(index & k & Hi & Hk & Ha) | [(k & Hk & ->)
            | (index & k & Hi & Hk & Ha)]]]].
    + left. left. exists index. split; [apply elem_of_seq; lia |].
      unfold writer_stmts. rewrite !elem_of_app, !elem_of_concat_map.
      left. exists i. split; [apply elem_of_seq; lia | exact Ha].
    + left. left. exists index. split; [apply elem_of_seq; lia |].
      unfold writer_stmts. rewrite !elem_of_app. right. left. exact Ha.
    + left. left. exists index. split; [apply elem_of_seq; lia |].
      unfold writer_stmts. rewrite !elem_of_app, !elem_of_concat_map.
      right. right. exists k. split; [apply elem_of_seq; lia | exact Ha].
    + left. right. apply list_elem_of_In, in_map_iff. exists k.
      split; [reflexivity | apply in_seq; lia].
    + right. exists index. split; [apply elem_of_seq; lia |].
      apply elem_of_concat_map. exists k.
      split; [apply elem_of_seq; lia | exact Ha].
Qed.

Lemma netlist_sound W R a :
  a ∈ netlist W R -> netlist_driver W R (lhs a) = Some (rhs a).
Proof.
  intros Ha. apply netlist_elem in Ha.
  destruct Ha as [(index & i & Hi & Hr & Ha) | [(index & Hi & Ha)
            | [(index & k & Hi & Hk & Ha) | [(k & Hk & ->)
            | (index & k & Hi & Hk & Ha)]]]].
  - unfold relay_stmts in Ha. elem_cases Ha; subst a;
      cbn [lhs rhs netlist_driver]; rewrite decide_True by lia; reflexivity.
  - unfold block_write_stmts in Ha. elem_cases Ha; subst a;
      cbn [lhs rhs netlist_driver]; rewrite decide_True by lia; reflexivity.
  - unfold fan_stmts in Ha. elem_cases Ha; subst a;
      cbn [lhs rhs netlist_driver]; rewrite decide_True by lia; reflexivity.
  - cbn [read_driver_stmt lhs rhs netlist_driver].
    rewrite decide_True by lia. reflexivity.
  - unfold block_stmts in Ha. elem_cases Ha; subst a;
      cbn [lhs rhs netlist_driver]; rewrite decide_True by lia; reflexivity.
Qed.

Lemma netlist_complete W R s v :
  netlist_driver W R s = Some v -> mkAssign s v ∈ netlist W R.
Proof.
  intros H. apply netlist_elem.
  destruct s as [o d k f | b d f | l n]; [| | discriminate H].
  - destruct o as [| index].
    + destruct d, f; try discriminate H. cbn [netlist_driver] in H.
      destruct (decide (k < R)%nat) as [Hk |]; [| discriminate H].
      injection H as <-. right. right. right. left. exists k.
      split; [exact Hk | reflexivity].
    + destruct d.
      * cbn [netlist_driver] in H.
        destruct (decide (index < W /\ k < R)%nat) as [[Hi Hk] |];
          [| discriminate H].
        destruct f; injection H as <-.
        -- right. right. left. exists index, k.
           split; [exact Hi |]. split; [exact Hk |]. unfold fan_stmts. elem_solve.
        -- right. right. left. exists index, k.
           split; [exact Hi |]. split; [exact Hk |]. unfold fan_stmts. elem_solve.
        -- right. right. right. right. exists index, k.
           split; [exact Hi |]. split; [exact Hk |]. unfold block_stmts. elem_solve.
      * cbn [netlist_driver] in H.
        destruct (decide (index < W /\ k = 0)%nat) as [[Hi ->] |];
          [| discriminate H].
        right. left. exists index. split; [exact Hi |].
        destruct f; injection H as <-; unfold block_write_stmts; elem_solve.
  - destruct b as [o k | index i].
    + destruct o as [| index]; [discriminate H |].
      cbn [netlist_driver] in H.
      destruct (decide (index < W /\ k < R)%nat) as [[Hi Hk] |];
        [| discriminate H].
      right. right. right. right. exists index, k.
      split; [exact Hi |]. split; [exact Hk |].
      destruct d, f; try discriminate H; injection H as <-;
        unfold block_stmts; elem_solve.
    + cbn [netlist_driver] in H.
      destruct (decide (index < W /\ i < W - 1)%nat) as [[Hi Hr] |];
        [| discriminate H].
      left. exists index, i. split; [exact Hi |]. split; [exact Hr |].
      destruct d, f; try discriminate H; injection H as <-;
        unfold relay_stmts; elem_solve.
Qed.

Lemma netlist_driver_spec W R s :
  driver (netlist W R) s = netlist_driver W R s.
Proof.
  apply driver_table; [apply netlist_sound | apply netlist_complete].
Qed.

(** ** One cycle of the multi-writer hierarchy *)

Lemma writer_banks_elem (self : MultiportXORMemory.t) (index : nat) (mem : Memory) :
  mem ∈ writer_banks self index ->
  xor_bank (S index) (length (MultiportXORMemory.read_ports self)) (bank mem) \/
  (exists i, (i < length (MultiportXORMemory.write_ports self) - 1)%nat /\
             bank mem = Relay index i).
Proof.
  unfold writer_banks. rewrite elem_of_app. intros [H | H].
  - apply list_elem_of_In, in_map_iff in H as (i & <- & Hi). apply in_seq in Hi.
    right. exists i. split; [lia | reflexivity].
  - left. apply single_design_banks in H as (k & p & Hk & ->).
    destruct (built_read_block_facts self index) as ((Ho & _) & _ & Hr & _).
    apply lookup_lt_Some in Hk. rewrite Hr in Hk.
    change (xor_bank (S index) (length (MultiportXORMemory.read_ports self))
              (Replica (MultiReadMemory.oid (built_read_block self index)) k)).
    rewrite Ho. simpl. lia.
Qed.

Lemma writer_banks_has (self : MultiportXORMemory.t) (b : bank_id) :
  xor_bank (length (MultiportXORMemory.write_ports self))
           (length (MultiportXORMemory.read_ports self)) b ->
  exists mem, mem ∈ writer_banks self (bank_writer b) /\ bank mem = b.
Proof.
  destruct b as [[| index] k | index i]; simpl; intros H; [destruct H | |].
  - destruct H as (Hi & Hk).
    destruct (built_read_block_facts self index)
      as ((Ho & _) & _ & Hr & wp & Hw & _).
    rewrite <- Hr in Hk. destruct (lookup_lt_is_Some_2 _ k Hk) as [p Hp].
    exists (replica_memory (MultiReadMemory.set_frozen (built_read_block self index) true)
              k p).
    split.
    + unfold writer_banks. apply elem_of_app. right.
      rewrite (design_with_writer _ wp [] Hw). cbn [banks].
      apply elem_of_lookup_imap. eauto.
    + change (Replica (MultiReadMemory.oid (built_read_block self index)) k
              = Replica (ReadBlock index) k). rewrite Ho. reflexivity.
  - destruct H as (Hi & Hr). exists (relay_memory self index i).
    split; [| reflexivity].
    unfold writer_banks. apply elem_of_app. left.
    apply list_elem_of_In, in_map_iff. exists i.
    split; [reflexivity | apply in_seq; lia].
Qed.

Section XorCycle.
Variable self : MultiportXORMemory.t.
Hypothesis Hwf : xor_wf Top self.
Variable d : Design.
Hypothesis Hd : MultiportXORMemory_design self = Ok d.

Let W := length (MultiportXORMemory.write_ports self).
Let R := length (MultiportXORMemory.read_ports self).

Lemma xc_wiring : wiring d = netlist W R.
Proof.
  pose proof (xor_design_exact self Hwf) as E. cbv zeta in E.
  rewrite Hd in E. injection E as ->. reflexivity.
Qed.

Lemma xc_banks :
  banks d =
  concat (map (writer_banks (MultiportXORMemory.set_frozen self true)) (seq 0 W)).
Proof.
  pose proof (xor_design_exact self Hwf) as E. cbv zeta in E.
  rewrite Hd in E. injection E as ->. reflexivity.
Qed.

Lemma xc_find_bank b :
  xor_bank W R b ->
  exists mem,
    find_bank d b = Some mem /\ bank mem = b /\
    mem_depth mem = MultiportXORMemory.depth self /\
    mem_init mem = MultiportXORMemory.init self.
Proof.
  intros Hb.
  destruct (writer_banks_has (MultiportXORMemory.set_frozen self true) b Hb)
    as (mem0 & Hin & Hbank).
  assert (Hin0 : mem0 ∈ banks d).
  { rewrite xc_banks. apply elem_of_concat_map. exists (bank_writer b).
    split; [| exact Hin]. apply elem_of_seq.
    destruct b as [[| index] k | index i]; simpl in Hb |- *; unfold W in *; lia. }
  unfold find_bank.
  destruct (find (fun mem => bool_decide (bank mem = b)) (banks d)) as [mem |] eqn:E.
  - apply find_some in E as (Hmem & Hbk). apply bool_decide_eq_true in Hbk.
    exists mem. split; [reflexivity |]. split; [exact Hbk |].
    apply list_elem_of_In in Hmem. rewrite xc_banks in Hmem.
    apply elem_of_concat_map in Hmem as (index & _ & Hmem).
    apply xor_design_banks in Hmem as (_ & _ & Hdepth & Hinit & _).
    split; [exact Hdepth | exact Hinit].
  - apply list_elem_of_In in Hin0.
    pose proof (find_none _ _ E mem0 Hin0) as Hn. simpl in Hn.
    apply bool_decide_eq_false in Hn. contradiction.
Qed.

Lemma xc_find_bank_inv b mem :
  find_bank d b = Some mem -> xor_bank W R b.
Proof.
  unfold find_bank. intros E. apply find_some in E as (Hmem & Hbk).
  apply bool_decide_eq_true in Hbk. subst b.
  apply list_elem_of_In in Hmem. rewrite xc_banks in Hmem.
  apply elem_of_concat_map in Hmem as (index & Hi & Hmem).
  apply elem_of_seq in Hi.
  apply writer_banks_elem in Hmem as [H | (i & Hlt & ->)].
  - change (length (MultiportXORMemory.read_ports
                      (MultiportXORMemory.set_frozen self true))) with R in H.
    destruct (bank mem) as [[| index'] k | index' i]; simpl in H |- *;
      unfold W; lia.
  - simpl. change (length (MultiportXORMemory.write_ports
                      (MultiportXORMemory.set_frozen self true))) with W in Hlt.
    lia.
Qed.

Lemma net_undriven fuel u s :
  netlist_driver W R s = None -> settle fuel (netlist W R) u s = u s.
Proof.
  intros H. apply settle_undriven. rewrite netlist_driver_spec. exact H.
Qed.

Lemma net_driven fuel u s v :
  netlist_driver W R s = Some v ->
  settle (S fuel) (netlist W R) u s = eval (settle fuel (netlist W R) u) v.
Proof.
  intros H. apply settle_driven. rewrite netlist_driver_spec. exact H.
Qed.

Lemma net_relay_rdata fuel tb st j i :
  settle fuel (netlist W R) (undriven tb st) (PhysSig (Relay j i) Rd Data)
  = rdata (st (Relay j i)).
Proof.
  rewrite net_undriven; [reflexivity |]. cbn [netlist_driver].
  destruct (decide _); reflexivity.
Qed.

Lemma net_replica_rdata fuel tb st o k :
  settle fuel (netlist W R) (undriven tb st) (PhysSig (Replica o k) Rd Data)
  = rdata (st (Replica o k)).
Proof.
  rewrite net_undriven; [reflexivity |]. destruct o; cbn [netlist_driver];
    [reflexivity | destruct (decide _); reflexivity].
Qed.

Lemma net_write_input fuel tb st index f :
  settle fuel (netlist W R) (undriven tb st) (PortSig Top Wr index f)
  = tb (PortSig Top Wr index f).
Proof. rewrite net_undriven; reflexivity. Qed.

Lemma net_read_addr fuel tb st k :
  settle fuel (netlist W R) (undriven tb st) (PortSig Top Rd k Addr)
  = tb (PortSig Top Rd k Addr).
Proof. rewrite net_undriven; reflexivity. Qed.

Lemma net_commit fuel tb st index :
  eval (settle fuel (netlist W R) (undriven tb st)) (commit index)
  = commit_value tb st index.
Proof.
  unfold commit, commit_value. cbn [eval].
  rewrite eval_prior_combination, net_write_input.
  rewrite (net_undriven _ _ (LocalSig WriteXors index)) by reflexivity.
  cbn [undriven]. unfold xor_all. do 2 f_equal.
  apply map_ext. intros j. apply net_relay_rdata.
Qed.

Lemma net_nonempty b : xor_bank W R b -> exists L, length (netlist W R) = S L.
Proof.
  intros Hb.
  assert (Hin : mkAssign (PortSig (ReadBlock (bank_writer b)) Wr 0 Addr)
                  (VSig (PortSig Top Wr (bank_writer b) Addr)) ∈ netlist W R).
  { apply netlist_complete. cbn [netlist_driver].
    rewrite decide_True; [reflexivity |].
    destruct b as [[| index] k | index i]; simpl in Hb |- *; lia. }
  destruct (netlist W R); [inversion Hin | eexists; reflexivity].
Qed.

Ltac net_step s v :=
  rewrite (net_driven _ _ s v)
    by (cbn [netlist_driver]; rewrite decide_True by (first [assumption | lia]);
        reflexivity).

Lemma xc_bank_inputs fuel tb st b :
  xor_bank W R b ->
  let v := settle (S (S fuel)) (netlist W R) (undriven tb st) in
  v (PhysSig b Wr En) = tb (PortSig Top Wr (bank_writer b) En) /\
  v (PhysSig b Wr Addr) = tb (PortSig Top Wr (bank_writer b) Addr) /\
  v (PhysSig b Wr Data) = commit_value tb st (bank_writer b) /\
  v (PhysSig b Rd En) = 1%Z /\
  v (PhysSig b Rd Addr) = tb (bank_read_addr b).
Proof.
  intros Hb v. subst v.
  destruct b as [[| index] k | index i]; simpl in Hb; [destruct Hb | |].
  - cbn [bank_writer bank_read_addr].
    net_step (PhysSig (Replica (ReadBlock index) k) Wr En) (VSig (PortSig (ReadBlock index) Wr 0 En)).
    net_step (PhysSig (Replica (ReadBlock index) k) Wr Addr) (VSig (PortSig (ReadBlock index) Wr 0 Addr)).
    net_step (PhysSig (Replica (ReadBlock index) k) Wr Data) (VSig (PortSig (ReadBlock index) Wr 0 Data)).
    net_step (PhysSig (Replica (ReadBlock index) k) Rd En) (VSig (PortSig (ReadBlock index) Rd k En)).
    net_step (PhysSig (Replica (ReadBlock index) k) Rd Addr) (VSig (PortSig (ReadBlock index) Rd k Addr)).
    cbn [eval].
    net_step (PortSig (ReadBlock index) Wr 0 En) (VSig (PortSig Top Wr index En)).
    net_step (PortSig (ReadBlock index) Wr 0 Addr) (VSig (PortSig Top Wr index Addr)).
    net_step (PortSig (ReadBlock index) Wr 0 Data) (commit index).
    net_step (PortSig (ReadBlock index) Rd k En) (VConst 1).
    net_step (PortSig (ReadBlock index) Rd k Addr) (VSig (PortSig Top Rd k Addr)).
    cbn [eval]. rewrite !net_write_input, net_read_addr, net_commit.
    repeat split.
  - cbn [bank_writer bank_read_addr].
    net_step (PhysSig (Relay index i) Wr En) (VSig (PortSig Top Wr index En)).
    net_step (PhysSig (Relay index i) Wr Addr) (VSig (PortSig Top Wr index Addr)).
    net_step (PhysSig (Relay index i) Wr Data) (commit index).
    net_step (PhysSig (Relay index i) Rd En) (VConst 1).
    net_step (PhysSig (Relay index i) Rd Addr) (VSig (PortSig Top Wr (relay_target index i) Addr)).
    cbn [eval]. rewrite !net_write_input, net_commit. repeat split.
Qed.

Lemma xc_step tb st b :
  xor_bank W R b -> step d tb st b = xor_bank_step tb st b.
Proof.
  intros Hb. unfold step.
  destruct (xc_find_bank b Hb) as (mem & -> & Hbank & _).
  unfold bank_step, cycle_value. rewrite Hbank, xc_wiring.
  destruct (net_nonempty b Hb) as (L & ->).
  destruct (xc_bank_inputs L tb st b Hb) as (-> & -> & -> & -> & ->).
  reflexivity.
Qed.

Lemma xc_step_other tb st b :
  ~ xor_bank W R b -> step d tb st b = st b.
Proof.
  intros Hb. unfold step. destruct (find_bank d b) as [mem |] eqn:E;
    [| reflexivity].
  apply xc_find_bank_inv in E. contradiction.
Qed.

Lemma xc_reset b :
  xor_bank W R b ->
  reset d b = mkBank (reset_rows (MultiportXORMemory.depth self)
                        (MultiportXORMemory.init self)) 0%Z.
Proof.
  intros Hb. unfold reset.
  destruct (xc_find_bank b Hb) as (mem & -> & _ & Hdepth & Hinit).
  unfold bank_reset, reset_rows. rewrite Hdepth, Hinit. reflexivity.
Qed.

Lemma xc_reset_other b : ~ xor_bank W R b -> reset d b = mkBank [] 0%Z.
Proof.
  intros Hb. unfold reset. destruct (find_bank d b) as [mem |] eqn:E;
    [| reflexivity].
  apply xc_find_bank_inv in E. contradiction.
Qed.

Lemma xc_read tb st k :
  (k < R)%nat ->
  cycle_value d tb st (PortSig Top Rd k Data) =
  xor_all (map (fun index => rdata (st (Replica (ReadBlock index) k))) (seq 0 W)).
Proof.
  intros Hk. unfold cycle_value. rewrite xc_wiring.
  rewrite (net_driven _ _ (PortSig Top Rd k Data) (read_combination W k))
    by (cbn [netlist_driver]; rewrite decide_True by exact Hk; reflexivity).
  rewrite eval_read_combination.
  rewrite (net_undriven _ _ (LocalSig ReadXors k)) by reflexivity.
  cbn [undriven]. unfold xor_all. f_equal.
  apply map_ext_in. intros index Hi. apply in_seq in Hi.
  destruct (net_nonempty (Replica (ReadBlock index) k)) as (L & ->);
    [simpl; lia |].
  rewrite (net_driven L _ (PortSig (ReadBlock index) Rd k Data)
             (VSig (PhysSig (Replica (ReadBlock index) k) Rd Data)))
    by (cbn [netlist_driver]; rewrite decide_True by lia; reflexivity).
  cbn [eval]. apply net_replica_rdata.
Qed.
End XorCycle.

(** ** Runs of the multi-writer hierarchy *)

Lemma xor_bank_dec W R b : {xor_bank W R b} + {~ xor_bank W R b}.
Proof.
  destruct b as [[| index] k | index i]; simpl.
  - right. intros [].
  - destruct (decide (index < W /\ k < R)%nat); [left | right]; assumption.
  - destruct (decide (index < W /\ i < W - 1)%nat); [left | right]; assumption.
Qed.

Lemma xor_all_snoc l v : xor_all (l ++ [v]) = Z.lxor (xor_all l) v.
Proof. unfold xor_all. rewrite fold_left_app. reflexivity. Qed.

Lemma xor_all_const (v : Z) (n : nat) :
  xor_all (map (fun _ => v) (seq 0 n)) = if Nat.even n then 0%Z else v.
Proof.
  induction n as [| n IH]; [reflexivity |].
  rewrite seq_S, map_app. cbn [map].
  rewrite xor_all_snoc, IH, Nat.even_succ, <- Nat.negb_even.
  destruct (Nat.even n); simpl.
  - reflexivity.
  - apply Z.lxor_nilpotent.
Qed.

Section XorRun.
Variable self : MultiportXORMemory.t.
Hypothesis Hwf : xor_wf Top self.
Variable d : Design.
Hypothesis Hd : MultiportXORMemory_design self = Ok d.

Let W := length (MultiportXORMemory.write_ports self).
Let R := length (MultiportXORMemory.read_ports self).

Lemma xr_coherent tb n b b' :
  xor_bank W R b -> xor_bank W R b' -> bank_writer b = bank_writer b' ->
  contents (run d tb n b) = contents (run d tb n b').
Proof.
  intros Hb Hb' Hw. induction n as [| n IH].
  - cbn [run]. rewrite !(xc_reset self Hwf d Hd) by assumption. reflexivity.
  - cbn [run]. rewrite !(xc_step self Hwf d Hd) by assumption.
    unfold xor_bank_step. cbn [contents]. rewrite Hw, IH. reflexivity.
Qed.

Lemma xr_read_en tb e n b : run d (with_read_en tb e) n b = run d tb n b.
Proof.
  revert b. induction n as [| n IH]; intros b; [reflexivity |].
  cbn [run]. destruct (xor_bank_dec W R b) as [Hb | Hb].
  - rewrite !(xc_step self Hwf d Hd) by assumption.
    unfold xor_bank_step, commit_value. rewrite IH.
    assert (Ha : with_read_en tb e n (bank_read_addr b) = tb n (bank_read_addr b))
      by (destruct b as [[| index] k | index i]; reflexivity).
    rewrite Ha. cbn [with_read_en].
    rewrite (map_ext (fun j => rdata (run d (with_read_en tb e) n
                                        (Relay j (bank_writer b - 1))))
               (fun j => rdata (run d tb n (Relay j (bank_writer b - 1)))))
      by (intros j; rewrite IH; reflexivity).
    reflexivity.
  - rewrite !(xc_step_other self Hwf d Hd) by assumption. apply IH.
Qed.

Lemma xr_first_writer tb n b :
  xor_bank W R b -> bank_writer b = 0%nat ->
  contents (run d tb n b) =
  ref_contents 0 (MultiportXORMemory.depth self) (MultiportXORMemory.init self) tb n.
Proof.
  intros Hb Hw. induction n as [| n IH].
  - cbn [run]. rewrite (xc_reset self Hwf d Hd) by assumption. reflexivity.
  - cbn [run ref_contents]. rewrite (xc_step self Hwf d Hd) by assumption.
    unfold xor_bank_step, commit_value. cbn [contents]. rewrite Hw, IH.
    cbn [seq map]. unfold xor_all. cbn [fold_left]. rewrite Z.lxor_0_r.
    reflexivity.
Qed.

Lemma xr_idle tb n b :
  xor_bank W R b -> (forall t, (t < n)%nat -> no_write W tb t) ->
  contents (run d tb n b) =
  reset_rows (MultiportXORMemory.depth self) (MultiportXORMemory.init self).
Proof.
  intros Hb. induction n as [| n IH]; intros Hidle.
  - cbn [run]. rewrite (xc_reset self Hwf d Hd) by assumption. reflexivity.
  - cbn [run]. rewrite (xc_step self Hwf d Hd) by assumption.
    unfold xor_bank_step. cbn [contents].
    rewrite (Hidle n ltac:(lia) (bank_writer b)).
    + apply IH. intros t Ht. apply Hidle. lia.
    + destruct b as [[| index] k | index i]; simpl in Hb |- *; lia.
Qed.

Lemma xr_observe tb n k :
  (k < R)%nat ->
  observe d tb (S n) (PortSig Top Rd k Data) =
  xor_all (map (fun index =>
                  load (contents (run d tb n (Replica (ReadBlock index) k)))
                       (tb n (PortSig Top Rd k Addr)))
               (seq 0 W)).
Proof.
  intros Hk. unfold observe. rewrite (xc_read self Hwf d Hd) by exact Hk.
  f_equal. apply map_ext_in. intros index Hi. apply in_seq in Hi.
  cbn [run]. rewrite (xc_step self Hwf d Hd) by (simpl; lia). reflexivity.
Qed.

Lemma xr_observe_reset tb k :
  (k < R)%nat -> observe d tb 0 (PortSig Top Rd k Data) = 0%Z.
Proof.
  intros Hk. unfold observe. rewrite (xc_read self Hwf d Hd) by exact Hk.
  cbn [run].
  rewrite (map_ext_in _ (fun _ => 0%Z)).
  - rewrite xor_all_const. destruct (Nat.even _); reflexivity.
  - intros index Hi. apply in_seq in Hi.
    rewrite (xc_reset self Hwf d Hd) by (simpl; lia). reflexivity.
Qed.
End XorRun.

Lemma xor_session_built shape depth init attrs loc cs :
  let self := snd (MultiportXORMemory_session
                     (MultiportXORMemory.__init__ Top shape depth init attrs loc) cs) in
  xor_wf Top self /\
  MultiportXORMemory.depth self = depth /\
  MultiportXORMemory.init self = init /\
  exists d, MultiportXORMemory_design self = Ok d.
Proof.
  intros self.
  assert (Hwf : xor_wf Top self) by apply xor_session_wf, xor_init_wf.
  destruct (xor_session_records cs
              (MultiportXORMemory.__init__ Top shape depth init attrs loc)
              (List.Forall_nil _) (List.Forall_nil _))
    as (_ & _ & _ & Xd & Xi & _).
  split; [exact Hwf |]. split; [exact Xd |]. split; [exact Xi |].
  eexists. apply (xor_design_exact self Hwf).
Qed.

Lemma relay_targets index W :
  (index < W)%nat ->
  map (relay_target index) (seq 0 (W - 1)) =
  seq 0 index ++ seq (S index) (W - 1 - index).
Proof.
  intros Hi.
  replace (W - 1)%nat with (index + (W - 1 - index))%nat at 1 by lia.
  rewrite seq_app, map_app. f_equal.
  - rewrite <- (map_id (seq 0 index)) at 2. apply map_ext_in.
    intros i Hin. apply in_seq in Hin.
    destruct (relay_target_spec index i) as (_ & H & _). apply H. lia.
  - rewrite <- seq_shift. apply map_ext_in.
    intros i Hin. apply in_seq in Hin.
    destruct (relay_target_spec index i) as (_ & _ & H). apply H. lia.
Qed.

(** ** The multi-writer engine, statement by statement *)

(** X7: the combinational statements of an elaborated multi-writer
    hierarchy are fixed by the numbers W and R of declared ports: they are
    the list [netlist W R], and every signal has exactly the driver that the
    table [netlist_driver W R] gives.  In particular nothing drives a signal
    of a logical write port, the [en] or [addr] of a logical read port, the
    read data of a bank, or one of the anonymous signals. *)
Theorem xor_netlist_by_port_counts :
  forall (shape : ShapeLike) (depth : Z) (init : list Z) (attrs : Attrs)
         (loc : Z) (cs : list call),
    let self := snd (MultiportXORMemory_session
                       (MultiportXORMemory.__init__ Top shape depth init attrs loc)
                       cs) in
    let W := length (MultiportXORMemory.write_ports self) in
    let R := length (MultiportXORMemory.read_ports self) in
    exists d,
      MultiportXORMemory_design self = Ok d /\
      wiring d = netlist W R /\
      (forall s, driver (wiring d) s = netlist_driver W R s) /\
      (forall index f, driver (wiring d) (PortSig Top Wr index f) = None) /\
      (forall k, driver (wiring d) (PortSig Top Rd k En) = None /\
                 driver (wiring d) (PortSig Top Rd k Addr) = None) /\
      (forall b, driver (wiring d) (PhysSig b Rd Data) = None) /\
      (forall l n, driver (wiring d) (LocalSig l n) = None).
Proof.
  intros shape depth init attrs loc cs self W R.
  destruct (xor_session_built shape depth init attrs loc cs)
    as (Hwf & _ & _ & d & Hd).
  fold self in Hwf, Hd.
  exists d. split; [exact Hd |].
  rewrite (xc_wiring self Hwf d Hd). fold W R.
  split; [reflexivity |]. split; [apply netlist_driver_spec |].
  split; [| split; [| split]].
  - intros index f. rewrite netlist_driver_spec. reflexivity.
  - intros k. rewrite !netlist_driver_spec. split; reflexivity.
  - intros b. rewrite netlist_driver_spec.
    destruct b as [[| index] k | index i]; cbn [netlist_driver];
      [reflexivity | |]; destruct (decide _); reflexivity.
  - intros l n. rewrite netlist_driver_spec. reflexivity.
Qed.

(** X8: the relay banks of writer [index] are read at the addresses of the
    other write ports, in order and each exactly once: banks 0 .. index-1 at
    the addresses of write ports 0 .. index-1, and banks index .. W-2 at
    those of write ports index+1 .. W-1; their read enables are the
    constant 1. *)
Theorem relay_banks_addressed_by_other_writers :
  forall (shape : ShapeLike) (depth : Z) (init : list Z) (attrs : Attrs)
         (loc : Z) (cs : list call),
    let self := snd (MultiportXORMemory_session
                       (MultiportXORMemory.__init__ Top shape depth init attrs loc)
                       cs) in
    let W := length (MultiportXORMemory.write_ports self) in
    exists d,
      MultiportXORMemory_design self = Ok d /\
      forall index, (index < W)%nat ->
        map (fun i => driver (wiring d) (PhysSig (Relay index i) Rd Addr))
            (seq 0 (W - 1))
        = map (fun j => Some (VSig (PortSig Top Wr j Addr)))
              (seq 0 index ++ seq (S index) (W - 1 - index)) /\
        map (fun i => driver (wiring d) (PhysSig (Relay index i) Rd En))
            (seq 0 (W - 1))
        = map (fun _ => Some (VConst 1)) (seq 0 (W - 1)).
Proof.
  intros shape depth init attrs loc cs self W.
  destruct (xor_session_built shape depth init attrs loc cs)
    as (Hwf & _ & _ & d & Hd).
  fold self in Hwf, Hd.
  exists d. split; [exact Hd |]. intros index Hi.
  rewrite (xc_wiring self Hwf d Hd). fold W. split.
  - rewrite <- (relay_targets index W Hi), map_map. apply map_ext_in.
    intros i Hin. apply in_seq in Hin.
    rewrite netlist_driver_spec. cbn [netlist_driver].
    rewrite decide_True by lia. reflexivity.
  - apply map_ext_in. intros i Hin. apply in_seq in Hin.
    rewrite netlist_driver_spec. cbn [netlist_driver].
    rewrite decide_True by lia. reflexivity.
Qed.

(** Two writers and one reader: the only relay bank of writer 1 is read at
    the address of write port 0. *)
Lemma relay_banks_addressed_by_other_writers_witness :
  (1 < 2)%nat /\
  exists d,
    MultiportXORMemory_design scenario_B = Ok d /\
    map (fun i => driver (wiring d) (PhysSig (Relay 1 i) Rd Addr)) (seq 0 1)
    = [Some (VSig (PortSig Top Wr 0 Addr))] /\
    map (fun i => driver (wiring d) (PhysSig (Relay 1 i) Rd En)) (seq 0 1)
    = [Some (VConst 1)].
Proof.
  split; [lia |].
  destruct (relay_banks_addressed_by_other_writers 8%Z 8%Z [] None 0%Z
              scenario_B_calls) as (d & Ed & H).
  exists d. split; [exact Ed |].
  exact (H 1%nat ltac:(vm_compute; lia)).
Defined.

(** ** The multi-writer engine, cycle by cycle *)

(** X9: one clock cycle of an elaborated multi-writer hierarchy, bank by
    bank.  Every bank created in the loop iteration of writer [index] (its
    W-1 relay banks and the R banks of its replicator) stores, when the [en]
    of write port [index] is set, at the [addr] of that port, its [data]
    XORed with the read registers of relay bank [index - 1] of each earlier
    writer.  Its read port is enabled in every cycle and samples the row, as
    it was before the write, at the [addr] of another write port (a relay
    bank) or of logical read port k (bank k of the replicator). *)
Theorem xor_cycle_by_bank :
  forall (shape : ShapeLike) (depth : Z) (init : list Z) (attrs : Attrs)
         (loc : Z) (cs : list call),
    let self := snd (MultiportXORMemory_session
                       (MultiportXORMemory.__init__ Top shape depth init attrs loc)
                       cs) in
    let W := length (MultiportXORMemory.write_ports self) in
    let R := length (MultiportXORMemory.read_ports self) in
    exists d,
      MultiportXORMemory_design self = Ok d /\
      forall (tb : signal -> Z) (st : bank_id -> bank_state) (b : bank_id),
        xor_bank W R b ->
        let index := bank_writer b in
        step d tb st b =
        {| contents :=
             if enabled (tb (PortSig Top Wr index En))
             then store (contents (st b)) (tb (PortSig Top Wr index Addr))
                    (Z.lxor (tb (PortSig Top Wr index Data))
                       (xor_all (map (fun j => rdata (st (Relay j (index - 1))))
                                     (seq 0 index))))
             else contents (st b);
           rdata := load (contents (st b)) (tb (bank_read_addr b)) |}.
Proof.
  intros shape depth init attrs loc cs self W R.
  destruct (xor_session_built shape depth init attrs loc cs)
    as (Hwf & _ & _ & d & Hd).
  fold self in Hwf, Hd.
  exists d. split; [exact Hd |]. intros tb st b Hb index.
  apply (xc_step self Hwf d Hd tb st b Hb).
Qed.

(** Two writers and one reader: writer 1 stores its data XORed with the read
    register of relay bank 0 of writer 0. *)
Lemma xor_cycle_by_bank_witness :
  xor_bank 2 1 (Replica (ReadBlock 1) 0) /\
  exists d,
    MultiportXORMemory_design scenario_B = Ok d /\
    step d (fun s => match s with
                     | PortSig Top Wr 1 En => 1%Z
                     | PortSig Top Wr 1 Data => 12%Z
                     | _ => 0%Z
                     end)
         (fun b => mkBank [0%Z; 0%Z] match b with Relay 0 0 => 10%Z | _ => 0%Z end)
         (Replica (ReadBlock 1) 0)
    = mkBank [6%Z; 0%Z] 0%Z.
Proof.
  split; [simpl; lia |].
  destruct (xor_cycle_by_bank 8%Z 8%Z [] None 0%Z scenario_B_calls)
    as (d & Ed & H).
  exists d. split; [exact Ed |].
  exact (H _ _ (Replica (ReadBlock 1) 0) ltac:(vm_compute; lia)).
Defined.

(** X10: all banks that the loop iteration of one writer created hold the
    same rows in every cycle, whatever the client does. *)
Theorem xor_banks_of_a_writer_agree :
  forall (shape : ShapeLike) (depth : Z) (init : list Z) (attrs : Attrs)
         (loc : Z) (cs : list call),
    let self := snd (MultiportXORMemory_session
                       (MultiportXORMemory.__init__ Top shape depth init attrs loc)
                       cs) in
    let W := length (MultiportXORMemory.write_ports self) in
    let R := length (MultiportXORMemory.read_ports self) in
    exists d,
      MultiportXORMemory_design self = Ok d /\
      forall (tb : nat -> signal -> Z) (n : nat) (b b' : bank_id),
        xor_bank W R b -> xor_bank W R b' -> bank_writer b = bank_writer b' ->
        contents (run d tb n b) = contents (run d tb n b').
Proof.
  intros shape depth init attrs loc cs self W R.
  destruct (xor_session_built shape depth init attrs loc cs)
    as (Hwf & _ & _ & d & Hd).
  fold self in Hwf, Hd.
  exists d. split; [exact Hd |]. intros tb n b b'.
  apply (xr_coherent self Hwf d Hd).
Qed.

Lemma xor_banks_of_a_writer_agree_witness :
  xor_bank 2 1 (Relay 0 0) /\ xor_bank 2 1 (Replica (ReadBlock 0) 0) /\
  exists d,
    MultiportXORMemory_design scenario_B = Ok d /\
    contents (run d (fun _ _ => 1%Z) 3 (Relay 0 0))
    = contents (run d (fun _ _ => 1%Z) 3 (Replica (ReadBlock 0) 0)).
Proof.
  split; [simpl; lia |]. split; [simpl; lia |].
  destruct (xor_banks_of_a_writer_agree 8%Z 8%Z [] None 0%Z scenario_B_calls)
    as (d & Ed & H).
  exists d. split; [exact Ed |].
  exact (H (fun _ _ => 1%Z) 3%nat (Relay 0 0) (Replica (ReadBlock 0) 0)
           ltac:(vm_compute; lia) ltac:(vm_compute; lia) eq_refl).
Defined.

(** X11: the [en] of a read port handed out by
    [MultiportXORMemory.read_port] has no effect: the replicators' read
    ports are enabled by the constant 1 (line 333), so two clients that
    differ on those signals only leave every bank in the same state and see
    the same read data in every cycle. *)
Theorem xor_read_enable_has_no_effect :
  forall (shape : ShapeLike) (depth : Z) (init : list Z) (attrs : Attrs)
         (loc : Z) (cs : list call),
    let self := snd (MultiportXORMemory_session
                       (MultiportXORMemory.__init__ Top shape depth init attrs loc)
                       cs) in
    exists d,
      MultiportXORMemory_design self = Ok d /\
      forall (tb : nat -> signal -> Z) (e : nat -> nat -> Z) (n : nat),
        (forall b, run d (with_read_en tb e) n b = run d tb n b) /\
        (forall k, observe d (with_read_en tb e) n (PortSig Top Rd k Data)
                   = observe d tb n (PortSig Top Rd k Data)).
Proof.
  intros shape depth init attrs loc cs self.
  destruct (xor_session_built shape depth init attrs loc cs)
    as (Hwf & _ & _ & d & Hd).
  fold self in Hwf, Hd.
  exists d. split; [exact Hd |]. intros tb e n.
  split; [intros b; apply (xr_read_en self Hwf d Hd) |].
  intros k. unfold observe.
  destruct (decide (k < length (MultiportXORMemory.read_ports self))%nat)
    as [Hk | Hk].
  - rewrite !(xc_read self Hwf d Hd) by exact Hk. f_equal.
    apply map_ext. intros index. rewrite (xr_read_en self Hwf d Hd). reflexivity.
  - unfold cycle_value. rewrite (xc_wiring self Hwf d Hd).
    rewrite !settle_undriven; [reflexivity | |];
      rewrite netlist_driver_spec; cbn [netlist_driver];
      rewrite decide_False by exact Hk; reflexivity.
Qed.

(** X12: the banks of the first writer hold, in every cycle, exactly the
    rows of a memory written through write port 0 alone with the client's
    raw data: nothing is XORed into what writer 0 commits. *)
Theorem xor_first_writer_stores_raw_data :
  forall (shape : ShapeLike) (depth : Z) (init : list Z) (attrs : Attrs)
         (loc : Z) (cs : list call),
    let self := snd (MultiportXORMemory_session
                       (MultiportXORMemory.__init__ Top shape depth init attrs loc)
                       cs) in
    let W := length (MultiportXORMemory.write_ports self) in
    let R := length (MultiportXORMemory.read_ports self) in
    exists d,
      MultiportXORMemory_design self = Ok d /\
      forall (tb : nat -> signal -> Z) (n : nat) (b : bank_id),
        xor_bank W R b -> bank_writer b = 0%nat ->
        contents (run d tb n b) = ref_contents 0 depth init tb n.
Proof.
  intros shape depth init attrs loc cs self W R.
  destruct (xor_session_built shape depth init attrs loc cs)
    as (Hwf & Xd & Xi & d & Hd).
  fold self in Hwf, Hd, Xd, Xi.
  exists d. split; [exact Hd |]. intros tb n b Hb Hw.
  rewrite (xr_first_writer self Hwf d Hd tb n b Hb Hw), Xd, Xi. reflexivity.
Qed.

Lemma xor_first_writer_stores_raw_data_witness :
  xor_bank 2 1 (Relay 0 0) /\
  exists d,
    MultiportXORMemory_design scenario_B = Ok d /\
    contents (run d (fun _ _ => 1%Z) 2 (Relay 0 0))
    = ref_contents 0 8%Z [] (fun _ _ => 1%Z) 2.
Proof.
  split; [simpl; lia |].
  destruct (xor_first_writer_stores_raw_data 8%Z 8%Z [] None 0%Z scenario_B_calls)
    as (d & Ed & H).
  exists d. split; [exact Ed |].
  exact (H (fun _ _ => 1%Z) 2%nat (Relay 0 0) ltac:(vm_compute; lia) eq_refl).
Defined.

(** X13: with exactly one write port the multi-writer engine is one
    synchronous memory whose read ports are always enabled: read port k
    shows 0 in the first cycle and from then on the row that its [addr]
    selected in the cycle before, as the row was before that cycle's
    write. *)
Theorem xor_single_writer_is_memory :
  forall (shape : ShapeLike) (depth : Z) (init : list Z) (attrs : Attrs)
         (loc : Z) (cs : list call),
    let self := snd (MultiportXORMemory_session
                       (MultiportXORMemory.__init__ Top shape depth init attrs loc)
                       cs) in
    length (MultiportXORMemory.write_ports self) = 1%nat ->
    exists d,
      MultiportXORMemory_design self = Ok d /\
      forall (tb : nat -> signal -> Z) (k : nat),
        (k < length (MultiportXORMemory.read_ports self))%nat ->
        observe d tb 0 (PortSig Top Rd k Data) = 0%Z /\
        forall n,
          observe d tb (S n) (PortSig Top Rd k Data)
          = load (ref_contents 0 depth init tb n) (tb n (PortSig Top Rd k Addr)).
Proof.
  intros shape depth init attrs loc cs self HW.
  destruct (xor_session_built shape depth init attrs loc cs)
    as (Hwf & Xd & Xi & d & Hd).
  fold self in Hwf, Hd, Xd, Xi.
  exists d. split; [exact Hd |]. intros tb k Hk.
  split; [apply (xr_observe_reset self Hwf d Hd tb k Hk) |].
  intros n. rewrite (xr_observe self Hwf d Hd tb n k Hk), HW.
  cbn [seq map]. unfold xor_all. cbn [fold_left]. rewrite Z.lxor_0_l.
  rewrite (xr_first_writer self Hwf d Hd tb n (Replica (ReadBlock 0) k)),
    Xd, Xi; [reflexivity | simpl; lia | reflexivity].
Qed.

(** One writer and one reader on a memory with initial content: the read
    port shows row 2 of the initial content although its [en] is 0. *)
Lemma xor_single_writer_is_memory_witness :
  exists d,
    MultiportXORMemory_design
      (snd (MultiportXORMemory_session
              (MultiportXORMemory.__init__ Top 8%Z 4%Z [5%Z; 6%Z; 7%Z; 8%Z] None 0%Z)
              [CallWritePort None 0%Z; CallReadPort [] 0%Z])) = Ok d /\
    observe d (fun _ s => match s with PortSig Top Rd 0 Addr => 2%Z | _ => 0%Z end)
      0 (PortSig Top Rd 0 Data) = 0%Z /\
    observe d (fun _ s => match s with PortSig Top Rd 0 Addr => 2%Z | _ => 0%Z end)
      1 (PortSig Top Rd 0 Data) = 7%Z.
Proof.
  destruct (xor_single_writer_is_memory 8%Z 4%Z [5%Z; 6%Z; 7%Z; 8%Z] None 0%Z
              [CallWritePort None 0%Z; CallReadPort [] 0%Z] eq_refl)
    as (d & Ed & H).
  exists d. split; [exact Ed |].
  destruct (H (fun _ s => match s with PortSig Top Rd 0 Addr => 2%Z | _ => 0%Z end)
              0%nat ltac:(vm_compute; lia)) as (H0 & HS).
  split; [exact H0 | exact (HS 0%nat)].
Defined.

(** X14: every writer's banks start from the initial content (lines 303 and
    320) and a read XORs the rows of all W replicators, so as long as no
    write port has been enabled a read shows the initial row only when W is
    odd; with an even number of write ports it shows 0. *)
Theorem xor_initial_content_by_parity :
  forall (shape : ShapeLike) (depth : Z) (init : list Z) (attrs : Attrs)
         (loc : Z) (cs : list call),
    let self := snd (MultiportXORMemory_session
                       (MultiportXORMemory.__init__ Top shape depth init attrs loc)
                       cs) in
    let W := length (MultiportXORMemory.write_ports self) in
    let R := length (MultiportXORMemory.read_ports self) in
    exists d,
      MultiportXORMemory_design self = Ok d /\
      forall (tb : nat -> signal -> Z) (n k : nat),
        (k < R)%nat ->
        (forall t, (t < n)%nat -> no_write W tb t) ->
        observe d tb (S n) (PortSig Top Rd k Data)
        = if Nat.even W then 0%Z
          else load (reset_rows depth init) (tb n (PortSig Top Rd k Addr)).
Proof.
  intros shape depth init attrs loc cs self W R.
  destruct (xor_session_built shape depth init attrs loc cs)
    as (Hwf & Xd & Xi & d & Hd).
  fold self in Hwf, Hd, Xd, Xi.
  exists d. split; [exact Hd |]. intros tb n k Hk Hidle.
  rewrite (xr_observe self Hwf d Hd tb n k Hk). fold W.
  rewrite (map_ext_in _ (fun _ => load (reset_rows depth init)
                                    (tb n (PortSig Top Rd k Addr)))).
  - apply xor_all_const.
  - intros index Hi. apply in_seq in Hi.
    rewrite (xr_idle self Hwf d Hd tb n (Replica (ReadBlock index) k)), Xd, Xi;
      [reflexivity | simpl; fold W R; lia | exact Hidle].
Qed.

(** Two writers and one reader on a memory whose four rows are initially 7:
    with no write at all, the read port shows 0. *)
Lemma xor_initial_content_by_parity_witness :
  exists d,
    MultiportXORMemory_design
      (snd (MultiportXORMemory_session
              (MultiportXORMemory.__init__ Top 8%Z 4%Z [7%Z; 7%Z; 7%Z; 7%Z] None 0%Z)
              scenario_B_calls)) = Ok d /\
    observe d (fun _ _ => 0%Z) 2 (PortSig Top Rd 0 Data) = 0%Z.
Proof.
  destruct (xor_initial_content_by_parity 8%Z 4%Z [7%Z; 7%Z; 7%Z; 7%Z] None 0%Z
              scenario_B_calls) as (d & Ed & H).
  exists d. split; [exact Ed |].
  exact (H (fun _ _ => 0%Z) 1%nat 0%nat ltac:(vm_compute; lia)
           (fun t _ index _ => eq_refl)).
Defined.
